(** * Game Center: the two game loops, verified against their specification

  A shallow embedding of the core of the Game Center portal:
  - the lane-crossing game ([src/games/crossy-road/Game.tsx] with its
    [Character], [Car] and [Obstacle] classes);
  - the pipe-navigation game ([src/games/flappy-bird/Game.tsx]).

  JavaScript numbers are modelled as exact rationals ([Q]): every
  comparison and every arithmetic step of the source is kept, rounding is
  not.  Counters that only ever hold integers (score, level, frame count)
  are [Z].  React state is a record; one invocation of a callback is a
  function from the state captured by the callback's closure to the state
  after all queued updaters have run.  [Math.random] is an oracle: a list
  of rationals in [0,1) consumed left to right. *)

From Stdlib Require Import QArith Qround Lqa ZArith List Bool Lia String.
From stdpp Require Import base decidable gmap.
Import ListNotations.

#[local] Open Scope Q_scope.

(** ** JavaScript numbers *)

Module Num.

(** [a < b] and [a <= b] as the booleans the source branches on. *)
Definition ltb (a b : Q) : bool :=
  (Qnum a * QDen b <? Qnum b * QDen a)%Z.

Definition leb (a b : Q) : bool := Qle_bool a b.

Definition gtb (a b : Q) : bool := ltb b a.

Definition geb (a b : Q) : bool := leb b a.

(** [Math.min] on two arguments. *)
Definition min (a b : Q) : Q := if leb a b then a else b.

(** [Math.floor] and [Math.ceil]. *)
Definition floor (a : Q) : Z := Qfloor a.

Definition ceil (a : Q) : Z := Qceiling a.

(** An integer used as a number. *)
Definition ofZ (n : Z) : Q := inject_Z n.

End Num.

Infix "<?" := Num.ltb (at level 70, no associativity) : Q_scope.
Infix "<=?" := Num.leb (at level 70, no associativity) : Q_scope.
Infix ">?" := Num.gtb (at level 70, no associativity) : Q_scope.
Infix ">=?" := Num.geb (at level 70, no associativity) : Q_scope.

(** ** Rectangles and the overlap test of the specification *)

Module Geometry.

Record Rect := mkRect { left : Q; right : Q; top : Q; bottom : Q }.

(** The specification's collision predicate, word for word:
    [a.right > b.left && a.left < b.right && a.bottom > b.top &&
     a.top < b.bottom]. *)
Definition collides (a b : Rect) : bool :=
  (right a >? left b) && (left a <? right b) &&
  (bottom a >? top b) && (top a <? bottom b).

End Geometry.

(** ** [Math.random] as an oracle *)

Module Rand.

(** A computation that draws from the oracle; [None] when the oracle is
    exhausted before the computation is done. *)
Definition M (A : Type) : Type := list Q -> option (A * list Q).

Definition ret {A} (a : A) : M A := fun rs => Some (a, rs).

Definition bind {A B} (m : M A) (k : A -> M B) : M B :=
  fun rs => match m rs with
            | Some (a, rs') => k a rs'
            | None => None
            end.

(** One call of [Math.random()]. *)
Definition random : M Q :=
  fun rs => match rs with
            | r :: rs' => Some (r, rs')
            | [] => None
            end.

End Rand.

Declare Scope rand_scope.
Notation "'draw' x ':=' m 'in' k" := (Rand.bind m (fun x => k))
  (at level 10, x name, m at level 100, k at level 200) : rand_scope.
Delimit Scope rand_scope with rand.

(** ** The pipe-navigation game (flappy-bird/Game.tsx) *)

Module FlappyBird.

Import Geometry.

Record Settings := mkSettings {
  gravity : Q;
  jumpForce : Q;
  pipeSpeed : Q;
  pipeSpawnRate : Q;
  gapSize : Q
}.

Definition DEFAULT_SETTINGS : Settings :=
  {| gravity := 6 # 10; jumpForce := - (9 # 1); pipeSpeed := 3 # 1;
     pipeSpawnRate := 1500 # 1; gapSize := 250 # 1 |}.

(** [interface PipeData]: [height] is the height of the top pipe. *)
Record PipeData := mkPipe {
  pipe_id : Q;
  pipe_x : Q;
  pipe_height : Q;
  showLogo : bool
}.

(** What a callback reads from its surroundings: the window size, the
    clock ([Date.now()]), the next value of [Math.random()], and whether
    React runs the component in a development build, where the
    [React.StrictMode] that main.tsx mounts the application in makes it
    call every state updater twice. *)
Record Env := mkEnv {
  innerWidth : Q;
  innerHeight : Q;
  now : Q;
  random : Q;
  strictMode : bool
}.

(** How many times React calls an updater function handed to a state
    setter: once, and twice under [React.StrictMode] in development. *)
Definition updaterRuns (strict : bool) : nat := if strict then 2 else 1.

(** The component's state: the [useState] cells and the two [useRef]
    counters the loop reads. *)
Record State := mkState {
  gameStarted : bool;
  gameOver : bool;
  scoreSubmitted : bool;
  birdPosition : Q;
  birdVelocity : Q;
  birdRotation : Q;
  pipes : list PipeData;
  score : Z;
  highScore : Z;
  lastPipe : Q;
  frameCount : Z
}.

(** The state a fresh component mounts with. *)
Definition initialState (savedHighScore : Z) : State :=
  {| gameStarted := false; gameOver := false; scoreSubmitted := false;
     birdPosition := 300; birdVelocity := 0; birdRotation := 0;
     pipes := []; score := 0%Z; highScore := savedHighScore;
     lastPipe := 0; frameCount := 0%Z |}.

(** [resetGame]. *)
Definition resetGame (st : State) : State :=
  {| gameStarted := false; gameOver := false; scoreSubmitted := false;
     birdPosition := 300; birdVelocity := 0; birdRotation := 0;
     pipes := []; score := 0%Z; highScore := highScore st;
     lastPipe := lastPipe st; frameCount := frameCount st |}.

(** [jump]: both tests read the state the callback closed over. *)
Definition jump (cfg : Settings) (st : State) : State :=
  let started := if negb (gameStarted st) then true else gameStarted st in
  if negb (gameOver st) then
    {| gameStarted := started; gameOver := gameOver st;
       scoreSubmitted := scoreSubmitted st;
       birdPosition := birdPosition st; birdVelocity := jumpForce cfg;
       birdRotation := - (30 # 1);
       pipes := pipes st; score := score st; highScore := highScore st;
       lastPipe := lastPipe st; frameCount := frameCount st |}
  else
    {| gameStarted := started; gameOver := gameOver st;
       scoreSubmitted := scoreSubmitted st;
       birdPosition := birdPosition st; birdVelocity := birdVelocity st;
       birdRotation := birdRotation st;
       pipes := pipes st; score := score st; highScore := highScore st;
       lastPipe := lastPipe st; frameCount := frameCount st |}.

(** [spawnPipe], as the updater it hands to [setPipes]. *)
Definition spawnPipe (cfg : Settings) (env : Env) (ps : list PipeData)
  : list PipeData :=
  let minHeight := 50 in
  let maxHeight := innerHeight env - gapSize cfg - minHeight in
  let height := random env * (maxHeight - minHeight) + minHeight in
  ps ++ [ {| pipe_id := now env;
             pipe_x := innerWidth env;
             pipe_height := height;
             showLogo := (0 <? length ps)%nat &&
                         (Nat.eqb ((length ps + 1) mod 7) 0) |} ].

(** The rectangles [checkCollision] builds. *)
Definition birdRect (birdPos : Q) : Rect :=
  {| left := 96; right := 144; top := birdPos; bottom := birdPos + 48 |}.

Definition topPipeRect (p : PipeData) : Rect :=
  {| left := pipe_x p; right := pipe_x p + 80; top := 0;
     bottom := pipe_height p |}.

Definition bottomPipeRect (cfg : Settings) (env : Env) (p : PipeData) : Rect :=
  {| left := pipe_x p; right := pipe_x p + 80;
     top := pipe_height p + gapSize cfg; bottom := innerHeight env |}.

(** The test [checkCollision] applies to one pipe pair: three comparisons
    per rectangle. *)
Definition hitsPipe (cfg : Settings) (env : Env) (birdPos : Q) (p : PipeData)
  : bool :=
  ((right (birdRect birdPos) >? left (topPipeRect p)) &&
   (left (birdRect birdPos) <? right (topPipeRect p)) &&
   (top (birdRect birdPos) <? bottom (topPipeRect p)))
  ||
  ((right (birdRect birdPos) >? left (bottomPipeRect cfg env p)) &&
   (left (birdRect birdPos) <? right (bottomPipeRect cfg env p)) &&
   (bottom (birdRect birdPos) >? top (bottomPipeRect cfg env p))).

(** [checkCollision]. *)
Definition checkCollision (cfg : Settings) (env : Env) (birdPos : Q)
  (ps : list PipeData) : bool :=
  existsb (hitsPipe cfg env birdPos) ps.

(** The pipe updater of the loop, first half: move every pair left and
    drop the pairs that are far off the left edge. *)
Definition movePipe (cfg : Settings) (p : PipeData) : PipeData :=
  {| pipe_id := pipe_id p; pipe_x := pipe_x p - pipeSpeed cfg;
     pipe_height := pipe_height p; showLogo := showLogo p |}.

Definition advancePipes (cfg : Settings) (ps : list PipeData) : list PipeData :=
  List.filter (fun p => pipe_x p >? - (100 # 1)) (map (movePipe cfg) ps).

(** The score trigger of one (already moved) pair. *)
Definition passesBird (cfg : Settings) (p : PipeData) : bool :=
  (pipe_x p + pipeSpeed cfg >=? 96) && (pipe_x p <? 96).

(** The [forEach] over the moved pairs, as one call of the [setPipes]
    updater runs it: each trigger queues [setScore (s => s + 1)], whose
    body raises the high score to the new score when that is larger. *)
Definition scorePipes (cfg : Settings) (newPipes : list PipeData)
  (s_hs : Z * Z) : Z * Z :=
  fold_left
    (fun (acc : Z * Z) p =>
       if passesBird cfg p
       then let newScore := (fst acc + 1)%Z in
            (newScore, Z.max (snd acc) newScore)
       else acc)
    newPipes s_hs.

(** One invocation of [gameLoop]: [st] is the state its closure captured,
    the result is the state after every queued updater has run.  The
    [setPipes] updater is the one updater whose repetition shows: it
    returns the same pairs each time React calls it, and queues its
    [setScore] calls afresh each time. *)
Definition gameLoop (cfg : Settings) (env : Env) (st : State) : State :=
  if negb (gameStarted st) || gameOver st then st else
  let frameCount' := (frameCount st + 1)%Z in
  (* setBirdPosition *)
  let newPos := birdPosition st + birdVelocity st in
  let outOfBounds := (newPos <? 0) || (newPos >? innerHeight env - 48) in
  let pos' := if outOfBounds then birdPosition st else newPos in
  (* setBirdVelocity, setBirdRotation *)
  let vel' := birdVelocity st + gravity cfg in
  let rot' := Num.min (birdRotation st + 3) 90 in
  (* setPipes *)
  let newPipes := advancePipes cfg (pipes st) in
  let s_hs := Nat.iter (updaterRuns (strictMode env))
                       (scorePipes cfg newPipes) (score st, highScore st) in
  (* spawn gate *)
  let spawn := (now env - lastPipe st >? pipeSpawnRate cfg) &&
               (frameCount' >? 60)%Z in
  let pipes' := if spawn then spawnPipe cfg env newPipes else newPipes in
  let lastPipe' := if spawn then now env else lastPipe st in
  (* collision, on the captured position and pipes *)
  let hit := checkCollision cfg env (birdPosition st) (pipes st) in
  {| gameStarted := gameStarted st;
     gameOver := outOfBounds || hit;
     scoreSubmitted := scoreSubmitted st;
     birdPosition := pos'; birdVelocity := vel'; birdRotation := rot';
     pipes := pipes'; score := fst s_hs; highScore := snd s_hs;
     lastPipe := lastPipe'; frameCount := frameCount' |}.

(** [n] consecutive frames, each with its own browser readings. *)
Fixpoint frames (cfg : Settings) (envs : list Env) (st : State) : State :=
  match envs with
  | [] => st
  | env :: envs' => frames cfg envs' (gameLoop cfg env st)
  end.

(** *** High-score submission *)

(** A row of [rgc_high_scores]. *)
Record HighScore := mkHighScore {
  user_id : Z;
  hs_score : Z;
  username : string
}.

(** [.order('score', { ascending: false })]: rows by descending score,
    rows of equal score in their stored order. *)
Fixpoint insertDesc (r : HighScore) (rows : list HighScore) : list HighScore :=
  match rows with
  | [] => [r]
  | r' :: rows' =>
      if (hs_score r' <? hs_score r)%Z then r :: r' :: rows'
      else r' :: insertDesc r rows'
  end.

Definition orderDesc (rows : list HighScore) : list HighScore :=
  fold_right insertDesc [] (rev rows).

(** [.limit(3)]. *)
Definition limit (n : nat) (rows : list HighScore) : list HighScore :=
  firstn n rows.

(** [Math.min(...xs)]; [None] stands for the [Infinity] of an empty
    argument list. *)
Definition Math_min (xs : list Z) : option Z :=
  match xs with
  | [] => None
  | a :: xs' => Some (fold_left Z.min xs' a)
  end.

(** [score <= Math.min(...)]. *)
Definition leMin (sc : Z) (m : option Z) : bool :=
  match m with
  | Some lowest => (sc <=? lowest)%Z
  | None => true
  end.

(** [.delete().eq('score', lowestScore)]: the store removes every row
    with that score when it carries the request out, and no row when it
    does not (the migration of [rgc_high_scores] enables row-level
    security with a SELECT and an INSERT policy only). *)
Definition deleteByScore (carriedOut : bool) (m : option Z)
  (rows : list HighScore) : list HighScore :=
  if carriedOut then
    match m with
    | Some lowest => List.filter (fun r => negb (hs_score r =? lowest)%Z) rows
    | None => rows
    end
  else rows.

(** [.insert({ user_id, score, username })]. *)
Definition insertRow (carriedOut : bool) (r : HighScore)
  (rows : list HighScore) : list HighScore :=
  if carriedOut then rows ++ [r] else rows.

(** What the collaborators answer during one submission: whether the
    first [select] returns rows, the identity [signUp]/[getUser] provide
    ([None]: sign-up failed or no user came back), whether the store
    carries out the [delete] and the [insert], and whether the second
    [select] returns rows. *)
Record Backend := mkBackend {
  fetchOk : bool;
  identity : option Z;
  deleteOk : bool;
  insertOk : bool;
  refreshOk : bool
}.

(** What one call of [saveHighScore] leaves behind. *)
Record Submission := mkSubmission {
  store : list HighScore;
  alerted : bool;
  submitted : bool;
  leaderboard : option (list HighScore)
}.

Definition unchanged (rows : list HighScore) (alert : bool) : Submission :=
  {| store := rows; alerted := alert; submitted := false;
     leaderboard := None |}.

(** [saveHighScore], with the name typed into the game-over form.  The
    results of the [delete] and of the [insert] are not looked at:
    [setScoreSubmitted(true)] follows in any case, and the board shows
    [newScores || []]. *)
Definition saveHighScore (be : Backend) (name : string)
  (rows : list HighScore) (sc : Z) : Submission :=
  if String.eqb name EmptyString then unchanged rows false else
  if negb (fetchOk be) then unchanged rows false else
  let scores := map hs_score (orderDesc rows) in
  if (3 <=? length scores)%nat && leMin sc (Math_min scores)
  then unchanged rows true
  else
    match identity be with
    | None => unchanged rows false
    | Some uid =>
        let rows1 :=
          if (3 <=? length scores)%nat
          then deleteByScore (deleteOk be) (Math_min scores) rows
          else rows in
        let rows2 :=
          insertRow (insertOk be)
            {| user_id := uid; hs_score := sc; username := name |} rows1 in
        {| store := rows2; alerted := false; submitted := true;
           leaderboard :=
             Some (if refreshOk be then limit 3 (orderDesc rows2) else []) |}
    end.

End FlappyBird.

(** ** The lane-crossing game (crossy-road/Game.tsx and its classes) *)

Module CrossyRoad.

Record Settings := mkSettings {
  characterSize : Q;
  characterColor : string;
  carSize : Q;
  carColor : string;
  baseCarSpeed : Q;
  maxCarSpeed : Q;
  carSpawnRate : Q;
  levelSpeedIncrease : Q;
  levelSpawnIncrease : Q
}.

Definition DEFAULT_SETTINGS : Settings :=
  {| characterSize := 30; characterColor := "#fde047";
     carSize := 40; carColor := "#ef4444";
     baseCarSpeed := 2; maxCarSpeed := 10;
     carSpawnRate := 2 # 100;
     levelSpeedIncrease := 5 # 100; levelSpawnIncrease := 1 # 10 |}.

(** The canvas element ([canvasRef.current]), the window and the clock
    ([performance.now()]). *)
Record Canvas := mkCanvas { width : Q; height : Q }.

Record Env := mkEnv {
  canvas : option Canvas;
  innerWidth : Q;
  now : Q
}.

(** *** class Character *)

Record Character := mkCharacter {
  char_x : Q;
  char_y : Q;
  char_size : Q;
  char_color : string;
  isAlive : bool
}.

(** [new Character(x, y, settings)]. *)
Definition newCharacter (x y : Q) (cfg : Settings) : Character :=
  {| char_x := x; char_y := y; char_size := characterSize cfg;
     char_color := characterColor cfg; isAlive := true |}.

(** [Character.move]. *)
Definition move (c : Character) (dx dy gameWidth gameHeight : Q) : Character :=
  let newX := char_x c + dx * char_size c in
  let newY := char_y c + dy * char_size c in
  let x' := if (newX >=? 0) && (newX + char_size c <=? gameWidth)
            then newX else char_x c in
  let y' := if (newY >=? 0) && (newY + char_size c <=? gameHeight)
            then newY else char_y c in
  {| char_x := x'; char_y := y'; char_size := char_size c;
     char_color := char_color c; isAlive := isAlive c |}.

(** *** class Obstacle *)

Inductive ObstacleType := rock | tree.

Record Obstacle := mkObstacle {
  obs_x : Q;
  obs_y : Q;
  obs_size : Q;
  obs_type : ObstacleType
}.

(** *** class Car *)

Record Car := mkCar {
  car_x : Q;
  car_y : Q;
  car_width : Q;
  car_height : Q;
  speed : Q;
  direction : Q;
  car_color : string
}.

(** [new Car(y, speed, direction, settings)]. *)
Definition newCar (env : Env) (y sp dir : Q) (cfg : Settings) : Car :=
  {| car_y := y;
     car_x := if dir >? 0 then - carSize cfg else innerWidth env;
     speed := sp; direction := dir;
     car_width := carSize cfg; car_height := carSize cfg / 2;
     car_color := carColor cfg |}.

(** [Car.update]. *)
Definition update (c : Car) : Car :=
  {| car_x := car_x c + speed c * direction c; car_y := car_y c;
     car_width := car_width c; car_height := car_height c;
     speed := speed c; direction := direction c; car_color := car_color c |}.

(** [Car.isOffScreen]. *)
Definition isOffScreen (env : Env) (c : Car) : bool :=
  if direction c >? 0 then car_x c >? innerWidth env
  else car_x c + car_width c <? 0.

(** *** The game component *)

Record State := mkState {
  score : Z;
  level : Z;
  gameOver : bool;
  character : option Character;
  cars : list Car;
  obstacles : list Obstacle;
  lastSpawnTime : Q
}.

(** The overlap test of [moveCharacter] for one obstacle, on the position
    the request would lead to. *)
Definition blocks (c : Character) (newX newY : Q) (o : Obstacle) : bool :=
  (newX <? obs_x o + obs_size o) &&
  (newX + char_size c >? obs_x o) &&
  (newY <? obs_y o + obs_size o) &&
  (newY + char_size c >? obs_y o).

Definition willCollide (c : Character) (dx dy : Q) (obs : list Obstacle) : bool :=
  let newX := char_x c + dx * char_size c in
  let newY := char_y c + dy * char_size c in
  existsb (blocks c newX newY) obs.

(** [moveCharacter]. [Character.move] mutates the object the state holds,
    so its effect is in the resulting state whether or not [setCharacter]
    is called afterwards. *)
Definition moveCharacter (cfg : Settings) (env : Env) (dx dy : Q) (st : State)
  : State :=
  match character st, canvas env with
  | Some c, Some cv =>
      if gameOver st then st else
      let oldY := char_y c in
      let c1 := if willCollide c dx dy (obstacles st) then c
                else move c dx dy (width cv) (height cv) in
      if (dy <? 0) && (oldY >? 50) && (char_y c1 <=? 50) then
        {| score := (score st + 100)%Z; level := (level st + 1)%Z;
           gameOver := gameOver st;
           character :=
             Some (newCharacter (char_x c1)
                     (height cv - characterSize cfg - 10) cfg);
           cars := cars st; obstacles := obstacles st;
           lastSpawnTime := lastSpawnTime st |}
      else if (dy <? 0) && (char_y c1 >? 50) then
        {| score := (score st + 10)%Z; level := level st;
           gameOver := gameOver st;
           character := Some (newCharacter (char_x c1) (char_y c1) cfg);
           cars := cars st; obstacles := obstacles st;
           lastSpawnTime := lastSpawnTime st |}
      else
        {| score := score st; level := level st; gameOver := gameOver st;
           character := Some c1;
           cars := cars st; obstacles := obstacles st;
           lastSpawnTime := lastSpawnTime st |}
  | _, _ => st
  end.

(** A sequence of move requests, as [Controls] delivers them. *)
Fixpoint moves (cfg : Settings) (env : Env) (reqs : list (Q * Q)) (st : State)
  : State :=
  match reqs with
  | [] => st
  | (dx, dy) :: reqs' => moves cfg env reqs' (moveCharacter cfg env dx dy st)
  end.

(** [generateObstacles]: two or three obstacles of side 40 in every lane,
    at random abscissas. *)
Fixpoint laneObstacles (w y : Q) (n : nat) (acc : list Obstacle)
  : Rand.M (list Obstacle) :=
  match n with
  | O => Rand.ret acc
  | S n' =>
      Rand.bind Rand.random (fun r =>
      let x := r * (w - 40) in
      Rand.bind Rand.random (fun r' =>
      let type := if r' <? 5 # 10 then rock else tree in
      laneObstacles w y n' (acc ++ [mkObstacle x y 40 type])))
  end.

Fixpoint lanesFrom (w : Q) (lane : Z) (todo : nat) (acc : list Obstacle)
  : Rand.M (list Obstacle) :=
  match todo with
  | O => Rand.ret acc
  | S todo' =>
      let y := 50 + Num.ofZ lane * 60 in
      Rand.bind Rand.random (fun r =>
      let numObstacles := (2 + Num.floor (r * 2))%Z in
      Rand.bind (laneObstacles w y (Z.to_nat numObstacles) acc) (fun acc' =>
      lanesFrom w (lane + 1) todo' acc'))
  end.

Definition generateObstacles (w h : Q) : Rand.M (list Obstacle) :=
  let laneHeight := 60 in
  let numLanes := Num.floor ((h - 100) / laneHeight) in
  lanesFrom w 0 (Z.to_nat numLanes) [].


(** *** Spawning cars *)

#[local] Open Scope rand_scope.

(** The [do ... while (usedLanes.has(lane))] loop: draw lanes until one
    comes up that is not in use.  It ends when the oracle produces a free
    lane and is undefined when the oracle runs dry first. *)
Fixpoint pickLane (numLanes : Z) (usedLanes : gset Z) (rs : list Q)
  : option (Z * list Q) :=
  match rs with
  | [] => None
  | r :: rs' =>
      let lane := Num.floor (r * Num.ofZ numLanes) in
      if decide (lane ∈ usedLanes) then pickLane numLanes usedLanes rs'
      else Some (lane, rs')
  end.

(** The body of the [for] loop, [n] iterations to go. *)
Fixpoint spawnLoop (cfg : Settings) (env : Env) (lvl numLanes : Z) (n : nat)
  (usedLanes : gset Z) (newCars : list Car) : Rand.M (list Car) :=
  match n with
  | O => Rand.ret newCars
  | S n' =>
      draw lane := pickLane numLanes usedLanes in
      let laneHeight := 60 in
      let y := 50 + Num.ofZ lane * laneHeight + laneHeight / 4 in
      draw r := Rand.random in
      let dir := if r <? 5 # 10 then 1 else - (1 # 1) in
      draw r' := Rand.random in
      let baseSpeed := baseCarSpeed cfg + r' * 3 in
      let levelMultiplier := 1 + Num.ofZ lvl * levelSpeedIncrease cfg in
      let sp := Num.min (baseSpeed * levelMultiplier) (maxCarSpeed cfg) in
      spawnLoop cfg env lvl numLanes n' ({[lane]} ∪ usedLanes)
        (newCars ++ [newCar env y sp dir cfg])
  end.

(** [Math.random() < totalSpawnChance ?
     Math.ceil(Math.random() * maxCarsToSpawn) : 1]. *)
Definition carsToSpawn (totalSpawnChance : Q) (maxCarsToSpawn : Z) : Rand.M Z :=
  draw r := Rand.random in
  if r <? totalSpawnChance then
    draw r' := Rand.random in
    Rand.ret (Num.ceil (r' * Num.ofZ maxCarsToSpawn))
  else Rand.ret 1%Z.

Definition spawnInterval (cfg : Settings) (lvl : Z) : Q :=
  1500 / (1 + Num.ofZ lvl * levelSpawnIncrease cfg).

Definition totalSpawnChance (cfg : Settings) (lvl : Z) : Q :=
  let baseSpawnChance :=
    carSpawnRate cfg * (1 + Num.ofZ lvl * levelSpawnIncrease cfg) in
  let bonusSpawnChance :=
    Num.ofZ (Num.floor (Num.ofZ lvl / 5)) * (1 # 100) in
  Num.min (baseSpawnChance + bonusSpawnChance) (2 # 10).

Definition maxCarsToSpawn (lvl : Z) : Z :=
  Z.min (1 + Num.floor (Num.ofZ lvl / 3)) 3.

Definition numLanes (cv : Canvas) : Z :=
  Num.floor ((height cv - 100) / 60).

(** Whether the cooldown since the last spawn has run out. *)
Definition cooldownElapsed (cfg : Settings) (env : Env) (st : State) : bool :=
  negb (now env - lastSpawnTime st <? spawnInterval cfg (level st)).

(** [spawnCar]. *)
Definition spawnCar (cfg : Settings) (env : Env) (st : State) : Rand.M State :=
  match canvas env with
  | None => Rand.ret st
  | Some cv =>
      if now env - lastSpawnTime st <? spawnInterval cfg (level st)
      then Rand.ret st
      else
        draw n := carsToSpawn (totalSpawnChance cfg (level st))
                    (maxCarsToSpawn (level st)) in
        draw newCars := spawnLoop cfg env (level st) (numLanes cv)
                          (Z.to_nat n) ∅ [] in
        Rand.ret
          {| score := score st; level := level st; gameOver := gameOver st;
             character := character st;
             cars := cars st ++ newCars; obstacles := obstacles st;
             lastSpawnTime := now env |}
  end.

(** *** Collisions and the frame loop *)

Definition charBox (c : Character) : Geometry.Rect :=
  {| Geometry.left := char_x c; Geometry.right := char_x c + char_size c;
     Geometry.top := char_y c; Geometry.bottom := char_y c + char_size c |}.

Definition carBox (c : Car) : Geometry.Rect :=
  {| Geometry.left := car_x c; Geometry.right := car_x c + car_width c;
     Geometry.top := car_y c; Geometry.bottom := car_y c + car_height c |}.

(** The condition of the [if] in [checkCollisions], for one car. *)
Definition hitsCar (ch : Character) (c : Car) : bool :=
  isAlive ch &&
  (Geometry.right (charBox ch) >? Geometry.left (carBox c)) &&
  (Geometry.left (charBox ch) <? Geometry.right (carBox c)) &&
  (Geometry.bottom (charBox ch) >? Geometry.top (carBox c)) &&
  (Geometry.top (charBox ch) <? Geometry.bottom (carBox c)).

(** [checkCollisions]: the answer, and the character it leaves. *)
Definition checkCollisions (ch : Character) (cs : list Car) : bool * Character :=
  if existsb (hitsCar ch) cs
  then (true, {| char_x := char_x ch; char_y := char_y ch;
                 char_size := char_size ch; char_color := char_color ch;
                 isAlive := false |})
  else (false, ch).

(** One invocation of [gameLoop]; drawing is left out.  [car.update()]
    mutates the car objects of the captured array, so [checkCollisions]
    sees every captured car at its new position. *)
Definition gameLoop (cfg : Settings) (env : Env) (st : State) : Rand.M State :=
  match canvas env, character st with
  | Some cv, Some ch =>
      if gameOver st then Rand.ret st else
      let moved := map update (cars st) in
      let updatedCars := List.filter (fun c => negb (isOffScreen env c)) moved in
      draw st' := spawnCar cfg env
                    {| score := score st; level := level st;
                       gameOver := gameOver st; character := character st;
                       cars := updatedCars; obstacles := obstacles st;
                       lastSpawnTime := lastSpawnTime st |} in
      let (hit, ch') := checkCollisions ch moved in
      Rand.ret
        {| score := score st'; level := level st';
           gameOver := if hit then true else gameOver st';
           character := Some ch';
           cars := cars st'; obstacles := obstacles st';
           lastSpawnTime := lastSpawnTime st' |}
  | _, _ => Rand.ret st
  end.

End CrossyRoad.

(** ** Predicates the properties are stated with *)

Module Spec.

(** The bird lies inside the field: [0 <= position <= fieldHeight - 48]. *)
Definition birdInField (env : FlappyBird.Env) (pos : Q) : Prop :=
  0 <= pos <= FlappyBird.innerHeight env - 48.

(** What a pipe pair must satisfy: both segments at the same abscissa, an
    opening of exactly [gapSize] between them, and both segments at least
    50 pixels long (the lower one is drawn [fieldHeight - height - gapSize]
    pixels high). *)
Definition pairOk (cfg : FlappyBird.Settings) (env : FlappyBird.Env)
  (p : FlappyBird.PipeData) : Prop :=
  Geometry.left (FlappyBird.topPipeRect p) =
    Geometry.left (FlappyBird.bottomPipeRect cfg env p) /\
  Geometry.top (FlappyBird.bottomPipeRect cfg env p) -
    Geometry.bottom (FlappyBird.topPipeRect p) == FlappyBird.gapSize cfg /\
  50 <= FlappyBird.pipe_height p /\
  50 <= FlappyBird.innerHeight env - FlappyBird.pipe_height p
        - FlappyBird.gapSize cfg.

(** A frame's browser readings fit a field of the height of [env] and are
    ones [Math.random] can produce. *)
Definition sameField (env e : FlappyBird.Env) : Prop :=
  FlappyBird.innerHeight e = FlappyBird.innerHeight env /\
  0 <= FlappyBird.random e /\ FlappyBird.random e < 1.

(** The pair [p] of the captured list scores in the frame that starts now:
    once moved it is kept and passes the score trigger. *)
Definition scoresNow (cfg : FlappyBird.Settings) (p : FlappyBird.PipeData)
  : bool :=
  (FlappyBird.pipe_x (FlappyBird.movePipe cfg p) >? - (100 # 1)) &&
  FlappyBird.passesBird cfg (FlappyBird.movePipe cfg p).

(** The pair [p] after [k] frames of movement. *)
Fixpoint pipeAfter (cfg : FlappyBird.Settings) (k : nat)
  (p : FlappyBird.PipeData) : FlappyBird.PipeData :=
  match k with
  | O => p
  | S k' => pipeAfter cfg k' (FlappyBird.movePipe cfg p)
  end.

(** How many of the first [n] frames score for the pair [p]. *)
Fixpoint timesScored (cfg : FlappyBird.Settings) (n : nat)
  (p : FlappyBird.PipeData) : nat :=
  match n with
  | O => O
  | S n' => (if scoresNow cfg p then 1 else 0)
            + timesScored cfg n' (FlappyBird.movePipe cfg p)
  end.

(** The points the pairs of [ps] earn over the next [n] frames, each
    crossing counted once. *)
Fixpoint owed (cfg : FlappyBird.Settings) (n : nat)
  (ps : list FlappyBird.PipeData) : nat :=
  match ps with
  | [] => O
  | p :: ps' => timesScored cfg n p + owed cfg n ps'
  end.

(** The loop is running when each of the frames [envs] starts. *)
Fixpoint runsThrough (cfg : FlappyBird.Settings) (envs : list FlappyBird.Env)
  (st : FlappyBird.State) : bool :=
  match envs with
  | [] => true
  | e :: envs' =>
      FlappyBird.gameStarted st && negb (FlappyBird.gameOver st) &&
      runsThrough cfg envs' (FlappyBird.gameLoop cfg e st)
  end.

(** The pairs a frame stores beyond the moved ones: what it spawned. *)
Definition spawned (cfg : FlappyBird.Settings) (e : FlappyBird.Env)
  (st : FlappyBird.State) : list FlappyBird.PipeData :=
  skipn (length (FlappyBird.advancePipes cfg (FlappyBird.pipes st)))
        (FlappyBird.pipes (FlappyBird.gameLoop cfg e st)).

(** The points the pairs spawned during the frames [envs] earn in the
    frames that remain after their spawn. *)
Fixpoint spawnedOwed (cfg : FlappyBird.Settings) (envs : list FlappyBird.Env)
  (st : FlappyBird.State) : nat :=
  match envs with
  | [] => O
  | e :: envs' =>
      owed cfg (length envs') (spawned cfg e st)
      + spawnedOwed cfg envs' (FlappyBird.gameLoop cfg e st)
  end.

(** The character's box lies inside the canvas. *)
Definition inBounds (cv : CrossyRoad.Canvas) (c : CrossyRoad.Character) : Prop :=
  0 <= CrossyRoad.char_x c /\
  CrossyRoad.char_x c + CrossyRoad.char_size c <= CrossyRoad.width cv /\
  0 <= CrossyRoad.char_y c /\
  CrossyRoad.char_y c + CrossyRoad.char_size c <= CrossyRoad.height cv.

(** The state's character, if there is one, has the configured size and
    lies inside the canvas. *)
Definition characterInBounds (cfg : CrossyRoad.Settings)
  (cv : CrossyRoad.Canvas) (st : CrossyRoad.State) : Prop :=
  match CrossyRoad.character st with
  | Some c => CrossyRoad.char_size c = CrossyRoad.characterSize cfg /\
              inBounds cv c
  | None => True
  end.

(** The character a request leaves behind once the obstacle test has been
    made: moved by [Character.move] unless an obstacle blocks. *)
Definition afterTest (cv : CrossyRoad.Canvas) (c : CrossyRoad.Character)
  (dx dy : Q) (obs : list CrossyRoad.Obstacle) : CrossyRoad.Character :=
  if CrossyRoad.willCollide c dx dy obs then c
  else CrossyRoad.move c dx dy (CrossyRoad.width cv) (CrossyRoad.height cv).

(** The state's character, if there is one, has the configured size and
    has not reached the finish line. *)
Definition belowFinish (cfg : CrossyRoad.Settings) (st : CrossyRoad.State)
  : Prop :=
  match CrossyRoad.character st with
  | Some c => CrossyRoad.char_size c = CrossyRoad.characterSize cfg /\
              50 < CrossyRoad.char_y c
  | None => True
  end.

(** The ordinate of a car spawned in lane [lane]. *)
Definition laneY (lane : Z) : Q := 50 + Num.ofZ lane * 60 + 60 / 4.

(** An oracle none of whose values is the zero [Math.random] may
    return. *)
Definition positiveRolls (rs : list Q) : Prop :=
  Forall (fun r => 0 < r /\ r < 1) rs.

(** A sequence of calls of [Character.move] on one field. *)
Definition moveAll (gameWidth gameHeight : Q) (reqs : list (Q * Q))
  (c : CrossyRoad.Character) : CrossyRoad.Character :=
  fold_left (fun c r => CrossyRoad.move c (fst r) (snd r) gameWidth gameHeight)
    reqs c.

End Spec.

(** ** The scenarios of the specification *)

Module Scenarios.

(** Scenario C: a running bird at 300, at rest, under gravity 0.6. *)
Definition envC : FlappyBird.Env :=
  {| FlappyBird.innerWidth := 1000; FlappyBird.innerHeight := 800;
     FlappyBird.now := 0; FlappyBird.random := 1 # 2;
     FlappyBird.strictMode := false |}.

Definition birdC : FlappyBird.State :=
  {| FlappyBird.gameStarted := true; FlappyBird.gameOver := false;
     FlappyBird.scoreSubmitted := false;
     FlappyBird.birdPosition := 300; FlappyBird.birdVelocity := 0;
     FlappyBird.birdRotation := 0; FlappyBird.pipes := [];
     FlappyBird.score := 0%Z; FlappyBird.highScore := 0%Z;
     FlappyBird.lastPipe := 0; FlappyBird.frameCount := 0%Z |}.

(** Scenario D: a bird at 2 rising by 7 a frame, so that integration gives
    -5. *)
Definition birdD : FlappyBird.State :=
  {| FlappyBird.gameStarted := true; FlappyBird.gameOver := false;
     FlappyBird.scoreSubmitted := false;
     FlappyBird.birdPosition := 2; FlappyBird.birdVelocity := - (7 # 1);
     FlappyBird.birdRotation := 0; FlappyBird.pipes := [];
     FlappyBird.score := 0%Z; FlappyBird.highScore := 0%Z;
     FlappyBird.lastPipe := 0; FlappyBird.frameCount := 0%Z |}.

(** A window only 300 pixels high, the bird at its start position 300 and
    one pipe pair at the bird's abscissa. *)
Definition envLow : FlappyBird.Env :=
  {| FlappyBird.innerWidth := 1000; FlappyBird.innerHeight := 300;
     FlappyBird.now := 0; FlappyBird.random := 1 # 2;
     FlappyBird.strictMode := false |}.

Definition pipeLow : FlappyBird.PipeData :=
  {| FlappyBird.pipe_id := 1; FlappyBird.pipe_x := 100;
     FlappyBird.pipe_height := 40; FlappyBird.showLogo := false |}.

(** A running game past its sixtieth frame, and a clock reading later
    than the spawn interval: the next frame spawns a pair. *)
Definition envSpawn : FlappyBird.Env :=
  {| FlappyBird.innerWidth := 1000; FlappyBird.innerHeight := 800;
     FlappyBird.now := 2000; FlappyBird.random := 1 # 2;
     FlappyBird.strictMode := false |}.

Definition birdReady : FlappyBird.State :=
  {| FlappyBird.gameStarted := true; FlappyBird.gameOver := false;
     FlappyBird.scoreSubmitted := false;
     FlappyBird.birdPosition := 300; FlappyBird.birdVelocity := 0;
     FlappyBird.birdRotation := 0; FlappyBird.pipes := [];
     FlappyBird.score := 0%Z; FlappyBird.highScore := 0%Z;
     FlappyBird.lastPipe := 0; FlappyBird.frameCount := 60%Z |}.

(** A pair about to pass the bird's slot at the default speed 3. *)
Definition pipeAt97 : FlappyBird.PipeData :=
  {| FlappyBird.pipe_id := 1; FlappyBird.pipe_x := 97;
     FlappyBird.pipe_height := 200; FlappyBird.showLogo := false |}.

Definition birdAtPipe : FlappyBird.State :=
  {| FlappyBird.gameStarted := true; FlappyBird.gameOver := false;
     FlappyBird.scoreSubmitted := false;
     FlappyBird.birdPosition := 300; FlappyBird.birdVelocity := 0;
     FlappyBird.birdRotation := 0; FlappyBird.pipes := [pipeAt97];
     FlappyBird.score := 0%Z; FlappyBird.highScore := 0%Z;
     FlappyBird.lastPipe := 0; FlappyBird.frameCount := 100%Z |}.

(** The readings of scenario C in a development build. *)
Definition envDev : FlappyBird.Env :=
  {| FlappyBird.innerWidth := 1000; FlappyBird.innerHeight := 800;
     FlappyBird.now := 0; FlappyBird.random := 1 # 2;
     FlappyBird.strictMode := true |}.

(** Scenarios E and F: a leaderboard holding 50, 40 and 30. *)
Definition board : list FlappyBird.HighScore :=
  [ FlappyBird.mkHighScore 1 50 "ann"; FlappyBird.mkHighScore 2 40 "bob";
    FlappyBird.mkHighScore 3 30 "cyd" ].

Definition backendOk : FlappyBird.Backend :=
  {| FlappyBird.fetchOk := true; FlappyBird.identity := Some 4%Z;
     FlappyBird.deleteOk := true; FlappyBird.insertOk := true;
     FlappyBird.refreshOk := true |}.


(** A store that answers every request but carries out no delete. *)
Definition backendNoDelete : FlappyBird.Backend :=
  {| FlappyBird.fetchOk := true; FlappyBird.identity := Some 4%Z;
     FlappyBird.deleteOk := false; FlappyBird.insertOk := true;
     FlappyBird.refreshOk := true |}.

(** Scenario A: the character at (100,100) with an obstacle of side 30 at
    (100,100), on an 800 by 600 canvas. *)
Definition field : CrossyRoad.Env :=
  {| CrossyRoad.canvas := Some (CrossyRoad.mkCanvas 800 600);
     CrossyRoad.innerWidth := 800; CrossyRoad.now := 5000 |}.

Definition sceneWith (x y : Q) (obs : list CrossyRoad.Obstacle) (lvl : Z)
  : CrossyRoad.State :=
  {| CrossyRoad.score := 0%Z; CrossyRoad.level := lvl;
     CrossyRoad.gameOver := false;
     CrossyRoad.character :=
       Some (CrossyRoad.newCharacter x y CrossyRoad.DEFAULT_SETTINGS);
     CrossyRoad.cars := []; CrossyRoad.obstacles := obs;
     CrossyRoad.lastSpawnTime := 0 |}.

(** A fresh game on the start row, the cooldown long over. *)
Definition sceneStart : CrossyRoad.State := sceneWith 385 560 [] 1.

Definition sceneA : CrossyRoad.State :=
  sceneWith 100 100 [CrossyRoad.mkObstacle 100 100 30 CrossyRoad.rock] 1.

(** The same character with the obstacle on the square the request leads
    to. *)
Definition sceneBlocked : CrossyRoad.State :=
  sceneWith 100 100 [CrossyRoad.mkObstacle 100 70 30 CrossyRoad.rock] 1.

(** Scenario B: the character one step below the finish line. *)
Definition sceneB : CrossyRoad.State := sceneWith 100 60 [] 1.

End Scenarios.

(** ** Input and whole sessions *)

(** [Controls]: the request a key press produces.  The four on-screen
    buttons call [onMove] with the same four vectors. *)
Module Controls.

Definition handleKeyDown (key : string) : option (Q * Q) :=
  if String.eqb key "ArrowUp" then Some (0, - (1 # 1))
  else if String.eqb key "ArrowDown" then Some (0, 1)
  else if String.eqb key "ArrowLeft" then Some (- (1 # 1), 0)
  else if String.eqb key "ArrowRight" then Some (1, 0)
  else None.

(** A key press in the lane-crossing game: [onMove] is [moveCharacter]. *)
Definition press (cfg : CrossyRoad.Settings) (env : CrossyRoad.Env)
  (key : string) (st : CrossyRoad.State) : CrossyRoad.State :=
  match handleKeyDown key with
  | Some (dx, dy) => CrossyRoad.moveCharacter cfg env dx dy st
  | None => st
  end.

End Controls.

(** A session of the pipe game: frames and jumps in any order. *)
Module FlappySession.

Inductive Input :=
| Tick (env : FlappyBird.Env)
| Jump.

Definition step (cfg : FlappyBird.Settings) (i : Input) (st : FlappyBird.State)
  : FlappyBird.State :=
  match i with
  | Tick env => FlappyBird.gameLoop cfg env st
  | Jump => FlappyBird.jump cfg st
  end.

Fixpoint run (cfg : FlappyBird.Settings) (inputs : list Input)
  (st : FlappyBird.State) : FlappyBird.State :=
  match inputs with
  | [] => st
  | i :: inputs' => run cfg inputs' (step cfg i st)
  end.

(** Every frame of the session sees a window of the height of [env]. *)
Definition sameHeight (env : FlappyBird.Env) (i : Input) : Prop :=
  match i with
  | Tick e => FlappyBird.innerHeight e = FlappyBird.innerHeight env
  | Jump => True
  end.

(** A pair leaves the bird alone when it is wholly right or wholly left
    of the bird's slot, or when the bird is inside its opening. *)
Definition clearOf (cfg : FlappyBird.Settings) (birdPos : Q)
  (p : FlappyBird.PipeData) : Prop :=
  144 <= FlappyBird.pipe_x p \/ FlappyBird.pipe_x p + 80 <= 96 \/
  (FlappyBird.pipe_height p <= birdPos /\
   birdPos + 48 <= FlappyBird.pipe_height p + FlappyBird.gapSize cfg).

(** One call of [saveHighScore] after another, each with its own
    collaborators, name and score, on the rows the previous call left. *)
Record Attempt := mkAttempt {
  backend : FlappyBird.Backend;
  player : string;
  points : Z
}.

Definition submit (rows : list FlappyBird.HighScore) (a : Attempt)
  : list FlappyBird.HighScore :=
  FlappyBird.store
    (FlappyBird.saveHighScore (backend a) (player a) rows (points a)).

Definition submitAll (attempts : list Attempt)
  (rows : list FlappyBird.HighScore) : list FlappyBird.HighScore :=
  fold_left submit attempts rows.

End FlappySession.

(** A session of the lane-crossing game on one canvas: frames (each at
    its clock reading) and move requests in any order. *)
Module CrossySession.

Inductive Event :=
| Frame (t : Q)
| Request (dx dy : Q).

(** The environment of the session at clock reading [t]. *)
Definition at_time (env : CrossyRoad.Env) (t : Q) : CrossyRoad.Env :=
  {| CrossyRoad.canvas := CrossyRoad.canvas env;
     CrossyRoad.innerWidth := CrossyRoad.innerWidth env;
     CrossyRoad.now := t |}.

Definition step (cfg : CrossyRoad.Settings) (env : CrossyRoad.Env)
  (e : Event) (st : CrossyRoad.State) : Rand.M CrossyRoad.State :=
  match e with
  | Frame t => CrossyRoad.gameLoop cfg (at_time env t) st
  | Request dx dy => Rand.ret (CrossyRoad.moveCharacter cfg env dx dy st)
  end.

Fixpoint play (cfg : CrossyRoad.Settings) (env : CrossyRoad.Env)
  (events : list Event) (st : CrossyRoad.State) : Rand.M CrossyRoad.State :=
  match events with
  | [] => Rand.ret st
  | e :: events' =>
      Rand.bind (step cfg env e st) (fun st' => play cfg env events' st')
  end.

(** An oracle that only holds values [Math.random] can return. *)
Definition validRolls (rs : list Q) : Prop :=
  Forall (fun r => 0 <= r /\ r < 1) rs.

(** No car of the state has left the field. *)
Definition carsOnScreen (env : CrossyRoad.Env) (st : CrossyRoad.State) : Prop :=
  Forall (fun c => CrossyRoad.isOffScreen env c = false) (CrossyRoad.cars st).

(** What [spawnCar] promises of a car: it stands at the edge it enters
    from, drives no faster than the configured maximum, left or right, in
    one of the [n] lanes. *)
Definition freshCar (cfg : CrossyRoad.Settings) (env : CrossyRoad.Env)
  (n : Z) (c : CrossyRoad.Car) : Prop :=
  (CrossyRoad.direction c = 1 /\
   CrossyRoad.car_x c = - CrossyRoad.carSize cfg \/
   CrossyRoad.direction c = - (1 # 1) /\
   CrossyRoad.car_x c = CrossyRoad.innerWidth env) /\
  CrossyRoad.speed c <= CrossyRoad.maxCarSpeed cfg /\
  CrossyRoad.car_width c = CrossyRoad.carSize cfg /\
  exists lane, (0 <= lane < n)%Z /\ CrossyRoad.car_y c = Spec.laneY lane.

(** What [generateObstacles] promises of an obstacle on a field [w] wide
    with [n] lanes: side 40, on the top row of a lane, inside the width. *)
Definition placed (w : Q) (n : Z) (o : CrossyRoad.Obstacle) : Prop :=
  CrossyRoad.obs_size o = 40 /\
  0 <= CrossyRoad.obs_x o /\ CrossyRoad.obs_x o + 40 <= w /\
  exists lane, (0 <= lane < n)%Z /\
               CrossyRoad.obs_y o = 50 + Num.ofZ lane * 60.

End CrossySession.

(** * Properties *)

(** ** Comparisons on numbers *)

Lemma Qeq_refl_eq (p q : Q) : p = q -> p == q.
Proof. intros ->. reflexivity. Qed.

Section NumFacts.

Variables a b : Q.

Lemma ltb_true_iff : (a <? b) = true <-> a < b.
Proof. unfold Num.ltb, Qlt. apply Z.ltb_lt. Qed.

Lemma ltb_false_iff : (a <? b) = false <-> b <= a.
Proof. unfold Num.ltb, Qle. rewrite Z.ltb_ge. reflexivity. Qed.

Lemma leb_true_iff : (a <=? b) = true <-> a <= b.
Proof. unfold Num.leb. apply Qle_bool_iff. Qed.

Lemma leb_false_iff : (a <=? b) = false <-> b < a.
Proof.
  unfold Num.leb. split; intros H.
  - apply Qnot_le_lt. intros Hle. apply Qle_bool_iff in Hle. congruence.
  - destruct (Qle_bool a b) eqn:E; [|reflexivity].
    apply Qle_bool_iff in E. lra.
Qed.

Lemma min_le_l : Num.min a b <= a.
Proof.
  unfold Num.min. destruct (a <=? b) eqn:E.
  - lra.
  - apply leb_false_iff in E. lra.
Qed.

Lemma min_le_r : Num.min a b <= b.
Proof.
  unfold Num.min. destruct (a <=? b) eqn:E.
  - apply leb_true_iff in E. lra.
  - lra.
Qed.

End NumFacts.

(** Turn every comparison the source makes into the order relation it
    decides, branch by branch. *)
Ltac cmp_cases :=
  unfold Num.gtb, Num.geb in *;
  repeat match goal with
  | H : context [Num.ltb ?x ?y] |- _ =>
      let E := fresh "E" in
      destruct (Num.ltb x y) eqn:E;
      [apply ltb_true_iff in E | apply ltb_false_iff in E]
  | |- context [Num.ltb ?x ?y] =>
      let E := fresh "E" in
      destruct (Num.ltb x y) eqn:E;
      [apply ltb_true_iff in E | apply ltb_false_iff in E]
  | H : context [Num.leb ?x ?y] |- _ =>
      let E := fresh "E" in
      destruct (Num.leb x y) eqn:E;
      [apply leb_true_iff in E | apply leb_false_iff in E]
  | |- context [Num.leb ?x ?y] =>
      let E := fresh "E" in
      destruct (Num.leb x y) eqn:E;
      [apply leb_true_iff in E | apply leb_false_iff in E]
  end.

(** ** The pipe-navigation game *)

Section FlappyFrame.

Import FlappyBird.

Variable cfg : Settings.
Variable env : Env.

(** Resetting twice is resetting once. *)
Lemma resetGame_idempotent (st : State) :
  resetGame (resetGame st) = resetGame st.
Proof. reflexivity. Qed.

(** A jump after game-over changes nothing. *)
Lemma jump_after_gameOver (st : State) :
  gameStarted st = true -> gameOver st = true -> jump cfg st = st.
Proof.
  intros Hs Ho. unfold jump. rewrite Hs, Ho. simpl.
  destruct st; simpl in *; subst; reflexivity.
Qed.

(** A frame asked for while the game is not running does nothing. *)
Lemma gameLoop_idle (st : State) :
  gameStarted st = false \/ gameOver st = true -> gameLoop cfg env st = st.
Proof.
  intros [H | H]; unfold gameLoop; rewrite H; simpl; [reflexivity|].
  now rewrite orb_true_r.
Qed.

(** The bird's position after a frame, in the two cases of the bounds
    check. *)
Lemma gameLoop_position_in (st : State) :
  gameStarted st = true -> gameOver st = false ->
  0 <= birdPosition st + birdVelocity st <= innerHeight env - 48 ->
  birdPosition (gameLoop cfg env st) = birdPosition st + birdVelocity st.
Proof.
  intros Hs Ho [Hlo Hhi]. unfold gameLoop. rewrite Hs, Ho. simpl.
  cmp_cases; simpl; try reflexivity; lra.
Qed.

Lemma gameLoop_position_out (st : State) :
  gameStarted st = true -> gameOver st = false ->
  birdPosition st + birdVelocity st < 0 \/
  innerHeight env - 48 < birdPosition st + birdVelocity st ->
  birdPosition (gameLoop cfg env st) = birdPosition st /\
  gameOver (gameLoop cfg env st) = true.
Proof.
  intros Hs Ho Hout. unfold gameLoop. rewrite Hs, Ho. simpl.
  cmp_cases; simpl; (split; [reflexivity || lra | reflexivity || lra]).
Qed.

Lemma gameLoop_velocity (st : State) :
  gameStarted st = true -> gameOver st = false ->
  birdVelocity (gameLoop cfg env st) = birdVelocity st + gravity cfg.
Proof. intros Hs Ho. unfold gameLoop. rewrite Hs, Ho. reflexivity. Qed.

(** The rotation grows by 3 a frame and never exceeds 90. *)
Lemma gameLoop_rotation (st : State) :
  gameStarted st = true -> gameOver st = false ->
  birdRotation (gameLoop cfg env st) <= 90 /\
  birdRotation (gameLoop cfg env st) <= birdRotation st + 3.
Proof.
  intros Hs Ho. unfold gameLoop. rewrite Hs, Ho. simpl.
  split; [apply min_le_r | apply min_le_l].
Qed.

(** A position inside the field stays inside it, frame after frame. *)
Lemma gameLoop_bird_in_field (st : State) :
  0 <= birdPosition st <= innerHeight env - 48 ->
  0 <= birdPosition (gameLoop cfg env st) <= innerHeight env - 48.
Proof.
  intros Hin. unfold gameLoop.
  destruct (negb (gameStarted st) || gameOver st); [exact Hin|].
  simpl. cmp_cases; simpl; lra.
Qed.

End FlappyFrame.

(** *** C1: integration order *)

(** C1, as stated, fails on Scenario C: one frame from position 300,
    velocity 0 and gravity 0.6 gives velocity 0.6 but leaves the position
    at 300, not 300.6, because the position updater adds the velocity the
    frame started with. *)
Lemma C1_scenario_position_stays_300 :
  ~ (FlappyBird.birdVelocity
       (FlappyBird.gameLoop FlappyBird.DEFAULT_SETTINGS Scenarios.envC
          Scenarios.birdC) == 6 # 10 /\
     FlappyBird.birdPosition
       (FlappyBird.gameLoop FlappyBird.DEFAULT_SETTINGS Scenarios.envC
          Scenarios.birdC) == 3006 # 10).
Proof. intros [_ H]. vm_compute in H. discriminate H. Qed.

(** C1 (amended): one frame of the running loop adds gravity to the
    bird's velocity and adds to the bird's position the velocity the frame
    started with (whenever that sum lies in the field), so the gravity of a
    frame reaches the position one frame later. *)
Theorem C1_frame_adds_old_velocity
  (cfg : FlappyBird.Settings) (env : FlappyBird.Env) (st : FlappyBird.State) :
  FlappyBird.gameStarted st = true ->
  FlappyBird.gameOver st = false ->
  Spec.birdInField env (FlappyBird.birdPosition st + FlappyBird.birdVelocity st) ->
  FlappyBird.birdVelocity (FlappyBird.gameLoop cfg env st)
    = FlappyBird.birdVelocity st + FlappyBird.gravity cfg /\
  FlappyBird.birdPosition (FlappyBird.gameLoop cfg env st)
    = FlappyBird.birdPosition st + FlappyBird.birdVelocity st.
Proof.
  intros Hs Ho Hin. split.
  - now apply gameLoop_velocity.
  - now apply gameLoop_position_in.
Qed.

(** Scenario C under the amended claim: velocity 0.6 and position 300
    after the first frame. *)
Lemma C1_frame_adds_old_velocity_witness :
  FlappyBird.birdVelocity
    (FlappyBird.gameLoop FlappyBird.DEFAULT_SETTINGS Scenarios.envC
       Scenarios.birdC) == 6 # 10 /\
  FlappyBird.birdPosition
    (FlappyBird.gameLoop FlappyBird.DEFAULT_SETTINGS Scenarios.envC
       Scenarios.birdC) == 300.
Proof.
  destruct (C1_frame_adds_old_velocity FlappyBird.DEFAULT_SETTINGS
              Scenarios.envC Scenarios.birdC eq_refl eq_refl) as [Hv Hp].
  - unfold Spec.birdInField. simpl. lra.
  - rewrite Hv, Hp. simpl. split; lra.
Defined.

(** The position 300.6 of Scenario C is reached by the second frame. *)
Lemma scenarioC_second_frame :
  FlappyBird.birdPosition
    (FlappyBird.frames FlappyBird.DEFAULT_SETTINGS
       [Scenarios.envC; Scenarios.envC] Scenarios.birdC) == 3006 # 10.
Proof. vm_compute. reflexivity. Qed.

(** *** C4: the bounds check *)

(** C4: in every frame of the running loop whose integrated position
    falls outside [0, fieldHeight - 48], game-over is set and the position
    keeps the value it had; a position that was in the field is therefore
    still in the field. *)
Theorem C4_out_of_range_keeps_last_position
  (cfg : FlappyBird.Settings) (env : FlappyBird.Env) (st : FlappyBird.State) :
  FlappyBird.gameStarted st = true ->
  FlappyBird.gameOver st = false ->
  ~ Spec.birdInField env
      (FlappyBird.birdPosition st + FlappyBird.birdVelocity st) ->
  FlappyBird.gameOver (FlappyBird.gameLoop cfg env st) = true /\
  FlappyBird.birdPosition (FlappyBird.gameLoop cfg env st)
    = FlappyBird.birdPosition st /\
  (Spec.birdInField env (FlappyBird.birdPosition st) ->
   Spec.birdInField env
     (FlappyBird.birdPosition (FlappyBird.gameLoop cfg env st))).
Proof.
  intros Hs Ho Hout.
  assert (Hout' :
    FlappyBird.birdPosition st + FlappyBird.birdVelocity st < 0 \/
    FlappyBird.innerHeight env - 48
      < FlappyBird.birdPosition st + FlappyBird.birdVelocity st).
  { unfold Spec.birdInField in Hout.
    destruct (Qlt_le_dec
                (FlappyBird.birdPosition st + FlappyBird.birdVelocity st) 0)
      as [Hl | Hl]; [now left|].
    right. apply Qnot_le_lt. intros Hle. apply Hout. split; assumption. }
  destruct (gameLoop_position_out cfg env st Hs Ho Hout') as [Hp Hg].
  split; [exact Hg|]. split; [exact Hp|].
  intros Hin. rewrite Hp. exact Hin.
Qed.

(** Scenario D: integration gives -5; the frame ends the game and reports
    the position 2 it started with. *)
Lemma C4_out_of_range_keeps_last_position_witness :
  FlappyBird.birdPosition Scenarios.birdD
    + FlappyBird.birdVelocity Scenarios.birdD == - (5 # 1) /\
  FlappyBird.gameOver
    (FlappyBird.gameLoop FlappyBird.DEFAULT_SETTINGS Scenarios.envC
       Scenarios.birdD) = true /\
  0 <= FlappyBird.birdPosition
         (FlappyBird.gameLoop FlappyBird.DEFAULT_SETTINGS Scenarios.envC
            Scenarios.birdD).
Proof.
  split; [reflexivity|].
  destruct (C4_out_of_range_keeps_last_position FlappyBird.DEFAULT_SETTINGS
              Scenarios.envC Scenarios.birdD eq_refl eq_refl) as (Hg & Hp & _).
  - unfold Spec.birdInField. simpl. lra.
  - split; [exact Hg|]. rewrite Hp. simpl. lra.
Defined.

(** *** C5: the collision tests *)

Section Collision.

Import Geometry.

(** The overlap predicate of the specification does not depend on the
    order of its arguments. *)
Lemma collides_sym (a b : Rect) : collides a b = collides b a.
Proof.
  unfold collides, Num.gtb.
  destruct (left b <? right a), (left a <? right b),
           (top b <? bottom a), (top a <? bottom b); reflexivity.
Qed.

(** The lane-crossing game applies the predicate to the character's and
    the car's box, for a character that is alive. *)
Lemma hitsCar_collides (ch : CrossyRoad.Character) (c : CrossyRoad.Car) :
  CrossyRoad.hitsCar ch c
  = CrossyRoad.isAlive ch
    && collides (CrossyRoad.charBox ch) (CrossyRoad.carBox c).
Proof.
  unfold CrossyRoad.hitsCar, collides.
  now rewrite <- !andb_assoc.
Qed.

(** The pipe game tests three of the four comparisons per rectangle; the
    ones it leaves out hold as long as the bird is below the top edge by
    less than its height and above the bottom edge. *)
Lemma hitsPipe_collides (cfg : FlappyBird.Settings) (env : FlappyBird.Env)
  (birdPos : Q) (p : FlappyBird.PipeData) :
  - (48 # 1) < birdPos -> birdPos < FlappyBird.innerHeight env ->
  FlappyBird.hitsPipe cfg env birdPos p
  = collides (FlappyBird.birdRect birdPos) (FlappyBird.topPipeRect p)
    || collides (FlappyBird.birdRect birdPos)
         (FlappyBird.bottomPipeRect cfg env p).
Proof.
  intros Hlo Hhi. unfold FlappyBird.hitsPipe, collides. simpl.
  assert (H1 : (birdPos + 48 >? 0) = true).
  { unfold Num.gtb. apply ltb_true_iff. lra. }
  assert (H2 : (birdPos <? FlappyBird.innerHeight env) = true).
  { apply ltb_true_iff. exact Hhi. }
  rewrite H1, H2, !andb_true_r. reflexivity.
Qed.

End Collision.

(** C5, as stated, fails for the pipe game: in a window 300 pixels high,
    with the bird at its start position 300 and a pair at abscissa 100,
    [checkCollision] reports a hit although the bird's rectangle overlaps
    neither segment under the four-comparison test. *)
Lemma C5_pipe_test_is_not_the_overlap_test :
  FlappyBird.checkCollision FlappyBird.DEFAULT_SETTINGS Scenarios.envLow 300
    [Scenarios.pipeLow] = true /\
  Geometry.collides (FlappyBird.birdRect 300)
    (FlappyBird.topPipeRect Scenarios.pipeLow) = false /\
  Geometry.collides (FlappyBird.birdRect 300)
    (FlappyBird.bottomPipeRect FlappyBird.DEFAULT_SETTINGS Scenarios.envLow
       Scenarios.pipeLow) = false.
Proof. repeat split; vm_compute; reflexivity. Qed.

(** C5 (amended): the strict overlap test is symmetric; the lane-crossing
    game decides a collision between the living character and a car by
    exactly that test; the pipe game decides it by three of the four
    comparisons per segment, which agrees with the test whenever the bird's
    position is above -48 and below the field height. *)
Theorem C5_collision_tests
  (a b : Geometry.Rect)
  (ch : CrossyRoad.Character) (cs : list CrossyRoad.Car)
  (cfg : FlappyBird.Settings) (env : FlappyBird.Env) (birdPos : Q)
  (ps : list FlappyBird.PipeData) :
  - (48 # 1) < birdPos -> birdPos < FlappyBird.innerHeight env ->
  Geometry.collides a b = Geometry.collides b a /\
  fst (CrossyRoad.checkCollisions ch cs)
    = existsb (fun c => CrossyRoad.isAlive ch &&
                        Geometry.collides (CrossyRoad.charBox ch)
                          (CrossyRoad.carBox c)) cs /\
  FlappyBird.checkCollision cfg env birdPos ps
    = existsb (fun p =>
                 Geometry.collides (FlappyBird.birdRect birdPos)
                   (FlappyBird.topPipeRect p)
                 || Geometry.collides (FlappyBird.birdRect birdPos)
                      (FlappyBird.bottomPipeRect cfg env p)) ps.
Proof.
  intros Hlo Hhi. split; [apply collides_sym|]. split.
  - unfold CrossyRoad.checkCollisions.
    assert (Hex : existsb (CrossyRoad.hitsCar ch) cs
                  = existsb (fun c => CrossyRoad.isAlive ch &&
                        Geometry.collides (CrossyRoad.charBox ch)
                          (CrossyRoad.carBox c)) cs).
    { induction cs as [|c cs' IH]; [reflexivity|].
      simpl. now rewrite IH, hitsCar_collides. }
    rewrite <- Hex. destruct (existsb _ cs); reflexivity.
  - unfold FlappyBird.checkCollision.
    induction ps as [|p ps' IH]; [reflexivity|].
    simpl. now rewrite IH, hitsPipe_collides.
Qed.

(** A bird in the middle of an 800 pixel window, one pair at the bird's
    abscissa and one car on the character: the tests agree. *)
Lemma C5_collision_tests_witness :
  FlappyBird.checkCollision FlappyBird.DEFAULT_SETTINGS Scenarios.envC 300
    [Scenarios.pipeLow]
  = Geometry.collides (FlappyBird.birdRect 300)
      (FlappyBird.topPipeRect Scenarios.pipeLow)
    || Geometry.collides (FlappyBird.birdRect 300)
         (FlappyBird.bottomPipeRect FlappyBird.DEFAULT_SETTINGS Scenarios.envC
            Scenarios.pipeLow)
    || false.
Proof.
  refine (proj2 (proj2
    (C5_collision_tests (FlappyBird.birdRect 300) (FlappyBird.birdRect 0)
       (CrossyRoad.newCharacter 0 0 CrossyRoad.DEFAULT_SETTINGS) []
       FlappyBird.DEFAULT_SETTINGS Scenarios.envC 300 [Scenarios.pipeLow]
       _ _))); simpl; lra.
Defined.

(** *** C8: pipe pairs *)

Section Pipes.

Import FlappyBird.

Variable cfg : Settings.
Variable env : Env.

Hypothesis tall_enough : gapSize cfg + 100 <= innerHeight env.

(** The height [spawnPipe] draws lies between the minimum length and the
    height that leaves the minimum length to the lower segment. *)
Lemma spawn_height_bounds (r : Q) :
  0 <= r -> r < 1 ->
  let h := r * (innerHeight env - gapSize cfg - 50 - 50) + 50 in
  50 <= h /\ h <= innerHeight env - gapSize cfg - 50.
Proof.
  intros H0 H1 h. subst h.
  set (d := innerHeight env - gapSize cfg - 50 - 50).
  assert (Hd : 0 <= d) by (unfold d; lra).
  assert (Hlo : 0 <= r * d) by (apply Qmult_le_0_compat; assumption).
  assert (Hhi : r * d <= 1 * d).
  { apply Qmult_le_compat_r; [lra | exact Hd]. }
  unfold d in *. split; lra.
Qed.

Lemma spawnPipe_pairOk (e : Env) (ps : list PipeData) :
  Spec.sameField env e ->
  Forall (Spec.pairOk cfg env) ps ->
  Forall (Spec.pairOk cfg env) (spawnPipe cfg e ps).
Proof.
  intros (HH & H0 & H1) Hps. unfold spawnPipe.
  apply Forall_app. split; [exact Hps|].
  constructor; [|constructor].
  destruct (spawn_height_bounds (random e) H0 H1) as [Hlo Hhi].
  unfold Spec.pairOk. simpl. rewrite HH.
  repeat split; lra.
Qed.

Lemma movePipe_pairOk (p : PipeData) :
  Spec.pairOk cfg env p -> Spec.pairOk cfg env (movePipe cfg p).
Proof. unfold Spec.pairOk. simpl. tauto. Qed.

Lemma advancePipes_pairOk (ps : list PipeData) :
  Forall (Spec.pairOk cfg env) ps ->
  Forall (Spec.pairOk cfg env) (advancePipes cfg ps).
Proof.
  intros Hps. unfold advancePipes.
  induction Hps as [|p ps' Hp _ IH]; simpl; [constructor|].
  destruct (pipe_x p - pipeSpeed cfg >? - (100 # 1)).
  - constructor; [now apply movePipe_pairOk | exact IH].
  - exact IH.
Qed.

Lemma gameLoop_pairOk (e : Env) (st : State) :
  Spec.sameField env e ->
  Forall (Spec.pairOk cfg env) (pipes st) ->
  Forall (Spec.pairOk cfg env) (pipes (gameLoop cfg e st)).
Proof.
  intros He Hps. unfold gameLoop.
  destruct (negb (gameStarted st) || gameOver st); [exact Hps|].
  simpl. destruct (_ && _).
  - apply spawnPipe_pairOk; [exact He | now apply advancePipes_pairOk].
  - now apply advancePipes_pairOk.
Qed.

Lemma frames_pairOk (envs : list Env) (st : State) :
  Forall (Spec.sameField env) envs ->
  Forall (Spec.pairOk cfg env) (pipes st) ->
  Forall (Spec.pairOk cfg env) (pipes (frames cfg envs st)).
Proof.
  intros Henvs. revert st.
  induction Henvs as [|e envs' He _ IH]; intros st Hps; simpl; [exact Hps|].
  apply IH. now apply gameLoop_pairOk.
Qed.

End Pipes.

(** C8: in a field at least [gapSize + 100] high, the pair [spawnPipe]
    adds has a top height between 50 and [fieldHeight - gapSize - 50], and
    every pair the loop holds, after any number of frames, has both
    segments at one abscissa, an opening of exactly [gapSize] and both
    segments at least 50 long. *)
Theorem C8_pipe_pairs_keep_gap
  (cfg : FlappyBird.Settings) (env : FlappyBird.Env)
  (envs : list FlappyBird.Env) (st : FlappyBird.State)
  (e : FlappyBird.Env) (ps : list FlappyBird.PipeData) :
  FlappyBird.gapSize cfg + 100 <= FlappyBird.innerHeight env ->
  Spec.sameField env e ->
  Forall (Spec.sameField env) envs ->
  Forall (Spec.pairOk cfg env) (FlappyBird.pipes st) ->
  (exists p, FlappyBird.spawnPipe cfg e ps = ps ++ [p] /\
             50 <= FlappyBird.pipe_height p /\
             FlappyBird.pipe_height p
               <= FlappyBird.innerHeight env - FlappyBird.gapSize cfg - 50 /\
             Spec.pairOk cfg env p) /\
  Forall (Spec.pairOk cfg env)
    (FlappyBird.pipes (FlappyBird.frames cfg envs st)).
Proof.
  intros Htall He Henvs Hst. split.
  - eexists. split; [reflexivity|].
    pose proof (spawnPipe_pairOk cfg env Htall e [] He ltac:(constructor))
      as Hok.
    apply Forall_inv in Hok.
    destruct He as (HH & H0 & H1).
    destruct (spawn_height_bounds cfg env Htall _ H0 H1) as [Hlo Hhi].
    split; [simpl; rewrite HH; exact Hlo|].
    split; [simpl; rewrite HH; exact Hhi|].
    exact Hok.
  - now apply frames_pairOk.
Qed.

(** A frame that spawns: the loop then holds one pair, of top height 275,
    that satisfies the invariant. *)
Lemma C8_pipe_pairs_keep_gap_witness :
  exists p,
    FlappyBird.pipes
      (FlappyBird.frames FlappyBird.DEFAULT_SETTINGS [Scenarios.envSpawn]
         Scenarios.birdReady) = [p] /\
    FlappyBird.pipe_height p == 275 /\
    Spec.pairOk FlappyBird.DEFAULT_SETTINGS Scenarios.envC p.
Proof.
  assert (Hf : Spec.sameField Scenarios.envC Scenarios.envSpawn).
  { unfold Spec.sameField. simpl. split; [reflexivity | split; lra]. }
  destruct (C8_pipe_pairs_keep_gap FlappyBird.DEFAULT_SETTINGS Scenarios.envC
              [Scenarios.envSpawn] Scenarios.birdReady Scenarios.envSpawn [])
    as [_ Hall].
  - simpl. lra.
  - exact Hf.
  - constructor; [exact Hf | constructor].
  - constructor.
  - eexists. split; [reflexivity|]. split; [reflexivity|].
    exact (Forall_inv Hall).
Defined.

(** *** C9: the score trigger *)

Section ScoreTrigger.

Import FlappyBird.

Variable cfg : Settings.

(** One run of [scorePipes] adds one to the score for every pair that
    passes the trigger. *)
Lemma scorePipes_counts (ps : list PipeData) (s hs : Z) :
  fst (scorePipes cfg ps (s, hs))
  = (s + Z.of_nat (length (List.filter (passesBird cfg) ps)))%Z.
Proof.
  unfold scorePipes. revert s hs.
  induction ps as [|p ps' IH]; intros s hs; simpl.
  - lia.
  - destruct (passesBird cfg p); simpl.
    + rewrite IH. lia.
    + apply IH.
Qed.

(** [k] runs add that number [k] times. *)
Lemma iter_scorePipes_counts (k : nat) (ps : list PipeData) (s hs : Z) :
  fst (Nat.iter k (scorePipes cfg ps) (s, hs))
  = (s + Z.of_nat (k * length (List.filter (passesBird cfg) ps)))%Z.
Proof.
  induction k as [|k IH].
  - simpl. lia.
  - change (Nat.iter (S k) (scorePipes cfg ps) (s, hs))
      with (scorePipes cfg ps (Nat.iter k (scorePipes cfg ps) (s, hs))).
    destruct (Nat.iter k (scorePipes cfg ps) (s, hs)) as [s' hs'].
    rewrite scorePipes_counts. cbn [fst] in IH. rewrite IH. lia.
Qed.

(** The pairs of the moved list that pass the trigger are the pairs of
    the captured list that score now. *)
Lemma advance_counts (ps : list PipeData) :
  length (List.filter (passesBird cfg) (advancePipes cfg ps))
  = length (List.filter (Spec.scoresNow cfg) ps).
Proof.
  unfold advancePipes, Spec.scoresNow.
  induction ps as [|p ps' IH]; simpl; [reflexivity|].
  destruct (pipe_x p - pipeSpeed cfg >? - (100 # 1)); simpl.
  - destruct (passesBird cfg (movePipe cfg p)); simpl; now rewrite IH.
  - exact IH.
Qed.

(** A running frame adds, for every pair that scores in it, one point per
    call of the [setPipes] updater. *)
Lemma gameLoop_score (env : Env) (st : State) :
  gameStarted st = true -> gameOver st = false ->
  score (gameLoop cfg env st)
  = (score st
     + Z.of_nat (updaterRuns (strictMode env)
                 * length (List.filter (Spec.scoresNow cfg) (pipes st))))%Z.
Proof.
  intros Hs Ho. unfold gameLoop. rewrite Hs, Ho.
  cbn [negb orb score].
  now rewrite iter_scorePipes_counts, advance_counts.
Qed.

(** A running frame stores the moved pairs, followed by what it spawned. *)
Lemma gameLoop_pipes (env : Env) (st : State) :
  gameStarted st = true -> gameOver st = false ->
  pipes (gameLoop cfg env st)
  = advancePipes cfg (pipes st) ++ Spec.spawned cfg env st.
Proof.
  intros Hs Ho. unfold Spec.spawned, gameLoop. rewrite Hs, Ho.
  cbn [negb orb pipes].
  destruct ((now env - lastPipe st >? pipeSpawnRate cfg)
            && (frameCount st + 1 >? 60)%Z).
  - unfold spawnPipe.
    rewrite skipn_app, skipn_all, Nat.sub_diag. reflexivity.
  - now rewrite skipn_all, app_nil_r.
Qed.

(** The trigger is an edge test: the pair was at or right of the slot and
    is now left of it (and has not been dropped). *)
Lemma scoresNow_iff (p : PipeData) :
  Spec.scoresNow cfg p = true <->
  96 <= pipe_x p /\ pipe_x p - pipeSpeed cfg < 96 /\
  - (100 # 1) < pipe_x p - pipeSpeed cfg.
Proof.
  unfold Spec.scoresNow, passesBird. simpl.
  cmp_cases; simpl; split; intros H; try discriminate; try reflexivity;
    try (repeat split; lra); try (destruct H as (? & ? & ?); lra).
Qed.

Lemma owed_app (n : nat) (ps qs : list PipeData) :
  Spec.owed cfg n (ps ++ qs)
  = (Spec.owed cfg n ps + Spec.owed cfg n qs)%nat.
Proof.
  induction ps as [|p ps' IH]; simpl; [reflexivity|]. rewrite IH. lia.
Qed.

(** A pair of the captured list that stays on screen is stored moved. *)
Lemma advancePipes_keeps (ps : list PipeData) (p : PipeData) :
  In p ps -> - (100 # 1) < pipe_x (movePipe cfg p) ->
  In (movePipe cfg p) (advancePipes cfg ps).
Proof.
  intros Hin Hon. unfold advancePipes. apply filter_In. split.
  - now apply in_map.
  - unfold Num.gtb. now apply ltb_true_iff.
Qed.

Hypothesis moving : 0 < pipeSpeed cfg.

Lemma pipeAfter_le (n : nat) (p : PipeData) :
  pipe_x (Spec.pipeAfter cfg n p) <= pipe_x p.
Proof.
  revert p. induction n as [|n IH]; intros p; simpl; [lra|].
  specialize (IH (movePipe cfg p)). simpl in IH. lra.
Qed.

(** A pair left of the slot never scores again. *)
Lemma timesScored_past (n : nat) (p : PipeData) :
  pipe_x p < 96 -> Spec.timesScored cfg n p = 0%nat.
Proof.
  revert p. induction n as [|n IH]; intros p Hp; simpl; [reflexivity|].
  destruct (Spec.scoresNow cfg p) eqn:E.
  - apply scoresNow_iff in E. lra.
  - apply IH. simpl. lra.
Qed.

Lemma timesScored_le_1 (n : nat) (p : PipeData) :
  (Spec.timesScored cfg n p <= 1)%nat.
Proof.
  revert p. induction n as [|n IH]; intros p; simpl; [lia|].
  destruct (Spec.scoresNow cfg p) eqn:E.
  - apply scoresNow_iff in E.
    rewrite timesScored_past; [lia | simpl; lra].
  - apply IH.
Qed.

(** A pair that starts at or right of the slot and is left of it, still on
    screen, [n] frames later has scored exactly once. *)
Lemma timesScored_crossed (n : nat) (p : PipeData) :
  96 <= pipe_x p ->
  pipe_x (Spec.pipeAfter cfg n p) < 96 ->
  - (100 # 1) < pipe_x (Spec.pipeAfter cfg n p) ->
  Spec.timesScored cfg n p = 1%nat.
Proof.
  revert p. induction n as [|n IH]; intros p Hge Hlt Hon; simpl in *.
  - lra.
  - destruct (Spec.scoresNow cfg p) eqn:E.
    + apply scoresNow_iff in E.
      rewrite timesScored_past; [reflexivity | simpl; lra].
    + destruct (Qlt_le_dec (pipe_x p - pipeSpeed cfg) 96) as [Hc | Hc].
      * assert (Hs : Spec.scoresNow cfg p = true).
        { apply scoresNow_iff. repeat split; try assumption.
          pose proof (pipeAfter_le n (movePipe cfg p)) as Hle.
          simpl in Hle. lra. }
        congruence.
      * simpl. apply IH; simpl; assumption.
Qed.

(** What the captured pairs earn over [S n] frames is what scores in the
    first frame plus what the moved, kept pairs earn over the [n] frames
    that follow: a dropped pair earns nothing more. *)
Lemma owed_advance (n : nat) (ps : list PipeData) :
  (Spec.owed cfg n (advancePipes cfg ps)
   + length (List.filter (Spec.scoresNow cfg) ps)
   = Spec.owed cfg (S n) ps)%nat.
Proof.
  induction ps as [|p ps' IH]; [reflexivity|].
  change (advancePipes cfg (p :: ps'))
    with (if pipe_x (movePipe cfg p) >? - (100 # 1)
          then movePipe cfg p :: advancePipes cfg ps'
          else advancePipes cfg ps').
  cbn [List.filter Spec.owed Spec.timesScored].
  fold (Spec.timesScored cfg n (movePipe cfg p)).
  assert (Hn : (Spec.owed cfg n (advancePipes cfg ps')
                + length (List.filter (Spec.scoresNow cfg) ps')
                = Spec.owed cfg (S n) ps')%nat) by exact IH.
  destruct (pipe_x (movePipe cfg p) >? - (100 # 1)) eqn:Ek.
  - cbn [Spec.owed].
    destruct (Spec.scoresNow cfg p); cbn [length]; lia.
  - assert (Hz : Spec.timesScored cfg n (movePipe cfg p) = 0%nat).
    { apply timesScored_past. unfold Num.gtb in Ek.
      apply ltb_false_iff in Ek. lra. }
    rewrite Hz.
    destruct (Spec.scoresNow cfg p); cbn [length]; lia.
Qed.

(** Over frames the loop runs through, in one kind of build, the score
    grows by what the captured pairs and the pairs spawned on the way
    earn, once per call of the updater. *)
Lemma frames_score (strict : bool) (envs : list Env) (st : State) :
  Spec.runsThrough cfg envs st = true ->
  Forall (fun e => strictMode e = strict) envs ->
  score (frames cfg envs st)
  = (score st
     + Z.of_nat (updaterRuns strict
                 * (Spec.owed cfg (length envs) (pipes st)
                    + Spec.spawnedOwed cfg envs st)))%Z.
Proof.
  revert st. induction envs as [|e envs' IH]; intros st Hrun Hall.
  - cbn [frames length Spec.spawnedOwed].
    assert (Hz : Spec.owed cfg 0 (pipes st) = 0%nat).
    { induction (pipes st) as [|p ps IHp]; simpl; [reflexivity | exact IHp]. }
    rewrite Hz. lia.
  - cbn [Spec.runsThrough] in Hrun.
    apply andb_prop in Hrun. destruct Hrun as [Hrun Hrest].
    apply andb_prop in Hrun. destruct Hrun as [Hs Ho].
    apply negb_true_iff in Ho.
    pose proof (Forall_inv Hall) as He. cbv beta in He.
    pose proof (Forall_inv_tail Hall) as Htl.
    cbn [frames length Spec.spawnedOwed].
    rewrite (IH _ Hrest Htl).
    rewrite (gameLoop_score e st Hs Ho), (gameLoop_pipes e st Hs Ho), He.
    rewrite owed_app, <- owed_advance. lia.
Qed.

(** A captured pair that stays on screen is still stored, moved once per
    frame, after the frames. *)
Lemma frames_keep_pair (envs : list Env) (st : State) (p : PipeData) :
  Spec.runsThrough cfg envs st = true ->
  In p (pipes st) ->
  (forall k, (1 <= k <= length envs)%nat ->
             - (100 # 1) < pipe_x (Spec.pipeAfter cfg k p)) ->
  In (Spec.pipeAfter cfg (length envs) p) (pipes (frames cfg envs st)).
Proof.
  revert st p. induction envs as [|e envs' IH]; intros st p Hrun Hin Hon.
  - exact Hin.
  - cbn [Spec.runsThrough] in Hrun.
    apply andb_prop in Hrun. destruct Hrun as [Hrun Hrest].
    apply andb_prop in Hrun. destruct Hrun as [Hs Ho].
    apply negb_true_iff in Ho.
    cbn [frames length Spec.pipeAfter].
    apply IH; [exact Hrest | |].
    + rewrite (gameLoop_pipes e st Hs Ho). apply in_or_app. left.
      apply advancePipes_keeps; [exact Hin|].
      apply (Hon 1%nat). cbn [length]. lia.
    + intros k Hk. apply (Hon (S k)). cbn [length]. lia.
Qed.

End ScoreTrigger.

(** C9: with [pipeSpeed > 0], over frames the loop runs through in one
    kind of build, the score grows by the number of times the stored
    pairs (those captured at the start and those spawned on the way)
    cross the slot, multiplied by the number of calls React makes of the
    [setPipes] updater: 1 in a production build, 2 under the
    [React.StrictMode] of a development build.  A stored pair that stays
    on screen is stored moved by one step per frame; it crosses in a frame
    exactly when the frame takes it from [x >= 96] to [x < 96] and keeps
    it; it crosses at most once, exactly once when it has gone from the
    right of the slot to its left while on screen, and never again once
    it is left of the slot. *)
Theorem C9_crossing_scores_once_per_updater_call
  (cfg : FlappyBird.Settings) (envs : list FlappyBird.Env)
  (st : FlappyBird.State) (strict : bool)
  (p : FlappyBird.PipeData) (n : nat) :
  0 < FlappyBird.pipeSpeed cfg ->
  Spec.runsThrough cfg envs st = true ->
  Forall (fun e => FlappyBird.strictMode e = strict) envs ->
  FlappyBird.score (FlappyBird.frames cfg envs st)
  = (FlappyBird.score st
     + Z.of_nat (FlappyBird.updaterRuns strict
                 * (Spec.owed cfg (length envs) (FlappyBird.pipes st)
                    + Spec.spawnedOwed cfg envs st)))%Z /\
  (In p (FlappyBird.pipes st) ->
   (forall k, (1 <= k <= length envs)%nat ->
              - (100 # 1) < FlappyBird.pipe_x (Spec.pipeAfter cfg k p)) ->
   In (Spec.pipeAfter cfg (length envs) p)
      (FlappyBird.pipes (FlappyBird.frames cfg envs st))) /\
  (Spec.scoresNow cfg p = true <->
   96 <= FlappyBird.pipe_x p /\
   FlappyBird.pipe_x (FlappyBird.movePipe cfg p) < 96 /\
   - (100 # 1) < FlappyBird.pipe_x (FlappyBird.movePipe cfg p)) /\
  (Spec.timesScored cfg n p <= 1)%nat /\
  (96 <= FlappyBird.pipe_x p ->
   FlappyBird.pipe_x (Spec.pipeAfter cfg n p) < 96 ->
   - (100 # 1) < FlappyBird.pipe_x (Spec.pipeAfter cfg n p) ->
   Spec.timesScored cfg n p = 1%nat) /\
  (FlappyBird.pipe_x p < 96 -> Spec.timesScored cfg n p = 0%nat).
Proof.
  intros Hv Hrun Hall. split; [|split; [|split; [|split; [|split]]]].
  - now apply frames_score.
  - now apply frames_keep_pair.
  - apply scoresNow_iff.
  - now apply timesScored_le_1.
  - now apply timesScored_crossed.
  - now apply timesScored_past.
Qed.

(** A pair at 97 moving 3 a frame, five frames of a development build:
    the pair crosses the slot once, is stored at 82 afterwards, and the
    score is 2. *)
Lemma C9_crossing_scores_once_per_updater_call_witness :
  FlappyBird.score
    (FlappyBird.frames FlappyBird.DEFAULT_SETTINGS
       (repeat Scenarios.envDev 5) Scenarios.birdAtPipe) = 2%Z /\
  Spec.timesScored FlappyBird.DEFAULT_SETTINGS 5 Scenarios.pipeAt97 = 1%nat.
Proof.
  destruct (C9_crossing_scores_once_per_updater_call
              FlappyBird.DEFAULT_SETTINGS (repeat Scenarios.envDev 5)
              Scenarios.birdAtPipe true Scenarios.pipeAt97 5)
    as (Hscore & _ & _ & _ & Honce & _).
  - simpl. lra.
  - vm_compute. reflexivity.
  - repeat constructor.
  - split.
    + rewrite Hscore. vm_compute. reflexivity.
    + apply Honce; simpl; lra.
Defined.

(** The same five frames in a production build leave the score at 1. *)
Lemma production_frames_score_once :
  FlappyBird.score
    (FlappyBird.frames FlappyBird.DEFAULT_SETTINGS
       (repeat Scenarios.envC 5) Scenarios.birdAtPipe) = 1%Z.
Proof. vm_compute. reflexivity. Qed.

(** ** The lane-crossing game *)

Section CharacterMoves.

Import CrossyRoad.

(** [Character.move] changes neither size, colour nor the alive flag. *)
Lemma move_size (c : Character) (dx dy w h : Q) :
  char_size (move c dx dy w h) = char_size c.
Proof. reflexivity. Qed.

(** Each axis is decided on its own: the new coordinate is taken when it
    keeps the box inside the field on that axis, and dropped otherwise. *)
Lemma move_x_taken (c : Character) (dx dy w h : Q) :
  0 <= char_x c + dx * char_size c ->
  char_x c + dx * char_size c + char_size c <= w ->
  char_x (move c dx dy w h) = char_x c + dx * char_size c.
Proof. intros H0 H1. unfold move. simpl. cmp_cases; simpl; reflexivity || lra. Qed.

Lemma move_x_dropped (c : Character) (dx dy w h : Q) :
  char_x c + dx * char_size c < 0 \/
  w < char_x c + dx * char_size c + char_size c ->
  char_x (move c dx dy w h) = char_x c.
Proof. intros H. unfold move. simpl. cmp_cases; simpl; reflexivity || lra. Qed.

Lemma move_y_taken (c : Character) (dx dy w h : Q) :
  0 <= char_y c + dy * char_size c ->
  char_y c + dy * char_size c + char_size c <= h ->
  char_y (move c dx dy w h) = char_y c + dy * char_size c.
Proof. intros H0 H1. unfold move. simpl. cmp_cases; simpl; reflexivity || lra. Qed.

Lemma move_y_dropped (c : Character) (dx dy w h : Q) :
  char_y c + dy * char_size c < 0 \/
  h < char_y c + dy * char_size c + char_size c ->
  char_y (move c dx dy w h) = char_y c.
Proof. intros H. unfold move. simpl. cmp_cases; simpl; reflexivity || lra. Qed.

Lemma move_inBounds (cv : Canvas) (c : Character) (dx dy : Q) :
  Spec.inBounds cv c -> Spec.inBounds cv (move c dx dy (width cv) (height cv)).
Proof.
  unfold Spec.inBounds, move. simpl. intros (Hx0 & Hx1 & Hy0 & Hy1).
  cmp_cases; simpl; repeat split; lra.
Qed.

Lemma moveAll_inBounds (cv : Canvas) (reqs : list (Q * Q)) (c : Character) :
  Spec.inBounds cv c ->
  Spec.inBounds cv (Spec.moveAll (width cv) (height cv) reqs c).
Proof.
  unfold Spec.moveAll. revert c.
  induction reqs as [|r reqs' IH]; intros c Hc; simpl; [exact Hc|].
  apply IH. now apply move_inBounds.
Qed.

Variable cfg : Settings.
Variable env : Env.
Variable cv : Canvas.

Hypothesis has_canvas : canvas env = Some cv.

Lemma afterTest_inBounds (c : Character) (dx dy : Q) (obs : list Obstacle) :
  Spec.inBounds cv c -> Spec.inBounds cv (Spec.afterTest cv c dx dy obs).
Proof.
  intros Hc. unfold Spec.afterTest.
  destruct (willCollide c dx dy obs); [exact Hc | now apply move_inBounds].
Qed.

Lemma afterTest_size (c : Character) (dx dy : Q) (obs : list Obstacle) :
  char_size (Spec.afterTest cv c dx dy obs) = char_size c.
Proof. unfold Spec.afterTest. now destruct (willCollide c dx dy obs). Qed.

Lemma moveCharacter_inBounds (dx dy : Q) (st : State) :
  Spec.characterInBounds cfg cv st ->
  Spec.characterInBounds cfg cv (moveCharacter cfg env dx dy st).
Proof.
  unfold Spec.characterInBounds, moveCharacter. rewrite has_canvas.
  destruct (character st) as [c|] eqn:Hc; [|now rewrite Hc].
  intros [Hsz Hin].
  destruct (gameOver st); [now rewrite Hc|].
  fold (Spec.afterTest cv c dx dy (obstacles st)).
  pose proof (afterTest_inBounds c dx dy (obstacles st) Hin) as Hin1.
  pose proof (afterTest_size c dx dy (obstacles st)) as Hsz1.
  set (c1 := Spec.afterTest cv c dx dy (obstacles st)) in *.
  destruct Hin as (Hx0 & Hx1 & Hy0 & Hy1).
  destruct Hin1 as (Hx0' & Hx1' & Hy0' & Hy1').
  rewrite Hsz1, Hsz in Hx1', Hy1'. rewrite Hsz in Hx1, Hy1.
  destruct ((dy <? 0) && (char_y c >? 50) && (char_y c1 <=? 50)) eqn:Eup.
  - simpl. split; [reflexivity|].
    apply andb_prop in Eup. destruct Eup as [Eup _].
    apply andb_prop in Eup. destruct Eup as [_ Eold].
    unfold Num.gtb in Eold. apply ltb_true_iff in Eold.
    unfold Spec.inBounds. simpl. repeat split; lra.
  - destruct ((dy <? 0) && (char_y c1 >? 50)); simpl.
    + split; [reflexivity|]. unfold Spec.inBounds. simpl. repeat split; lra.
    + split; [congruence|]. unfold Spec.inBounds.
      rewrite Hsz1, Hsz. repeat split; lra.
Qed.

Lemma moves_inBounds (reqs : list (Q * Q)) (st : State) :
  Spec.characterInBounds cfg cv st ->
  Spec.characterInBounds cfg cv (moves cfg env reqs st).
Proof.
  revert st. induction reqs as [|[dx dy] reqs' IH]; intros st Hst; simpl.
  - exact Hst.
  - apply IH. now apply moveCharacter_inBounds.
Qed.

End CharacterMoves.

(** *** C3: the boundary clamp *)

(** C3: a character that lies inside the field stays inside it under
    every sequence of move requests, whether they are applied by
    [Character.move] directly or through [moveCharacter] (which may also
    put the character back on the start row); [Character.move] decides each
    axis on its own, taking the new coordinate where the box stays inside
    the field on that axis and dropping it where it would not. *)
Theorem C3_character_stays_in_field
  (cfg : CrossyRoad.Settings) (env : CrossyRoad.Env) (cv : CrossyRoad.Canvas)
  (reqs : list (Q * Q)) (st : CrossyRoad.State)
  (c : CrossyRoad.Character) (dx dy : Q) :
  CrossyRoad.canvas env = Some cv ->
  Spec.characterInBounds cfg cv st ->
  Spec.inBounds cv c ->
  Spec.characterInBounds cfg cv (CrossyRoad.moves cfg env reqs st) /\
  Spec.inBounds cv
    (Spec.moveAll (CrossyRoad.width cv) (CrossyRoad.height cv) reqs c) /\
  let newX := CrossyRoad.char_x c + dx * CrossyRoad.char_size c in
  let newY := CrossyRoad.char_y c + dy * CrossyRoad.char_size c in
  let c' := CrossyRoad.move c dx dy (CrossyRoad.width cv) (CrossyRoad.height cv) in
  (0 <= newX /\ newX + CrossyRoad.char_size c <= CrossyRoad.width cv ->
   CrossyRoad.char_x c' = newX) /\
  (newX < 0 \/ CrossyRoad.width cv < newX + CrossyRoad.char_size c ->
   CrossyRoad.char_x c' = CrossyRoad.char_x c) /\
  (0 <= newY /\ newY + CrossyRoad.char_size c <= CrossyRoad.height cv ->
   CrossyRoad.char_y c' = newY) /\
  (newY < 0 \/ CrossyRoad.height cv < newY + CrossyRoad.char_size c ->
   CrossyRoad.char_y c' = CrossyRoad.char_y c).
Proof.
  intros Hcv Hst Hc. split; [|split].
  - now apply moves_inBounds.
  - now apply moveAll_inBounds.
  - cbv zeta. split; [|split; [|split]].
    + intros [H0 H1]. now apply move_x_taken.
    + apply move_x_dropped.
    + intros [H0 H1]. now apply move_y_taken.
    + apply move_y_dropped.
Qed.

(** On the 800 by 600 field: a character at the left edge asked to go up
    and left keeps its abscissa and moves up; after a walk against every
    edge it is still inside the field. *)
Lemma C3_character_stays_in_field_witness :
  (let c := CrossyRoad.newCharacter 0 100 CrossyRoad.DEFAULT_SETTINGS in
   let c' := CrossyRoad.move c (- (1 # 1)) (- (1 # 1)) 800 600 in
   CrossyRoad.char_x c' == 0 /\ CrossyRoad.char_y c' == 70) /\
  Spec.characterInBounds CrossyRoad.DEFAULT_SETTINGS (CrossyRoad.mkCanvas 800 600)
    (CrossyRoad.moves CrossyRoad.DEFAULT_SETTINGS Scenarios.field
       [(- (1 # 1), 0); (0, 1); (0, 1); (0, 1); (1, 0); (0, - (1 # 1))]
       (Scenarios.sceneWith 0 560 [] 1)).
Proof.
  destruct (C3_character_stays_in_field CrossyRoad.DEFAULT_SETTINGS
              Scenarios.field (CrossyRoad.mkCanvas 800 600)
              [(- (1 # 1), 0); (0, 1); (0, 1); (0, 1); (1, 0); (0, - (1 # 1))]
              (Scenarios.sceneWith 0 560 [] 1)
              (CrossyRoad.newCharacter 0 100 CrossyRoad.DEFAULT_SETTINGS)
              (- (1 # 1)) (- (1 # 1)) eq_refl)
    as (Hgame & _ & _ & Hx & Hy & _).
  - unfold Spec.characterInBounds, Spec.inBounds. simpl.
    split; [reflexivity|]. repeat split; lra.
  - unfold Spec.inBounds. simpl. repeat split; lra.
  - split; [|exact Hgame]. cbv zeta in *. split.
    + etransitivity; [apply Qeq_refl_eq, Hx; simpl; left; lra|].
      reflexivity.
    + etransitivity; [apply Qeq_refl_eq, Hy; simpl; split; lra|].
      reflexivity.
Defined.

(** *** The finish line *)

Section FinishLine.

Import CrossyRoad.

Variable cfg : Settings.
Variable env : Env.
Variable cv : Canvas.

Hypothesis has_canvas : canvas env = Some cv.
Hypothesis size_nonneg : 0 <= characterSize cfg.
Hypothesis start_below : 50 < height cv - characterSize cfg - 10.

(** On a field whose start row lies below the finish line, the character
    is below the finish line whenever a request arrives: reaching it puts
    the character back on the start row. *)
Lemma moveCharacter_belowFinish (dx dy : Q) (st : State) :
  Spec.belowFinish cfg st ->
  Spec.belowFinish cfg (moveCharacter cfg env dx dy st).
Proof.
  unfold Spec.belowFinish, moveCharacter. rewrite has_canvas.
  destruct (character st) as [c|] eqn:Hc; [|now rewrite Hc].
  intros [Hsz Hy].
  destruct (gameOver st); [now rewrite Hc|].
  fold (Spec.afterTest cv c dx dy (obstacles st)).
  assert (Hy1 : 0 <= dy -> 50 < char_y (Spec.afterTest cv c dx dy (obstacles st))).
  { intros Hdy. unfold Spec.afterTest.
    destruct (willCollide c dx dy (obstacles st)); [exact Hy|].
    unfold move. simpl.
    assert (0 <= dy * char_size c).
    { apply Qmult_le_0_compat; [exact Hdy | rewrite Hsz; exact size_nonneg]. }
    cmp_cases; simpl; lra. }
  pose proof (afterTest_size cv c dx dy (obstacles st)) as Hsz1.
  set (c1 := Spec.afterTest cv c dx dy (obstacles st)) in *.
  destruct (dy <? 0) eqn:Edy.
  - assert (E2 : (char_y c >? 50) = true)
      by (unfold Num.gtb; now apply ltb_true_iff).
    rewrite E2, !andb_true_l.
    destruct (char_y c1 <=? 50) eqn:E3.
    + simpl. split; [reflexivity | exact start_below].
    + apply leb_false_iff in E3.
      assert (E4 : (char_y c1 >? 50) = true)
        by (unfold Num.gtb; now apply ltb_true_iff).
      rewrite E4. simpl. split; [reflexivity | exact E3].
  - apply ltb_false_iff in Edy. simpl.
    split; [congruence | now apply Hy1].
Qed.

Lemma moves_belowFinish (reqs : list (Q * Q)) (st : State) :
  Spec.belowFinish cfg st ->
  Spec.belowFinish cfg (moves cfg env reqs st).
Proof.
  revert st. induction reqs as [|[dx dy] reqs' IH]; intros st Hst; simpl.
  - exact Hst.
  - apply IH. now apply moveCharacter_belowFinish.
Qed.

End FinishLine.

(** *** C2: requests blocked by an obstacle *)

(** C2, as stated, fails twice.  In Scenario A the box the request leads
    to, at (100,70), only touches the obstacle at (100,100): the strict test
    does not block, and the character moves to (100,70).  And a request that
    is blocked (the obstacle on the target square) still earns the ten
    points of an upward step. *)
Lemma C2_scenarioA_moves_and_blocked_step_scores :
  (exists c,
     CrossyRoad.character
       (CrossyRoad.moveCharacter CrossyRoad.DEFAULT_SETTINGS Scenarios.field
          0 (- (1 # 1)) Scenarios.sceneA) = Some c /\
     CrossyRoad.char_x c == 100 /\ CrossyRoad.char_y c == 70) /\
  CrossyRoad.willCollide
    (CrossyRoad.newCharacter 100 100 CrossyRoad.DEFAULT_SETTINGS)
    0 (- (1 # 1)) (CrossyRoad.obstacles Scenarios.sceneBlocked) = true /\
  CrossyRoad.score Scenarios.sceneBlocked = 0%Z /\
  CrossyRoad.score
    (CrossyRoad.moveCharacter CrossyRoad.DEFAULT_SETTINGS Scenarios.field
       0 (- (1 # 1)) Scenarios.sceneBlocked) = 10%Z.
Proof.
  split.
  - eexists. split; [vm_compute; reflexivity|]. split; reflexivity.
  - repeat split; vm_compute; reflexivity.
Qed.

(** C2 (amended): a move request whose resulting box would overlap a
    static obstacle (strictly: boxes that only touch do not overlap) leaves
    the character's position, the level, the game-over flag, the cars and
    the obstacles exactly as they were; unless the request points upward
    from below the finish line, it leaves the whole state as it was. *)
Theorem C2_blocked_request_keeps_position
  (cfg : CrossyRoad.Settings) (env : CrossyRoad.Env) (dx dy : Q)
  (st : CrossyRoad.State) (c : CrossyRoad.Character) :
  CrossyRoad.character st = Some c ->
  CrossyRoad.willCollide c dx dy (CrossyRoad.obstacles st) = true ->
  let st' := CrossyRoad.moveCharacter cfg env dx dy st in
  (exists c', CrossyRoad.character st' = Some c' /\
              CrossyRoad.char_x c' = CrossyRoad.char_x c /\
              CrossyRoad.char_y c' = CrossyRoad.char_y c) /\
  CrossyRoad.level st' = CrossyRoad.level st /\
  CrossyRoad.gameOver st' = CrossyRoad.gameOver st /\
  CrossyRoad.cars st' = CrossyRoad.cars st /\
  CrossyRoad.obstacles st' = CrossyRoad.obstacles st /\
  (~ (dy < 0 /\ 50 < CrossyRoad.char_y c) -> st' = st).
Proof.
  intros Hc Hw st'. subst st'. unfold CrossyRoad.moveCharacter.
  rewrite Hc. destruct (CrossyRoad.canvas env) as [cv|].
  2:{ repeat split; try reflexivity. now exists c. }
  destruct (CrossyRoad.gameOver st) eqn:Hg.
  { rewrite Hg. repeat split; try reflexivity. now exists c. }
  rewrite Hw.
  assert (Hno : ((dy <? 0) && (CrossyRoad.char_y c >? 50)
                 && (CrossyRoad.char_y c <=? 50)) = false).
  { cmp_cases; simpl; try reflexivity; lra. }
  rewrite Hno.
  destruct ((dy <? 0) && (CrossyRoad.char_y c >? 50)) eqn:Eup; simpl.
  - repeat split; try reflexivity; try assumption.
    + eexists. split; [reflexivity|]. split; reflexivity.
    + intros Hn. exfalso. apply Hn.
      apply andb_prop in Eup. destruct Eup as [E1 E2].
      unfold Num.gtb in E2. apply ltb_true_iff in E1, E2. split; assumption.
  - repeat split; try reflexivity; try assumption.
    + now exists c.
    + intros _. destruct st. simpl in *. subst. reflexivity.
Qed.

(** The character of Scenario A with the obstacle on the target square:
    the request (0,-1) is blocked and the character remains at (100,100). *)
Lemma C2_blocked_request_keeps_position_witness :
  exists c',
    CrossyRoad.character
      (CrossyRoad.moveCharacter CrossyRoad.DEFAULT_SETTINGS Scenarios.field
         0 (- (1 # 1)) Scenarios.sceneBlocked) = Some c' /\
    CrossyRoad.char_x c' == 100 /\ CrossyRoad.char_y c' == 100.
Proof.
  destruct (C2_blocked_request_keeps_position CrossyRoad.DEFAULT_SETTINGS
              Scenarios.field 0 (- (1 # 1)) Scenarios.sceneBlocked
              (CrossyRoad.newCharacter 100 100 CrossyRoad.DEFAULT_SETTINGS)
              eq_refl eq_refl) as ((c' & Hc' & Hx & Hy) & _).
  exists c'. split; [exact Hc'|]. rewrite Hx, Hy. split; reflexivity.
Defined.

(** *** C6: scoring a step forward *)

(** C6: an accepted upward request made from below the finish line
    ([y > 50]) that brings the character to [y <= 50] raises the level by
    one and the score by exactly 100 and recreates the character on the
    start row, at [y = fieldHeight - size - 10]; one that leaves it at
    [y > 50] raises the score by exactly 10 and leaves level and game-over
    flag as they were. *)
Theorem C6_forward_step_scoring
  (cfg : CrossyRoad.Settings) (env : CrossyRoad.Env) (cv : CrossyRoad.Canvas)
  (dx dy : Q) (st : CrossyRoad.State) (c : CrossyRoad.Character) :
  CrossyRoad.canvas env = Some cv ->
  CrossyRoad.character st = Some c ->
  CrossyRoad.gameOver st = false ->
  CrossyRoad.willCollide c dx dy (CrossyRoad.obstacles st) = false ->
  dy < 0 ->
  let moved :=
    CrossyRoad.move c dx dy (CrossyRoad.width cv) (CrossyRoad.height cv) in
  let st' := CrossyRoad.moveCharacter cfg env dx dy st in
  (50 < CrossyRoad.char_y c -> CrossyRoad.char_y moved <= 50 ->
   CrossyRoad.level st' = (CrossyRoad.level st + 1)%Z /\
   CrossyRoad.score st' = (CrossyRoad.score st + 100)%Z /\
   exists c', CrossyRoad.character st' = Some c' /\
              CrossyRoad.char_y c'
              = CrossyRoad.height cv - CrossyRoad.char_size c' - 10 /\
              CrossyRoad.char_x c' = CrossyRoad.char_x moved) /\
  (50 < CrossyRoad.char_y moved ->
   CrossyRoad.score st' = (CrossyRoad.score st + 10)%Z /\
   CrossyRoad.level st' = CrossyRoad.level st /\
   CrossyRoad.gameOver st' = CrossyRoad.gameOver st /\
   exists c', CrossyRoad.character st' = Some c' /\
              CrossyRoad.char_x c' = CrossyRoad.char_x moved /\
              CrossyRoad.char_y c' = CrossyRoad.char_y moved).
Proof.
  intros Hcv Hc Hg Hw Hdy moved st'. subst st'.
  unfold CrossyRoad.moveCharacter. rewrite Hc, Hcv, Hg, Hw. fold moved.
  assert (E1 : (dy <? 0) = true) by now apply ltb_true_iff.
  rewrite E1, !andb_true_l. split.
  - intros Hold Hcross.
    assert (E2 : (CrossyRoad.char_y c >? 50) = true)
      by (unfold Num.gtb; now apply ltb_true_iff).
    apply leb_true_iff in Hcross. rewrite E2, Hcross.
    split; [reflexivity|]. split; [reflexivity|].
    eexists. split; [reflexivity|]. split; reflexivity.
  - intros Hshort.
    assert (E3 : (CrossyRoad.char_y moved <=? 50) = false)
      by now apply leb_false_iff.
    assert (E4 : (CrossyRoad.char_y moved >? 50) = true)
      by (unfold Num.gtb; now apply ltb_true_iff).
    rewrite E3, E4, andb_false_r.
    split; [reflexivity|]. split; [reflexivity|]. split; [reflexivity|].
    eexists. split; [reflexivity|]. split; reflexivity.
Qed.

(** Scenario B: from (100,60) the request (0,-1) reaches [y = 30]; the
    level becomes 2, the score 100, and the character is back at
    [y = 600 - 30 - 10].  From (385,560) the same request only earns ten
    points. *)
Lemma C6_forward_step_scoring_witness :
  (CrossyRoad.level
     (CrossyRoad.moveCharacter CrossyRoad.DEFAULT_SETTINGS Scenarios.field
        0 (- (1 # 1)) Scenarios.sceneB) = 2%Z /\
   CrossyRoad.score
     (CrossyRoad.moveCharacter CrossyRoad.DEFAULT_SETTINGS Scenarios.field
        0 (- (1 # 1)) Scenarios.sceneB) = 100%Z /\
   exists c',
     CrossyRoad.character
       (CrossyRoad.moveCharacter CrossyRoad.DEFAULT_SETTINGS Scenarios.field
          0 (- (1 # 1)) Scenarios.sceneB) = Some c' /\
     CrossyRoad.char_y c' == 560) /\
  CrossyRoad.score
    (CrossyRoad.moveCharacter CrossyRoad.DEFAULT_SETTINGS Scenarios.field
       0 (- (1 # 1)) Scenarios.sceneStart) = 10%Z /\
  CrossyRoad.level
    (CrossyRoad.moveCharacter CrossyRoad.DEFAULT_SETTINGS Scenarios.field
       0 (- (1 # 1)) Scenarios.sceneStart) = 1%Z.
Proof.
  split.
  - destruct (C6_forward_step_scoring CrossyRoad.DEFAULT_SETTINGS
                Scenarios.field (CrossyRoad.mkCanvas 800 600) 0 (- (1 # 1))
                Scenarios.sceneB
                (CrossyRoad.newCharacter 100 60 CrossyRoad.DEFAULT_SETTINGS)
                eq_refl eq_refl eq_refl eq_refl) as [Hcross _].
    + lra.
    + destruct Hcross as (Hl & Hs & c' & Hc' & Hy & _).
      * simpl. lra.
      * vm_compute. discriminate.
      * split; [exact Hl|]. split; [exact Hs|].
        exists c'. split; [exact Hc'|].
        rewrite Hy.
        assert (Hsz : CrossyRoad.char_size c' = 30).
        { vm_compute in Hc'. injection Hc' as <-. reflexivity. }
        rewrite Hsz. simpl. lra.
  - destruct (C6_forward_step_scoring CrossyRoad.DEFAULT_SETTINGS
                Scenarios.field (CrossyRoad.mkCanvas 800 600) 0 (- (1 # 1))
                Scenarios.sceneStart
                (CrossyRoad.newCharacter 385 560 CrossyRoad.DEFAULT_SETTINGS)
                eq_refl eq_refl eq_refl eq_refl) as [_ Hstep].
    + lra.
    + destruct Hstep as (Hs & Hl & _).
      * vm_compute. reflexivity.
      * split; [exact Hs | exact Hl].
Defined.

(** ** High-score submission *)

Section HighScores.

Import FlappyBird.

Lemma fold_min_spec (xs : list Z) (a : Z) :
  let m := fold_left Z.min xs a in
  (m = a \/ In m xs) /\ (m <= a)%Z /\ (forall x, In x xs -> (m <= x)%Z).
Proof.
  revert a. induction xs as [|x xs' IH]; intros a; simpl.
  - split; [now left|]. split; [lia|]. intros x [].
  - destruct (IH (Z.min a x)) as ([Hm | Hm] & Hle & Hall).
    + split; [|split].
      * destruct (Z.min_spec a x) as [[_ E] | [_ E]]; rewrite E in *;
          [now left | right; left; now symmetry].
      * lia.
      * intros y [<- | Hy]; [lia | now apply Hall].
    + split; [|split].
      * right. now right.
      * lia.
      * intros y [<- | Hy]; [lia | now apply Hall].
Qed.

(** [Math.min] of a non-empty list is its least element. *)
Lemma Math_min_spec (xs : list Z) :
  xs <> [] ->
  exists m, Math_min xs = Some m /\ In m xs /\
            (forall x, In x xs -> (m <= x)%Z).
Proof.
  destruct xs as [|a xs']; [congruence|]. intros _.
  destruct (fold_min_spec xs' a) as (Hin & Hle & Hall).
  exists (fold_left Z.min xs' a). split; [reflexivity|]. split.
  - simpl. destruct Hin as [-> | Hin]; auto.
  - intros x [<- | Hx]; [exact Hle | now apply Hall].
Qed.

Lemma insertDesc_In (r x : HighScore) (rows : list HighScore) :
  In x (insertDesc r rows) <-> x = r \/ In x rows.
Proof.
  induction rows as [|r' rows' IH]; simpl.
  - intuition congruence.
  - destruct (hs_score r' <? hs_score r)%Z; simpl.
    + intuition congruence.
    + rewrite IH. intuition congruence.
Qed.

Lemma insertDesc_length (r : HighScore) (rows : list HighScore) :
  length (insertDesc r rows) = S (length rows).
Proof.
  induction rows as [|r' rows' IH]; simpl; [reflexivity|].
  destruct (hs_score r' <? hs_score r)%Z; simpl; [reflexivity|].
  now rewrite IH.
Qed.

(** Ordering the rows neither loses nor invents one. *)
Lemma orderDesc_In (x : HighScore) (rows : list HighScore) :
  In x (orderDesc rows) <-> In x rows.
Proof.
  unfold orderDesc. rewrite (in_rev rows x).
  induction (rev rows) as [|r l IH]; simpl; [tauto|].
  rewrite insertDesc_In, IH. intuition congruence.
Qed.

Lemma orderDesc_length (rows : list HighScore) :
  length (orderDesc rows) = length rows.
Proof.
  unfold orderDesc. rewrite <- (length_rev rows).
  induction (rev rows) as [|r l IH]; simpl; [reflexivity|].
  now rewrite insertDesc_length, IH.
Qed.

(** The lowest score the submission compares with. *)
Lemma lowest_of_board (rows : list HighScore) :
  (3 <= length rows)%nat ->
  exists lowest,
    Math_min (map hs_score (orderDesc rows)) = Some lowest /\
    (exists r, In r rows /\ hs_score r = lowest) /\
    (forall r, In r rows -> (lowest <= hs_score r)%Z).
Proof.
  intros Hlen.
  destruct (Math_min_spec (map hs_score (orderDesc rows))) as (m & Hm & Hin & Hall).
  - intros E. apply (f_equal (@length Z)) in E.
    rewrite length_map, orderDesc_length in E. simpl in E. lia.
  - exists m. split; [exact Hm|]. split.
    + apply in_map_iff in Hin. destruct Hin as (r & Hr & Hin).
      exists r. split; [now apply orderDesc_In | exact Hr].
    + intros r Hr. apply Hall. apply in_map. now apply orderDesc_In.
Qed.

End HighScores.




(** ** Spawning cars *)

Section Spawner.

Import CrossyRoad.

Variable cfg : Settings.
Variable env : Env.

Lemma pickLane_cons (nl : Z) (used : gset Z) (r : Q) (rs : list Q) :
  pickLane nl used (r :: rs)
  = if decide (Num.floor (r * Num.ofZ nl) ∈ used)
    then pickLane nl used rs
    else Some (Num.floor (r * Num.ofZ nl), rs).
Proof. reflexivity. Qed.

(** The lane the rejection loop returns is not in use. *)
Lemma pickLane_fresh (nl : Z) (used : gset Z) (rs rs' : list Q) (lane : Z) :
  pickLane nl used rs = Some (lane, rs') -> lane ∉ used.
Proof.
  induction rs as [|r rs1 IH]; [discriminate|].
  rewrite pickLane_cons.
  destruct (decide (Num.floor (r * Num.ofZ nl) ∈ used)) as [Hin | Hout].
  - exact IH.
  - intros [= <- _]. exact Hout.
Qed.

(** The rejection loop ends as soon as the oracle offers a free lane. *)
Lemma pickLane_total (nl : Z) (used : gset Z) (rs : list Q) :
  Exists (fun r => Num.floor (r * Num.ofZ nl) ∉ used) rs ->
  exists lane rs', pickLane nl used rs = Some (lane, rs').
Proof.
  induction 1 as [r rs1 Hfree | r rs1 _ IH]; rewrite pickLane_cons.
  - destruct (decide (Num.floor (r * Num.ofZ nl) ∈ used)); [contradiction|].
    eauto.
  - destruct (decide (Num.floor (r * Num.ofZ nl) ∈ used)); eauto.
Qed.

(** The [for] loop adds one car per iteration, each in a lane no earlier
    car of the call took. *)
Lemma spawnLoop_spec (lvl nl : Z) (n : nat) :
  forall (used : gset Z) (acc : list Car) (rs : list Q)
         (result : list Car) (rs' : list Q),
  spawnLoop cfg env lvl nl n used acc rs = Some (result, rs') ->
  exists (lanes : list Z) (new : list Car),
    result = acc ++ new /\
    length new = n /\
    map car_y new = map Spec.laneY lanes /\
    List.NoDup lanes /\
    (forall l, In l lanes -> l ∉ used).
Proof.
  induction n as [|n IH]; intros used acc rs result rs' Hrun.
  - injection Hrun as <- _. exists [], [].
    rewrite app_nil_r. repeat split; try reflexivity; [constructor|].
    intros l [].
  - simpl in Hrun. unfold Rand.bind in Hrun.
    destruct (pickLane nl used rs) as [[lane rs1]|] eqn:Hlane; [|discriminate].
    unfold Rand.random in Hrun.
    destruct rs1 as [|r rs2]; [discriminate|].
    destruct rs2 as [|r' rs3]; [discriminate|].
    apply IH in Hrun. destruct Hrun as (lanes & new & -> & Hlen & Hy & Hnd & Hfresh).
    eexists (lane :: lanes), (_ :: new).
    rewrite <- app_assoc. split; [reflexivity|].
    split; [simpl; now rewrite Hlen|].
    split; [simpl; now rewrite Hy|].
    split.
    + constructor; [|exact Hnd].
      intros Hin. apply Hfresh in Hin. set_solver.
    + intros l [<- | Hl].
      * now apply pickLane_fresh in Hlane.
      * apply Hfresh in Hl. set_solver.
Qed.

(** [Math.ceil] of a zero roll is zero, whatever the maximum. *)
Lemma ceil_zero_roll (m : Z) : Num.ceil (0 * Num.ofZ m) = 0%Z.
Proof. reflexivity. Qed.

(** A non-zero roll gives between one car and the maximum. *)
Lemma ceil_positive_roll (r : Q) (m : Z) :
  0 < r -> r < 1 -> (1 <= m)%Z ->
  (1 <= Num.ceil (r * Num.ofZ m) <= m)%Z.
Proof.
  intros H0 H1 Hm. unfold Num.ceil, Num.ofZ.
  assert (HM : 1 <= inject_Z m).
  { change (inject_Z 1 <= inject_Z m). rewrite <- Zle_Qle. exact Hm. }
  assert (Hpos : 0 < r * inject_Z m).
  { apply Qmult_lt_0_compat; lra. }
  assert (Hlt : r * inject_Z m < 1 * inject_Z m).
  { apply Qmult_lt_compat_r; lra. }
  pose proof (Qle_ceiling (r * inject_Z m)) as Hup.
  pose proof (Qceiling_lt (r * inject_Z m)) as Hdown.
  split.
  - assert (H : (0 < Qceiling (r * inject_Z m))%Z).
    { rewrite Zlt_Qlt. change (inject_Z 0) with 0. lra. }
    lia.
  - assert (H : (Qceiling (r * inject_Z m) - 1 < m)%Z).
    { rewrite Zlt_Qlt. lra. }
    lia.
Qed.

Lemma carsToSpawn_zero_roll (chance r : Q) (m : Z) (rs : list Q) :
  r < chance ->
  carsToSpawn chance m (r :: 0 :: rs) = Some (0%Z, rs).
Proof.
  intros Hc. unfold carsToSpawn, Rand.bind, Rand.random, Rand.ret.
  assert (E : (r <? chance) = true) by now apply ltb_true_iff.
  rewrite E. reflexivity.
Qed.

Lemma carsToSpawn_positive (chance : Q) (m : Z) (rs rs' : list Q) (n : Z) :
  Spec.positiveRolls rs -> (1 <= m)%Z ->
  carsToSpawn chance m rs = Some (n, rs') ->
  (1 <= n <= m)%Z /\ Spec.positiveRolls rs'.
Proof.
  intros Hrs Hm. unfold carsToSpawn, Rand.bind, Rand.random, Rand.ret.
  destruct rs as [|r rs1]; [discriminate|].
  apply Forall_cons_1 in Hrs as [_ Hrs1].
  destruct (r <? chance).
  - destruct rs1 as [|r' rs2]; [discriminate|].
    apply Forall_cons_1 in Hrs1 as [[H0 H1] Hrs2].
    intros [= <- <-]. split; [now apply ceil_positive_roll | exact Hrs2].
  - intros [= <- <-]. split; [lia | exact Hrs1].
Qed.

Lemma maxCarsToSpawn_range (lvl : Z) :
  (0 <= lvl)%Z -> (1 <= maxCarsToSpawn lvl <= 3)%Z.
Proof.
  intros Hl. unfold maxCarsToSpawn, Num.floor, Num.ofZ.
  assert (H : (0 <= Qfloor (inject_Z lvl / 3))%Z).
  { replace 0%Z with (Qfloor 0) by reflexivity.
    apply Qfloor_resp_le. apply Qle_shift_div_l; [lra|].
    rewrite Zle_Qle in Hl. change (inject_Z 0) with 0 in Hl. lra. }
  lia.
Qed.

(** A zero roll after a successful first roll: the call resets the
    cooldown and adds no car. *)
Lemma spawnCar_zero_roll (cv : Canvas) (st : State) (r : Q) (rs : list Q) :
  canvas env = Some cv ->
  cooldownElapsed cfg env st = true ->
  r < totalSpawnChance cfg (level st) ->
  exists st',
    spawnCar cfg env st (r :: 0 :: rs) = Some (st', rs) /\
    cars st' = cars st /\ lastSpawnTime st' = now env.
Proof.
  intros Hcv Hcool Hchance. unfold spawnCar. rewrite Hcv.
  unfold cooldownElapsed in Hcool. apply negb_true_iff in Hcool.
  rewrite Hcool. unfold Rand.bind at 1.
  rewrite (carsToSpawn_zero_roll _ _ _ _ Hchance). simpl.
  eexists. split; [reflexivity|]. simpl. split; [apply app_nil_r | reflexivity].
Qed.

(** With no zero among the rolls, a call that passes the cooldown adds
    between one and three cars, in pairwise different lanes. *)
Lemma spawnCar_adds_cars (cv : Canvas) (st st' : State) (rs rs' : list Q) :
  canvas env = Some cv ->
  cooldownElapsed cfg env st = true ->
  (0 <= level st)%Z ->
  Spec.positiveRolls rs ->
  spawnCar cfg env st rs = Some (st', rs') ->
  exists (lanes : list Z) (new : list Car),
    cars st' = cars st ++ new /\
    (1 <= length new <= 3)%nat /\
    map car_y new = map Spec.laneY lanes /\
    List.NoDup lanes.
Proof.
  intros Hcv Hcool Hlvl Hrs. unfold spawnCar. rewrite Hcv.
  unfold cooldownElapsed in Hcool. apply negb_true_iff in Hcool.
  rewrite Hcool. unfold Rand.bind at 1.
  destruct (carsToSpawn _ _ rs) as [[n rs1]|] eqn:Hn; [|discriminate].
  destruct (maxCarsToSpawn_range (level st) Hlvl) as [Hm1 Hm3].
  destruct (carsToSpawn_positive _ _ _ _ _ Hrs Hm1 Hn) as [Hrange _].
  unfold Rand.bind.
  destruct (spawnLoop _ _ _ _ _ _ _ rs1) as [[result rs2]|] eqn:Hloop;
    [|discriminate].
  intros [= <- <-]. simpl.
  apply spawnLoop_spec in Hloop.
  destruct Hloop as (lanes & new & -> & Hlen & Hy & Hnd & _).
  exists lanes, new. split; [reflexivity|].
  split; [rewrite Hlen; lia|]. split; assumption.
Qed.

End Spawner.

(** C10 fails on the code for one roll.  On a fresh game (level 1, default
    settings, the cooldown elapsed, eight lanes on the 800 by 600 canvas),
    when [Math.random] returns 0.01 and then 0, the first roll passes the
    spawn chance 0.022 and the second gives [Math.ceil (0 * 1) = 0] cars: the
    call resets the cooldown and adds no car. *)
Theorem C10_zero_roll_spawns_no_car :
  CrossyRoad.cooldownElapsed CrossyRoad.DEFAULT_SETTINGS Scenarios.field
    Scenarios.sceneStart = true /\
  CrossyRoad.numLanes (CrossyRoad.mkCanvas 800 600) = 8%Z /\
  CrossyRoad.totalSpawnChance CrossyRoad.DEFAULT_SETTINGS 1 == 22 # 1000 /\
  exists st',
    CrossyRoad.spawnCar CrossyRoad.DEFAULT_SETTINGS Scenarios.field
      Scenarios.sceneStart [1 # 100; 0] = Some (st', []) /\
    CrossyRoad.cars st' = CrossyRoad.cars Scenarios.sceneStart /\
    CrossyRoad.cars st' = [] /\
    CrossyRoad.lastSpawnTime st' = 5000.
Proof.
  split; [reflexivity|]. split; [reflexivity|]. split; [reflexivity|].
  eexists. split; [vm_compute; reflexivity|].
  repeat split; reflexivity.
Qed.

(** On level 3 (two cars at most) the rolls 0.01 and 0.9 ask for two cars;
    the second car first draws the lane of the first (lane 4), which is
    rejected, and then lane 2: the call adds two cars, in lanes 4 and 2. *)
Lemma spawnCar_two_cars :
  exists st',
    CrossyRoad.spawnCar CrossyRoad.DEFAULT_SETTINGS Scenarios.field
      (Scenarios.sceneWith 385 560 [] 3)
      [1 # 100; 9 # 10; 1 # 2; 7 # 10; 1 # 2; 1 # 2; 1 # 4; 2 # 10; 1 # 2]
    = Some (st', []) /\
    map CrossyRoad.car_y (CrossyRoad.cars st')
    = map Spec.laneY [4; 2]%Z.
Proof. eexists. split; vm_compute; reflexivity. Qed.

(** * Further properties of the two games *)

(** ** The pipe game: sessions of frames and jumps *)

Section FlappySessions.

Import FlappyBird.

Variable cfg : Settings.

Lemma frames_idle (envs : list Env) (st : State) :
  gameStarted st = false \/ gameOver st = true -> frames cfg envs st = st.
Proof.
  intros H. induction envs as [|e envs' IH]; simpl; [reflexivity|].
  rewrite (gameLoop_idle cfg e st H). exact IH.
Qed.

Lemma jump_position (st : State) :
  birdPosition (jump cfg st) = birdPosition st.
Proof. unfold jump. destruct (negb (gameOver st)); reflexivity. Qed.

Lemma jump_rotation (st : State) :
  birdRotation (jump cfg st) = - (30 # 1) \/
  birdRotation (jump cfg st) = birdRotation st.
Proof. unfold jump. destruct (negb (gameOver st)); simpl; auto. Qed.

Lemma gameLoop_rotation_range (env : Env) (st : State) :
  - (30 # 1) <= birdRotation st <= 90 ->
  - (30 # 1) <= birdRotation (gameLoop cfg env st) <= 90.
Proof.
  intros Hr. unfold gameLoop.
  destruct (negb (gameStarted st) || gameOver st); [exact Hr|].
  simpl. unfold Num.min. cmp_cases; lra.
Qed.

(** Score and high score only grow, and the high score covers the
    score. *)
Lemma scorePipes_order (ps : list PipeData) (s hs : Z) :
  (s <= hs)%Z ->
  (s <= fst (scorePipes cfg ps (s, hs)))%Z /\
  (hs <= snd (scorePipes cfg ps (s, hs)))%Z /\
  (fst (scorePipes cfg ps (s, hs)) <= snd (scorePipes cfg ps (s, hs)))%Z.
Proof.
  unfold scorePipes. revert s hs.
  induction ps as [|p ps' IH]; intros s hs Hle; simpl; [lia|].
  destruct (passesBird cfg p); simpl.
  - destruct (IH (s + 1)%Z (Z.max hs (s + 1))) as (H1 & H2 & H3); lia.
  - now apply IH.
Qed.

Lemma iter_scorePipes_order (k : nat) (ps : list PipeData) (s hs : Z) :
  (s <= hs)%Z ->
  (s <= fst (Nat.iter k (scorePipes cfg ps) (s, hs)))%Z /\
  (hs <= snd (Nat.iter k (scorePipes cfg ps) (s, hs)))%Z /\
  (fst (Nat.iter k (scorePipes cfg ps) (s, hs))
   <= snd (Nat.iter k (scorePipes cfg ps) (s, hs)))%Z.
Proof.
  intros Hle. induction k as [|k IH].
  - simpl. lia.
  - change (Nat.iter (S k) (scorePipes cfg ps) (s, hs))
      with (scorePipes cfg ps (Nat.iter k (scorePipes cfg ps) (s, hs))).
    destruct (Nat.iter k (scorePipes cfg ps) (s, hs)) as [s' hs'].
    cbn [fst snd] in IH. destruct IH as (H1 & H2 & H3).
    destruct (scorePipes_order ps s' hs' H3) as (H4 & H5 & H6). lia.
Qed.

Lemma gameLoop_scores (env : Env) (st : State) :
  (score st <= highScore st)%Z ->
  (score st <= score (gameLoop cfg env st))%Z /\
  (highScore st <= highScore (gameLoop cfg env st))%Z /\
  (score (gameLoop cfg env st) <= highScore (gameLoop cfg env st))%Z.
Proof.
  intros Hle. unfold gameLoop.
  destruct (negb (gameStarted st) || gameOver st); [lia|].
  cbn [score highScore]. now apply iter_scorePipes_order.
Qed.

Lemma jump_scores (st : State) :
  score (jump cfg st) = score st /\ highScore (jump cfg st) = highScore st.
Proof. unfold jump. destruct (negb (gameOver st)); split; reflexivity. Qed.

Lemma advancePipes_length (ps : list PipeData) :
  (length (advancePipes cfg ps) <= length ps)%nat.
Proof.
  unfold advancePipes.
  etransitivity; [apply filter_length_le|]. now rewrite length_map.
Qed.

Lemma advancePipes_kept (ps : list PipeData) :
  Forall (fun p => - (100 # 1) < pipe_x p) (advancePipes cfg ps).
Proof.
  unfold advancePipes. apply List.Forall_forall. intros p Hp.
  apply filter_In in Hp. destruct Hp as [_ Hp].
  unfold Num.gtb in Hp. now apply ltb_true_iff in Hp.
Qed.

End FlappySessions.

(** X1: frames asked for before the first jump or after game-over change
    nothing at all, however many there are: bird, pipes, score and counters
    stay as they were. *)
Theorem X1_frames_idle_unless_running
  (cfg : FlappyBird.Settings) (envs : list FlappyBird.Env)
  (st : FlappyBird.State) :
  FlappyBird.gameStarted st = false \/ FlappyBird.gameOver st = true ->
  FlappyBird.frames cfg envs st = st.
Proof. apply frames_idle. Qed.

Lemma X1_frames_idle_unless_running_witness :
  FlappyBird.frames FlappyBird.DEFAULT_SETTINGS
    [Scenarios.envC; Scenarios.envSpawn; Scenarios.envC]
    (FlappyBird.initialState 7)
  = FlappyBird.initialState 7.
Proof.
  apply (X1_frames_idle_unless_running FlappyBird.DEFAULT_SETTINGS).
  left. reflexivity.
Defined.

(** X2: through any session of frames and jumps in a window of fixed
    height, a bird that is inside the field stays inside it. *)
Theorem X2_bird_stays_in_field
  (cfg : FlappyBird.Settings) (env : FlappyBird.Env)
  (inputs : list FlappySession.Input) (st : FlappyBird.State) :
  Forall (FlappySession.sameHeight env) inputs ->
  Spec.birdInField env (FlappyBird.birdPosition st) ->
  Spec.birdInField env
    (FlappyBird.birdPosition (FlappySession.run cfg inputs st)).
Proof.
  intros Hin. revert st.
  induction Hin as [|i inputs' Hi _ IH]; intros st Hst; simpl; [exact Hst|].
  apply IH. destruct i as [e|]; simpl in *.
  - unfold Spec.birdInField in *. rewrite <- Hi in *.
    now apply gameLoop_bird_in_field.
  - now rewrite jump_position.
Qed.

Lemma X2_bird_stays_in_field_witness :
  Spec.birdInField Scenarios.envC
    (FlappyBird.birdPosition
       (FlappySession.run FlappyBird.DEFAULT_SETTINGS
          [FlappySession.Jump; FlappySession.Tick Scenarios.envC;
           FlappySession.Tick Scenarios.envSpawn]
          (FlappyBird.initialState 0))).
Proof.
  apply X2_bird_stays_in_field.
  - repeat constructor.
  - unfold Spec.birdInField. simpl. lra.
Defined.

(** X3: through any session the bird's rotation stays between the jump
    tilt of -30 and the cap of 90. *)
Theorem X3_rotation_stays_in_range
  (cfg : FlappyBird.Settings) (inputs : list FlappySession.Input)
  (st : FlappyBird.State) :
  - (30 # 1) <= FlappyBird.birdRotation st <= 90 ->
  - (30 # 1) <= FlappyBird.birdRotation (FlappySession.run cfg inputs st) <= 90.
Proof.
  revert st. induction inputs as [|i inputs' IH]; intros st Hst; simpl;
    [exact Hst|].
  apply IH. destruct i as [e|]; simpl.
  - now apply gameLoop_rotation_range.
  - destruct (jump_rotation cfg st) as [-> | ->]; [lra | exact Hst].
Qed.

Lemma X3_rotation_stays_in_range_witness :
  - (30 # 1) <=
  FlappyBird.birdRotation
    (FlappySession.run FlappyBird.DEFAULT_SETTINGS
       [FlappySession.Jump; FlappySession.Tick Scenarios.envC]
       (FlappyBird.initialState 0)) <= 90.
Proof.
  apply X3_rotation_stays_in_range. simpl. lra.
Defined.

(** X4: a jump made while the game is not over takes effect on the next
    frame whatever the bird's velocity was: the frame moves the bird by
    exactly [jumpForce] (if that stays in the field), leaves it with
    velocity [jumpForce + gravity] and rotation -30 + 3, and the game is
    running. *)
Theorem X4_jump_discards_velocity
  (cfg : FlappyBird.Settings) (env : FlappyBird.Env) (st : FlappyBird.State) :
  FlappyBird.gameOver st = false ->
  Spec.birdInField env (FlappyBird.birdPosition st + FlappyBird.jumpForce cfg) ->
  let st' := FlappyBird.gameLoop cfg env (FlappyBird.jump cfg st) in
  FlappyBird.gameStarted st' = true /\
  FlappyBird.birdPosition st'
    = FlappyBird.birdPosition st + FlappyBird.jumpForce cfg /\
  FlappyBird.birdVelocity st'
    = FlappyBird.jumpForce cfg + FlappyBird.gravity cfg /\
  FlappyBird.birdRotation st' == - (27 # 1).
Proof.
  intros Ho Hin st'. subst st'.
  assert (Hj : FlappyBird.jump cfg st
    = {| FlappyBird.gameStarted := true; FlappyBird.gameOver := false;
         FlappyBird.scoreSubmitted := FlappyBird.scoreSubmitted st;
         FlappyBird.birdPosition := FlappyBird.birdPosition st;
         FlappyBird.birdVelocity := FlappyBird.jumpForce cfg;
         FlappyBird.birdRotation := - (30 # 1);
         FlappyBird.pipes := FlappyBird.pipes st;
         FlappyBird.score := FlappyBird.score st;
         FlappyBird.highScore := FlappyBird.highScore st;
         FlappyBird.lastPipe := FlappyBird.lastPipe st;
         FlappyBird.frameCount := FlappyBird.frameCount st |}).
  { unfold FlappyBird.jump. rewrite Ho. simpl.
    destruct (FlappyBird.gameStarted st); reflexivity. }
  rewrite Hj. split; [reflexivity|]. split; [|split].
  - now apply gameLoop_position_in.
  - now apply gameLoop_velocity.
  - unfold FlappyBird.gameLoop. simpl. reflexivity.
Qed.

Lemma X4_jump_discards_velocity_witness :
  FlappyBird.birdPosition
    (FlappyBird.gameLoop FlappyBird.DEFAULT_SETTINGS Scenarios.envC
       (FlappyBird.jump FlappyBird.DEFAULT_SETTINGS Scenarios.birdC))
  == 291 /\
  FlappyBird.birdVelocity
    (FlappyBird.gameLoop FlappyBird.DEFAULT_SETTINGS Scenarios.envC
       (FlappyBird.jump FlappyBird.DEFAULT_SETTINGS Scenarios.birdC))
  == - (84 # 10).
Proof.
  destruct (X4_jump_discards_velocity FlappyBird.DEFAULT_SETTINGS
              Scenarios.envC Scenarios.birdC eq_refl) as (_ & Hp & Hv & _).
  - unfold Spec.birdInField. simpl. lra.
  - rewrite Hp, Hv. simpl. split; lra.
Defined.

(** [resetGame] stops the game and clears bird, pipes and score, but
    keeps the high score and the frame counter; frames after a reset do
    nothing until a jump, which starts a new game from position 300 with
    the jump velocity. *)
Theorem reset_waits_for_a_jump
  (cfg : FlappyBird.Settings) (envs : list FlappyBird.Env)
  (st : FlappyBird.State) :
  FlappyBird.frames cfg envs (FlappyBird.resetGame st)
    = FlappyBird.resetGame st /\
  let st' := FlappyBird.jump cfg (FlappyBird.resetGame st) in
  FlappyBird.gameStarted st' = true /\
  FlappyBird.gameOver st' = false /\
  FlappyBird.birdPosition st' = 300 /\
  FlappyBird.birdVelocity st' = FlappyBird.jumpForce cfg /\
  FlappyBird.pipes st' = [] /\
  FlappyBird.score st' = 0%Z /\
  FlappyBird.scoreSubmitted st' = false /\
  FlappyBird.highScore st' = FlappyBird.highScore st /\
  FlappyBird.frameCount st' = FlappyBird.frameCount st.
Proof.
  split.
  - apply frames_idle. left. reflexivity.
  - cbv zeta. repeat split; reflexivity.
Qed.

(** X5: through any session the score and the high score never decrease,
    and a high score that covers the score keeps covering it. *)
Theorem X5_high_score_covers_score
  (cfg : FlappyBird.Settings) (inputs : list FlappySession.Input)
  (st : FlappyBird.State) :
  (FlappyBird.score st <= FlappyBird.highScore st)%Z ->
  let st' := FlappySession.run cfg inputs st in
  (FlappyBird.score st <= FlappyBird.score st')%Z /\
  (FlappyBird.highScore st <= FlappyBird.highScore st')%Z /\
  (FlappyBird.score st' <= FlappyBird.highScore st')%Z.
Proof.
  cbv zeta. revert st.
  induction inputs as [|i inputs' IH]; intros st Hst; simpl; [lia|].
  destruct i as [e|]; simpl.
  - destruct (gameLoop_scores cfg e st Hst) as (H1 & H2 & H3).
    destruct (IH _ H3) as (H4 & H5 & H6). lia.
  - destruct (jump_scores cfg st) as [Hs Hh].
    assert (H3 : (FlappyBird.score (FlappyBird.jump cfg st)
                  <= FlappyBird.highScore (FlappyBird.jump cfg st))%Z)
      by (rewrite Hs, Hh; exact Hst).
    destruct (IH _ H3) as (H4 & H5 & H6). rewrite Hs, Hh in *. lia.
Qed.

(** A pair at 97 passes the bird in the first frame: score and high score
    both go from 0 to 1. *)
Lemma X5_high_score_covers_score_witness :
  FlappyBird.score
    (FlappySession.run FlappyBird.DEFAULT_SETTINGS
       [FlappySession.Tick Scenarios.envC; FlappySession.Jump]
       Scenarios.birdAtPipe) = 1%Z /\
  (1 <= FlappyBird.highScore
          (FlappySession.run FlappyBird.DEFAULT_SETTINGS
             [FlappySession.Tick Scenarios.envC; FlappySession.Jump]
             Scenarios.birdAtPipe))%Z.
Proof.
  destruct (X5_high_score_covers_score FlappyBird.DEFAULT_SETTINGS
              [FlappySession.Tick Scenarios.envC; FlappySession.Jump]
              Scenarios.birdAtPipe) as (_ & _ & H).
  - simpl. lia.
  - assert (E : FlappyBird.score
             (FlappySession.run FlappyBird.DEFAULT_SETTINGS
                [FlappySession.Tick Scenarios.envC; FlappySession.Jump]
                Scenarios.birdAtPipe) = 1%Z) by (vm_compute; reflexivity).
    rewrite E in *. split; [reflexivity | exact H].
Defined.

(** ** The pipe game: the spawn gate *)

Section SpawnGate.

Import FlappyBird.

Variable cfg : Settings.

Lemma gameLoop_frameCount (env : Env) (st : State) :
  (frameCount (gameLoop cfg env st) <= frameCount st + 1)%Z.
Proof.
  unfold gameLoop. destruct (negb (gameStarted st) || gameOver st); simpl; lia.
Qed.

Lemma jump_pipes (st : State) :
  pipes (jump cfg st) = pipes st /\ frameCount (jump cfg st) = frameCount st.
Proof. unfold jump. destruct (negb (gameOver st)); split; reflexivity. Qed.

Lemma gameLoop_no_spawn_early (env : Env) (st : State) :
  (frameCount st < 60)%Z ->
  pipes (gameLoop cfg env st) = pipes st \/
  pipes (gameLoop cfg env st) = advancePipes cfg (pipes st).
Proof.
  intros Hf. unfold gameLoop.
  destruct (negb (gameStarted st) || gameOver st); [now left|].
  right. simpl.
  assert (E : (frameCount st + 1 >? 60)%Z = false) by lia.
  rewrite E, andb_false_r. reflexivity.
Qed.

(** What one frame does to the list of pairs. *)
Lemma gameLoop_pipes_cases (env : Env) (st : State) :
  pipes (gameLoop cfg env st) = pipes st \/
  pipes (gameLoop cfg env st) = advancePipes cfg (pipes st) \/
  (pipes (gameLoop cfg env st)
     = spawnPipe cfg env (advancePipes cfg (pipes st)) /\
   pipeSpawnRate cfg < now env - lastPipe st /\
   (60 <= frameCount st)%Z /\
   lastPipe (gameLoop cfg env st) = now env).
Proof.
  unfold gameLoop.
  destruct (negb (gameStarted st) || gameOver st); [now left|].
  right. simpl.
  destruct ((now env - lastPipe st >? pipeSpawnRate cfg)
            && (frameCount st + 1 >? 60)%Z) eqn:E; [|now left].
  right. apply andb_prop in E. destruct E as [E1 E2].
  unfold Num.gtb in E1. apply ltb_true_iff in E1.
  repeat split; [exact E1 | lia].
Qed.

End SpawnGate.

(** X6: no pipe pair appears before the sixty-first frame: starting
    without pairs and with the frame counter at [n], a session of at most
    [60 - n] frames and jumps ends without pairs. *)
Theorem X6_no_pair_in_first_sixty_frames
  (cfg : FlappyBird.Settings) (inputs : list FlappySession.Input)
  (st : FlappyBird.State) :
  FlappyBird.pipes st = [] ->
  (FlappyBird.frameCount st + Z.of_nat (length inputs) <= 60)%Z ->
  FlappyBird.pipes (FlappySession.run cfg inputs st) = [].
Proof.
  revert st. induction inputs as [|i inputs' IH]; intros st Hp Hf;
    [exact Hp|].
  simpl length in Hf. simpl. apply IH.
  - destruct i as [e|]; simpl.
    + destruct (gameLoop_no_spawn_early cfg e st) as [-> | ->];
        [lia | exact Hp | rewrite Hp; reflexivity].
    + now rewrite (proj1 (jump_pipes cfg st)).
  - destruct i as [e|]; simpl.
    + pose proof (gameLoop_frameCount cfg e st). lia.
    + rewrite (proj2 (jump_pipes cfg st)). lia.
Qed.

(** The clock says the spawn interval is over, but the game is only two
    frames old: no pair yet. *)
Lemma X6_no_pair_in_first_sixty_frames_witness :
  FlappyBird.pipes
    (FlappySession.run FlappyBird.DEFAULT_SETTINGS
       [FlappySession.Jump; FlappySession.Tick Scenarios.envSpawn;
        FlappySession.Tick Scenarios.envSpawn]
       (FlappyBird.initialState 0)) = [].
Proof.
  apply X6_no_pair_in_first_sixty_frames; [reflexivity | simpl; lia].
Defined.

(** X7: the sixty-frame grace period belongs to the first game only.
    [resetGame] does not reset the frame counter, so in a game restarted
    after sixty frames or more the first frame already spawns a pair (at
    the right edge of the window) as soon as the clock gate is open. *)
Theorem X7_restart_spawns_at_once
  (cfg : FlappyBird.Settings) (env : FlappyBird.Env) (st : FlappyBird.State) :
  (60 <= FlappyBird.frameCount st)%Z ->
  FlappyBird.pipeSpawnRate cfg < FlappyBird.now env - FlappyBird.lastPipe st ->
  exists p,
    FlappyBird.pipes
      (FlappyBird.gameLoop cfg env
         (FlappyBird.jump cfg (FlappyBird.resetGame st))) = [p] /\
    FlappyBird.pipe_x p = FlappyBird.innerWidth env.
Proof.
  intros Hf Hc. unfold FlappyBird.gameLoop. simpl.
  assert (E1 : (FlappyBird.now env - FlappyBird.lastPipe st
                >? FlappyBird.pipeSpawnRate cfg) = true).
  { unfold Num.gtb. now apply ltb_true_iff. }
  assert (E2 : (FlappyBird.frameCount st + 1 >? 60)%Z = true) by lia.
  rewrite E1, E2. simpl. eexists. split; reflexivity.
Qed.

Lemma X7_restart_spawns_at_once_witness :
  length
    (FlappyBird.pipes
       (FlappyBird.gameLoop FlappyBird.DEFAULT_SETTINGS Scenarios.envSpawn
          (FlappyBird.jump FlappyBird.DEFAULT_SETTINGS
             (FlappyBird.resetGame Scenarios.birdAtPipe)))) = 1%nat.
Proof.
  destruct (X7_restart_spawns_at_once FlappyBird.DEFAULT_SETTINGS
              Scenarios.envSpawn Scenarios.birdAtPipe) as (p & Hp & _).
  - simpl. lia.
  - simpl. lra.
  - rewrite Hp. reflexivity.
Defined.

(** X8: a frame adds at most one pair, and when it adds one, more than
    [pipeSpawnRate] has passed on the clock since the last spawn, the game
    has run sixty frames, and the clock reading is recorded as the time of
    the last spawn. *)
Theorem X8_spawns_are_spaced
  (cfg : FlappyBird.Settings) (env : FlappyBird.Env) (st : FlappyBird.State) :
  let st' := FlappyBird.gameLoop cfg env st in
  (length (FlappyBird.pipes st') <= length (FlappyBird.pipes st) + 1)%nat /\
  ((length (FlappyBird.pipes st) < length (FlappyBird.pipes st'))%nat ->
   FlappyBird.pipeSpawnRate cfg
     < FlappyBird.now env - FlappyBird.lastPipe st /\
   (60 <= FlappyBird.frameCount st)%Z /\
   FlappyBird.lastPipe st' = FlappyBird.now env).
Proof.
  cbv zeta.
  pose proof (advancePipes_length cfg (FlappyBird.pipes st)) as Hlen.
  destruct (gameLoop_pipes_cases cfg env st)
    as [E | [E | (E & Hc & Hf & Hl)]]; rewrite E.
  - split; [lia | intros H; lia].
  - split; [lia | intros H; lia].
  - split.
    + unfold FlappyBird.spawnPipe. rewrite length_app. simpl. lia.
    + intros _. repeat split; assumption.
Qed.

(** ** The pipe game: when the bird is safe *)

Section SafeBird.

Import FlappyBird.

Variable cfg : Settings.
Variable env : Env.

Lemma hitsPipe_false_iff (birdPos : Q) (p : PipeData) :
  hitsPipe cfg env birdPos p = false <-> FlappySession.clearOf cfg birdPos p.
Proof.
  unfold hitsPipe, FlappySession.clearOf. simpl.
  cmp_cases; simpl; split; intros H; try discriminate; try reflexivity;
    try (left; lra); try (right; left; lra); try (right; right; split; lra);
    try (destruct H as [H | [H | [H1 H2]]]; lra).
Qed.

End SafeBird.

(** X9: [checkCollision] reports no collision exactly when every pair is
    wholly beside the bird's slot (at or right of 144, or ending at or left
    of 96) or has the bird inside its opening ([height <= position] and
    [position + 48 <= height + gapSize]); touching a pipe edge is not a
    collision, and without pairs there is never one. *)
Theorem X9_no_collision_iff_clear
  (cfg : FlappyBird.Settings) (env : FlappyBird.Env) (birdPos : Q)
  (ps : list FlappyBird.PipeData) :
  FlappyBird.checkCollision cfg env birdPos ps = false <->
  Forall (FlappySession.clearOf cfg birdPos) ps.
Proof.
  unfold FlappyBird.checkCollision.
  induction ps as [|p ps' IH]; simpl.
  - split; [constructor | reflexivity].
  - rewrite orb_false_iff, IH, hitsPipe_false_iff. split.
    + intros [H1 H2]. now constructor.
    + intros H. apply Forall_cons_1 in H. exact H.
Qed.

(** X10: pairs far off the left edge are not kept: after any running
    frame every pair of the state lies right of -100, provided the window's
    right edge, where pairs are spawned, does. *)
Theorem X10_kept_pairs_are_right_of_cull_line
  (cfg : FlappyBird.Settings) (env : FlappyBird.Env) (st : FlappyBird.State) :
  FlappyBird.gameStarted st = true ->
  FlappyBird.gameOver st = false ->
  - (100 # 1) < FlappyBird.innerWidth env ->
  Forall (fun p => - (100 # 1) < FlappyBird.pipe_x p)
    (FlappyBird.pipes (FlappyBird.gameLoop cfg env st)).
Proof.
  intros Hs Ho Hw.
  pose proof (advancePipes_kept cfg (FlappyBird.pipes st)) as Hk.
  unfold FlappyBird.gameLoop. rewrite Hs, Ho. simpl.
  destruct (_ && _); [|exact Hk].
  unfold FlappyBird.spawnPipe. apply Forall_app. split; [exact Hk|].
  constructor; [exact Hw | constructor].
Qed.

(** A pair at -99 moving 3 a frame is dropped by the next frame; the pair
    at 97 is kept. *)
Lemma X10_kept_pairs_are_right_of_cull_line_witness :
  Forall (fun p => - (100 # 1) < FlappyBird.pipe_x p)
    (FlappyBird.pipes
       (FlappyBird.gameLoop FlappyBird.DEFAULT_SETTINGS Scenarios.envC
          {| FlappyBird.gameStarted := true; FlappyBird.gameOver := false;
             FlappyBird.scoreSubmitted := false;
             FlappyBird.birdPosition := 300; FlappyBird.birdVelocity := 0;
             FlappyBird.birdRotation := 0;
             FlappyBird.pipes :=
               [FlappyBird.mkPipe 1 (- (99 # 1)) 200 false;
                Scenarios.pipeAt97];
             FlappyBird.score := 0%Z; FlappyBird.highScore := 0%Z;
             FlappyBird.lastPipe := 0; FlappyBird.frameCount := 0%Z |})).
Proof.
  apply X10_kept_pairs_are_right_of_cull_line;
    [reflexivity | reflexivity | simpl; lra].
Defined.

(** ** High-score submission: edge cases and sequences *)

Section Submissions.

Import FlappyBird.

Lemma filter_drops_one {A} (f : A -> bool) (l : list A) (a : A) :
  In a l -> f a = false ->
  (length (List.filter f l) < length l)%nat.
Proof.
  induction l as [|b l' IH]; simpl; [tauto|].
  intros [<- | Hin] Hf.
  - rewrite Hf. pose proof (filter_length_le f l'). lia.
  - specialize (IH Hin Hf). destruct (f b); simpl; lia.
Qed.

(** On a full board a delete that is carried out removes at least one
    row. *)
Lemma delete_lowest_shrinks (rows : list HighScore) :
  (3 <= length rows)%nat ->
  (length (deleteByScore true (Math_min (map hs_score (orderDesc rows))) rows)
   < length rows)%nat.
Proof.
  intros Hlen.
  destruct (lowest_of_board rows Hlen) as (lowest & -> & (r & Hr & Hs) & _).
  simpl. apply (filter_drops_one _ rows r Hr).
  rewrite Hs, Z.eqb_refl. reflexivity.
Qed.





(** Ordering a list that ends with [r] inserts [r] into the ordered rest. *)
Lemma orderDesc_snoc (rows : list HighScore) (r : HighScore) :
  orderDesc (rows ++ [r]) = insertDesc r (orderDesc rows).
Proof. unfold orderDesc. now rewrite rev_app_distr. Qed.

(** A row inserted into a list that is shorter than [n], or that has a
    row of lower score among its first [n], is among the first [n]. *)
Lemma insertDesc_firstn (r : HighScore) (rows : list HighScore) (n : nat) :
  (length rows < n)%nat \/
  (exists r', In r' (firstn n rows) /\ (hs_score r' < hs_score r)%Z) ->
  In r (firstn n (insertDesc r rows)).
Proof.
  revert n. induction rows as [|r0 rows' IH]; intros n H.
  - destruct n as [|n'].
    + destruct H as [H | (r' & [] & _)]. inversion H.
    + simpl. now left.
  - destruct n as [|n'].
    + destruct H as [H | (r' & [] & _)]. inversion H.
    + cbn [insertDesc].
      destruct (hs_score r0 <? hs_score r)%Z eqn:E.
      * simpl. now left.
      * apply Z.ltb_ge in E. cbn [firstn]. right. apply IH.
        destruct H as [H | (r' & Hin & Hlt)].
        -- left. simpl in H. lia.
        -- right. exists r'. split; [|exact Hlt].
           cbn [firstn] in Hin. destruct Hin as [<- | Hin]; [lia | exact Hin].
Qed.

End Submissions.



(** With a store that carries out no delete, one accepted submission
    takes the board 50, 40, 30 to four rows. *)
Lemma refused_delete_grows_board :
  length
    (FlappySession.submitAll
       [FlappySession.mkAttempt Scenarios.backendNoDelete "dan" 35]
       Scenarios.board) = 4%nat.
Proof. vm_compute. reflexivity. Qed.

(** X12: while the board holds fewer than three rows, every submission
    with a name goes through, whatever its score: nothing is compared,
    nothing is deleted, nobody is alerted.  The row is stored when the
    store carries out the insert, and the score counts as submitted in
    either case. *)
Theorem X12_short_board_accepts_any_score
  (be : FlappyBird.Backend) (name : string)
  (rows : list FlappyBird.HighScore) (sc uid : Z) :
  name <> EmptyString ->
  FlappyBird.fetchOk be = true ->
  FlappyBird.identity be = Some uid ->
  (length rows < 3)%nat ->
  let res := FlappyBird.saveHighScore be name rows sc in
  FlappyBird.store res
  = (if FlappyBird.insertOk be
     then rows ++ [FlappyBird.mkHighScore uid sc name] else rows) /\
  FlappyBird.alerted res = false /\
  FlappyBird.submitted res = true.
Proof.
  intros Hname Hfetch Hid Hlen. cbv zeta. unfold FlappyBird.saveHighScore.
  apply String.eqb_neq in Hname. rewrite Hname, Hfetch, Hid.
  rewrite length_map, orderDesc_length.
  assert (E : (3 <=? length rows)%nat = false) by now apply Nat.leb_gt.
  rewrite E. simpl. repeat split; reflexivity.
Qed.

(** A score of 1 goes onto a board that holds 50 and 40. *)
Lemma X12_short_board_accepts_any_score_witness :
  map FlappyBird.hs_score
    (FlappyBird.store
       (FlappyBird.saveHighScore Scenarios.backendOk "dan"
          [FlappyBird.mkHighScore 1 50 "ann"; FlappyBird.mkHighScore 2 40 "bob"]
          1))
  = [50; 40; 1]%Z.
Proof.
  destruct (X12_short_board_accepts_any_score Scenarios.backendOk "dan"
              [FlappyBird.mkHighScore 1 50 "ann";
               FlappyBird.mkHighScore 2 40 "bob"] 1 4) as (Hs & _);
    [discriminate | reflexivity | reflexivity | simpl; lia |].
  rewrite Hs. reflexivity.
Defined.

(** X13: a submission without a name, or one for which the score query
    fails or no identity can be created, writes nothing: the rows are
    unchanged, the score does not count as submitted and the leaderboard is
    not refreshed. *)
Theorem X13_failed_submission_writes_nothing
  (be : FlappyBird.Backend) (name : string)
  (rows : list FlappyBird.HighScore) (sc : Z) :
  name = EmptyString \/ FlappyBird.fetchOk be = false \/
  FlappyBird.identity be = None ->
  let res := FlappyBird.saveHighScore be name rows sc in
  FlappyBird.store res = rows /\
  FlappyBird.submitted res = false /\
  FlappyBird.leaderboard res = None.
Proof.
  intros H. cbv zeta. unfold FlappyBird.saveHighScore.
  destruct (String.eqb name EmptyString) eqn:En; [repeat split|].
  destruct (FlappyBird.fetchOk be) eqn:Ef; simpl; [|repeat split].
  destruct (_ && _); [repeat split|].
  destruct (FlappyBird.identity be) eqn:Ei; [|repeat split].
  exfalso. destruct H as [-> | [H | H]]; discriminate.
Qed.

Lemma X13_failed_submission_writes_nothing_witness :
  FlappyBird.store
    (FlappyBird.saveHighScore
       (FlappyBird.mkBackend true None true true true) "dan"
       Scenarios.board 99) = Scenarios.board.
Proof.
  apply (X13_failed_submission_writes_nothing
           (FlappyBird.mkBackend true None true true true) "dan"
           Scenarios.board 99).
  right. right. reflexivity.
Defined.

(** X14: on a board of at most three rows, when the store carries out
    the insert and the refresh query answers, a score that counts as
    submitted is on the leaderboard the player is shown afterwards,
    whether or not the store carried out the delete. *)
Theorem X14_stored_score_is_listed
  (be : FlappyBird.Backend) (name : string)
  (rows : list FlappyBird.HighScore) (sc : Z) :
  (length rows <= 3)%nat ->
  FlappyBird.insertOk be = true ->
  FlappyBird.refreshOk be = true ->
  FlappyBird.submitted (FlappyBird.saveHighScore be name rows sc) = true ->
  exists uid shown,
    FlappyBird.leaderboard (FlappyBird.saveHighScore be name rows sc)
      = Some shown /\
    In (FlappyBird.mkHighScore uid sc name) shown.
Proof.
  intros Hlen Hins Hre. unfold FlappyBird.saveHighScore.
  rewrite Hins, Hre.
  destruct (String.eqb name EmptyString); [discriminate|].
  destruct (negb (FlappyBird.fetchOk be)); [discriminate|].
  rewrite length_map, orderDesc_length.
  destruct (3 <=? length rows)%nat eqn:Efull.
  - apply Nat.leb_le in Efull.
    destruct (lowest_of_board rows Efull) as (lowest & Hmin & (r0 & Hr0 & Hs0) & _).
    rewrite Hmin. unfold FlappyBird.leMin.
    destruct (sc <=? lowest)%Z eqn:E; [discriminate|].
    apply Z.leb_gt in E. cbn [andb].
    destruct (FlappyBird.identity be) as [uid|]; [|discriminate].
    cbn [FlappyBird.submitted FlappyBird.store FlappyBird.leaderboard].
    intros _. exists uid. eexists. split; [reflexivity|].
    unfold FlappyBird.insertRow, FlappyBird.limit.
    rewrite orderDesc_snoc. apply insertDesc_firstn.
    destruct (FlappyBird.deleteOk be).
    + left. rewrite orderDesc_length.
      pose proof (delete_lowest_shrinks rows Efull) as Hd.
      rewrite Hmin in Hd. lia.
    + right. exists r0. split.
      * unfold FlappyBird.deleteByScore. rewrite firstn_all2.
        -- now apply orderDesc_In.
        -- rewrite orderDesc_length. lia.
      * simpl. lia.
  - apply Nat.leb_gt in Efull. cbn [andb].
    destruct (FlappyBird.identity be) as [uid|]; [|discriminate].
    cbn [FlappyBird.submitted FlappyBird.store FlappyBird.leaderboard].
    intros _. exists uid. eexists. split; [reflexivity|].
    unfold FlappyBird.insertRow, FlappyBird.limit.
    rewrite orderDesc_snoc. apply insertDesc_firstn.
    left. rewrite orderDesc_length. exact Efull.
Qed.

Lemma X14_stored_score_is_listed_witness :
  exists uid shown,
    FlappyBird.leaderboard
      (FlappyBird.saveHighScore Scenarios.backendNoDelete "dan"
         Scenarios.board 35)
      = Some shown /\
    In (FlappyBird.mkHighScore uid 35 "dan") shown.
Proof.
  apply X14_stored_score_is_listed;
    [simpl; lia | reflexivity | reflexivity | reflexivity].
Defined.

(** ** The lane-crossing game: move requests *)

Section Requests.

Import CrossyRoad.

Variable cfg : Settings.
Variable env : Env.

(** Where a request can leave the character: each coordinate is the old
    one or the old one moved by one size, unless an upward request put the
    character back on the start row. *)
Lemma moveCharacter_position (dx dy : Q) (st : State) (c : Character) :
  character st = Some c ->
  exists c',
    character (moveCharacter cfg env dx dy st) = Some c' /\
    (char_x c' = char_x c \/ char_x c' = char_x c + dx * char_size c) /\
    (char_y c' = char_y c \/ char_y c' = char_y c + dy * char_size c \/
     dy < 0).
Proof.
  intros Hc. unfold moveCharacter. rewrite Hc.
  destruct (canvas env) as [cv|]; [|exists c; rewrite Hc; auto].
  destruct (gameOver st); [exists c; rewrite Hc; auto|].
  assert (Hpos :
    let c1 := if willCollide c dx dy (obstacles st) then c
              else move c dx dy (width cv) (height cv) in
    (char_x c1 = char_x c \/ char_x c1 = char_x c + dx * char_size c) /\
    (char_y c1 = char_y c \/ char_y c1 = char_y c + dy * char_size c)).
  { destruct (willCollide c dx dy (obstacles st)); cbv zeta; [auto|].
    unfold move. simpl.
    destruct (_ && _), (_ && _); auto. }
  cbv zeta in Hpos. destruct Hpos as [Hx Hy].
  destruct (dy <? 0) eqn:Edy.
  - apply ltb_true_iff in Edy.
    destruct (_ && _ && _); [|destruct (_ && _)];
      eexists; (split; [reflexivity|]); simpl; auto.
  - rewrite !andb_false_l. eexists. split; [reflexivity|].
    split; [exact Hx | destruct Hy; auto].
Qed.

(** What a request does to the counters. *)
Lemma moveCharacter_counters (dx dy : Q) (st : State) :
  let st' := moveCharacter cfg env dx dy st in
  (score st' = score st /\ level st' = level st \/
   dy < 0 /\ score st' = (score st + 10)%Z /\ level st' = level st \/
   dy < 0 /\ score st' = (score st + 100)%Z /\
   level st' = (level st + 1)%Z) /\
  gameOver st' = gameOver st /\ cars st' = cars st /\
  obstacles st' = obstacles st /\ lastSpawnTime st' = lastSpawnTime st.
Proof.
  cbv zeta. unfold moveCharacter.
  destruct (character st) as [c|]; [|split; [left|]; repeat split].
  destruct (canvas env) as [cv|]; [|split; [left|]; repeat split].
  destruct (gameOver st) eqn:Hg; [split; [left|]; repeat split; assumption|].
  destruct (dy <? 0) eqn:Edy.
  - apply ltb_true_iff in Edy.
    destruct (_ && _ && _); [|destruct (_ && _)]; simpl;
      (split; [|repeat split; assumption]).
    + right. right. repeat split. exact Edy.
    + right. left. repeat split. exact Edy.
    + left. split; reflexivity.
  - rewrite !andb_false_l. simpl. split; [left|]; repeat split.
Qed.

End Requests.

(** X15: a move request changes the score by 0, by 10 or by 100, and the
    level by 1 exactly when the score changes by 100; score and level only
    change on upward requests ([dy < 0]); the game-over flag, the cars, the
    obstacles and the spawn timer are never touched. *)
Theorem X15_request_scores_0_10_or_100
  (cfg : CrossyRoad.Settings) (env : CrossyRoad.Env) (dx dy : Q)
  (st : CrossyRoad.State) :
  let st' := CrossyRoad.moveCharacter cfg env dx dy st in
  (CrossyRoad.score st' = CrossyRoad.score st /\
   CrossyRoad.level st' = CrossyRoad.level st \/
   dy < 0 /\ CrossyRoad.score st' = (CrossyRoad.score st + 10)%Z /\
   CrossyRoad.level st' = CrossyRoad.level st \/
   dy < 0 /\ CrossyRoad.score st' = (CrossyRoad.score st + 100)%Z /\
   CrossyRoad.level st' = (CrossyRoad.level st + 1)%Z) /\
  CrossyRoad.gameOver st' = CrossyRoad.gameOver st /\
  CrossyRoad.cars st' = CrossyRoad.cars st /\
  CrossyRoad.obstacles st' = CrossyRoad.obstacles st /\
  CrossyRoad.lastSpawnTime st' = CrossyRoad.lastSpawnTime st.
Proof. apply moveCharacter_counters. Qed.

(** X16: a key press never moves the character diagonally: after any key,
    known or not, the character is still there and its abscissa or its
    ordinate is what it was. *)
Theorem X16_key_press_moves_along_one_axis
  (cfg : CrossyRoad.Settings) (env : CrossyRoad.Env) (key : string)
  (st : CrossyRoad.State) (c : CrossyRoad.Character) :
  CrossyRoad.character st = Some c ->
  exists c',
    CrossyRoad.character (Controls.press cfg env key st) = Some c' /\
    (CrossyRoad.char_x c' == CrossyRoad.char_x c \/
     CrossyRoad.char_y c' == CrossyRoad.char_y c).
Proof.
  intros Hc. unfold Controls.press, Controls.handleKeyDown.
  destruct (String.eqb key "ArrowUp").
  { destruct (moveCharacter_position cfg env 0 (- (1 # 1)) st c Hc)
      as (c' & Hc' & Hx & _).
    exists c'. split; [exact Hc'|]. left. destruct Hx as [-> | ->]; lra. }
  destruct (String.eqb key "ArrowDown").
  { destruct (moveCharacter_position cfg env 0 1 st c Hc)
      as (c' & Hc' & Hx & _).
    exists c'. split; [exact Hc'|]. left. destruct Hx as [-> | ->]; lra. }
  destruct (String.eqb key "ArrowLeft").
  { destruct (moveCharacter_position cfg env (- (1 # 1)) 0 st c Hc)
      as (c' & Hc' & _ & Hy).
    exists c'. split; [exact Hc'|]. right.
    destruct Hy as [-> | [-> | Hy]]; lra. }
  destruct (String.eqb key "ArrowRight").
  { destruct (moveCharacter_position cfg env 1 0 st c Hc)
      as (c' & Hc' & _ & Hy).
    exists c'. split; [exact Hc'|]. right.
    destruct Hy as [-> | [-> | Hy]]; lra. }
  exists c. split; [exact Hc | left; reflexivity].
Qed.

Lemma X16_key_press_moves_along_one_axis_witness :
  exists c',
    CrossyRoad.character
      (Controls.press CrossyRoad.DEFAULT_SETTINGS Scenarios.field "ArrowLeft"
         Scenarios.sceneStart) = Some c' /\
    (CrossyRoad.char_x c' == 385 \/ CrossyRoad.char_y c' == 560).
Proof.
  apply (X16_key_press_moves_along_one_axis CrossyRoad.DEFAULT_SETTINGS
           Scenarios.field "ArrowLeft" Scenarios.sceneStart
           (CrossyRoad.newCharacter 385 560 CrossyRoad.DEFAULT_SETTINGS)).
  reflexivity.
Defined.

(** X17: a step that [Character.move] takes on both axes is undone by the
    opposite step: the character is back where it started. *)
Theorem X17_step_and_back
  (cv : CrossyRoad.Canvas) (c : CrossyRoad.Character) (dx dy : Q) :
  Spec.inBounds cv c ->
  0 <= CrossyRoad.char_x c + dx * CrossyRoad.char_size c ->
  CrossyRoad.char_x c + dx * CrossyRoad.char_size c + CrossyRoad.char_size c
    <= CrossyRoad.width cv ->
  0 <= CrossyRoad.char_y c + dy * CrossyRoad.char_size c ->
  CrossyRoad.char_y c + dy * CrossyRoad.char_size c + CrossyRoad.char_size c
    <= CrossyRoad.height cv ->
  let there :=
    CrossyRoad.move c dx dy (CrossyRoad.width cv) (CrossyRoad.height cv) in
  let back :=
    CrossyRoad.move there (- dx) (- dy)
      (CrossyRoad.width cv) (CrossyRoad.height cv) in
  CrossyRoad.char_x back == CrossyRoad.char_x c /\
  CrossyRoad.char_y back == CrossyRoad.char_y c.
Proof.
  intros (Hx0 & Hx1 & Hy0 & Hy1) Hnx0 Hnx1 Hny0 Hny1 there back.
  assert (Etx : CrossyRoad.char_x there
                = CrossyRoad.char_x c + dx * CrossyRoad.char_size c)
    by now apply move_x_taken.
  assert (Ety : CrossyRoad.char_y there
                = CrossyRoad.char_y c + dy * CrossyRoad.char_size c)
    by now apply move_y_taken.
  assert (Es : CrossyRoad.char_size there = CrossyRoad.char_size c)
    by reflexivity.
  subst back. split.
  - rewrite move_x_taken; rewrite ?Etx, ?Es.
    + ring.
    + ring_simplify. ring_simplify in Hx0. lra.
    + ring_simplify. lra.
  - rewrite move_y_taken; rewrite ?Ety, ?Es.
    + ring.
    + ring_simplify. lra.
    + ring_simplify. lra.
Qed.

(** From (100,100) one step right and up, and back. *)
Lemma X17_step_and_back_witness :
  let c := CrossyRoad.newCharacter 100 100 CrossyRoad.DEFAULT_SETTINGS in
  let there := CrossyRoad.move c 1 (- (1 # 1)) 800 600 in
  let back := CrossyRoad.move there (- (1 # 1)) (- - (1 # 1)) 800 600 in
  CrossyRoad.char_x back == 100 /\ CrossyRoad.char_y back == 100.
Proof.
  apply (X17_step_and_back (CrossyRoad.mkCanvas 800 600)
           (CrossyRoad.newCharacter 100 100 CrossyRoad.DEFAULT_SETTINGS)
           1 (- (1 # 1)));
    try (unfold Spec.inBounds; simpl; repeat split; lra).
Defined.

(** ** The lane-crossing game: frames *)

Section CrossyFrames.

Import CrossyRoad.

Variable cfg : Settings.

(** What a call of [spawnCar] can change: it appends cars and, when the
    cooldown is over, records the clock reading. *)
Lemma spawnCar_effect (env : Env) (st st' : State) (rs rs' : list Q) :
  spawnCar cfg env st rs = Some (st', rs') ->
  score st' = score st /\ level st' = level st /\
  gameOver st' = gameOver st /\ character st' = character st /\
  obstacles st' = obstacles st /\
  exists new,
    cars st' = cars st ++ new /\
    (new = [] /\ rs' = rs /\ lastSpawnTime st' = lastSpawnTime st /\
     (canvas env = None \/ cooldownElapsed cfg env st = false) \/
     cooldownElapsed cfg env st = true /\ lastSpawnTime st' = now env /\
     exists cv n rs1,
       canvas env = Some cv /\
       carsToSpawn (totalSpawnChance cfg (level st))
         (maxCarsToSpawn (level st)) rs = Some (n, rs1) /\
       spawnLoop cfg env (level st) (numLanes cv) (Z.to_nat n) ∅ [] rs1
       = Some (new, rs')).
Proof.
  unfold spawnCar, cooldownElapsed.
  destruct (canvas env) as [cv|] eqn:Hcv.
  2:{ intros [= <- <-]. repeat split. exists []. rewrite app_nil_r.
      split; [reflexivity|]. left. auto. }
  destruct (now env - lastSpawnTime st <? spawnInterval cfg (level st)) eqn:Ec.
  { intros [= <- <-]. repeat split. exists []. rewrite app_nil_r.
    split; [reflexivity|]. left. auto. }
  unfold Rand.bind at 1.
  destruct (carsToSpawn _ _ rs) as [[n rs1]|] eqn:Hn; [|discriminate].
  unfold Rand.bind.
  destruct (spawnLoop _ _ _ _ _ _ _ rs1) as [[new rs2]|] eqn:Hloop;
    [|discriminate].
  intros [= <- <-]. simpl. repeat split. exists new.
  split; [reflexivity|]. right. repeat split.
  exists cv, n, rs1. auto.
Qed.

(** What a frame can change. *)
Lemma gameLoop_effect (env : Env) (st st' : State) (rs rs' : list Q) :
  gameLoop cfg env st rs = Some (st', rs') ->
  score st' = score st /\ level st' = level st /\
  obstacles st' = obstacles st /\
  match character st, character st' with
  | Some c, Some c' =>
      char_x c' = char_x c /\ char_y c' = char_y c /\
      char_size c' = char_size c
  | None, None => True
  | _, _ => False
  end.
Proof.
  unfold gameLoop.
  destruct (canvas env) as [cv|] eqn:Hcv.
  2:{ intros [= <- <-]. repeat split.
      destruct (character st); repeat split. }
  destruct (character st) as [c|] eqn:Hc.
  2:{ intros [= <- <-]. rewrite Hc. repeat split. }
  destruct (gameOver st).
  { intros [= <- <-]. rewrite Hc. repeat split. }
  unfold Rand.bind.
  destruct (spawnCar cfg env _ rs) as [[st1 rs1]|] eqn:Hspawn; [|discriminate].
  apply spawnCar_effect in Hspawn.
  destruct Hspawn as (Hs & Hl & _ & _ & Ho & _). simpl in *.
  unfold checkCollisions.
  destruct (existsb _ _); intros [= <- <-]; simpl; repeat split; assumption.
Qed.

Lemma step_effect (env : Env) (cv : Canvas) (e : CrossySession.Event)
  (st st' : State) (rs rs' : list Q) :
  canvas env = Some cv ->
  Spec.characterInBounds cfg cv st ->
  CrossySession.step cfg env e st rs = Some (st', rs') ->
  Spec.characterInBounds cfg cv st'.
Proof.
  intros Hcv Hin. destruct e as [t | dx dy]; simpl.
  - intros Hrun. apply gameLoop_effect in Hrun.
    destruct Hrun as (_ & _ & _ & Hch).
    unfold Spec.characterInBounds, Spec.inBounds in *.
    destruct (character st) as [c|], (character st') as [c'|];
      try contradiction; [|exact I].
    destruct Hch as (-> & -> & ->). exact Hin.
  - intros [= <- <-]. now apply moveCharacter_inBounds.
Qed.

End CrossyFrames.

(** X18: once the lane-crossing game is over, nothing changes it but
    [initGame]: frames and move requests, in any number and order, leave
    the state as it is and draw no random number. *)
Theorem X18_game_over_is_final
  (cfg : CrossyRoad.Settings) (env : CrossyRoad.Env)
  (events : list CrossySession.Event) (st : CrossyRoad.State) (rs : list Q) :
  CrossyRoad.gameOver st = true ->
  CrossySession.play cfg env events st rs = Some (st, rs).
Proof.
  intros Hg. induction events as [|e events' IH]; [reflexivity|].
  simpl. unfold Rand.bind.
  assert (Hstep : CrossySession.step cfg env e st rs = Some (st, rs)).
  { destruct e as [t | dx dy]; simpl.
    - unfold CrossyRoad.gameLoop. simpl.
      destruct (CrossyRoad.canvas env), (CrossyRoad.character st);
        try reflexivity. now rewrite Hg.
    - unfold CrossyRoad.moveCharacter, Rand.ret.
      destruct (CrossyRoad.character st), (CrossyRoad.canvas env);
        try reflexivity. now rewrite Hg. }
  rewrite Hstep. exact IH.
Qed.

(** X19: a frame of the lane-crossing game never changes the score, the
    level or the obstacles, and never moves or resizes the character. *)
Theorem X19_frame_keeps_score_and_character
  (cfg : CrossyRoad.Settings) (env : CrossyRoad.Env)
  (st st' : CrossyRoad.State) (rs rs' : list Q) :
  CrossyRoad.gameLoop cfg env st rs = Some (st', rs') ->
  CrossyRoad.score st' = CrossyRoad.score st /\
  CrossyRoad.level st' = CrossyRoad.level st /\
  CrossyRoad.obstacles st' = CrossyRoad.obstacles st /\
  match CrossyRoad.character st, CrossyRoad.character st' with
  | Some c, Some c' =>
      CrossyRoad.char_x c' = CrossyRoad.char_x c /\
      CrossyRoad.char_y c' = CrossyRoad.char_y c /\
      CrossyRoad.char_size c' = CrossyRoad.char_size c
  | None, None => True
  | _, _ => False
  end.
Proof. apply gameLoop_effect. Qed.

(** X20: through any session of frames and move requests on one canvas,
    a character that lies inside the field stays inside it. *)
Theorem X20_in_bounds_through_session
  (cfg : CrossyRoad.Settings) (env : CrossyRoad.Env) (cv : CrossyRoad.Canvas)
  (events : list CrossySession.Event) (st st' : CrossyRoad.State)
  (rs rs' : list Q) :
  CrossyRoad.canvas env = Some cv ->
  Spec.characterInBounds cfg cv st ->
  CrossySession.play cfg env events st rs = Some (st', rs') ->
  Spec.characterInBounds cfg cv st'.
Proof.
  intros Hcv. revert st rs.
  induction events as [|e events' IH]; intros st rs Hin; simpl.
  - intros [= <- <-]. exact Hin.
  - unfold Rand.bind.
    destruct (CrossySession.step cfg env e st rs) as [[st1 rs1]|] eqn:Hstep;
      [|discriminate].
    apply IH. eapply step_effect; eassumption.
Qed.

Lemma X18_game_over_is_final_witness :
  CrossySession.play CrossyRoad.DEFAULT_SETTINGS Scenarios.field
    [CrossySession.Frame 9000; CrossySession.Request 0 (- (1 # 1));
     CrossySession.Frame 9016]
    {| CrossyRoad.score := 40%Z; CrossyRoad.level := 1%Z;
       CrossyRoad.gameOver := true;
       CrossyRoad.character :=
         Some (CrossyRoad.newCharacter 385 440 CrossyRoad.DEFAULT_SETTINGS);
       CrossyRoad.cars := []; CrossyRoad.obstacles := [];
       CrossyRoad.lastSpawnTime := 0 |}
    [1 # 2]
  = Some ({| CrossyRoad.score := 40%Z; CrossyRoad.level := 1%Z;
             CrossyRoad.gameOver := true;
             CrossyRoad.character :=
               Some (CrossyRoad.newCharacter 385 440
                       CrossyRoad.DEFAULT_SETTINGS);
             CrossyRoad.cars := []; CrossyRoad.obstacles := [];
             CrossyRoad.lastSpawnTime := 0 |}, [1 # 2]).
Proof. apply X18_game_over_is_final. reflexivity. Defined.

(** A frame on a fresh game that spawns one car: score and level are
    untouched. *)
Lemma X19_frame_keeps_score_and_character_witness :
  exists st' rs',
    CrossyRoad.gameLoop CrossyRoad.DEFAULT_SETTINGS Scenarios.field
      Scenarios.sceneStart [1 # 2; 1 # 2; 1 # 2; 1 # 2] = Some (st', rs') /\
    length (CrossyRoad.cars st') = 1%nat /\
    CrossyRoad.score st' = 0%Z /\ CrossyRoad.level st' = 1%Z.
Proof.
  destruct (CrossyRoad.gameLoop CrossyRoad.DEFAULT_SETTINGS Scenarios.field
              Scenarios.sceneStart [1 # 2; 1 # 2; 1 # 2; 1 # 2])
    as [[st' rs']|] eqn:E; [|vm_compute in E; discriminate E].
  exists st', rs'. split; [reflexivity|]. split.
  - vm_compute in E. injection E as <- _. reflexivity.
  - destruct (X19_frame_keeps_score_and_character _ _ _ _ _ _ E)
      as (Hs & Hl & _).
    rewrite Hs, Hl. split; reflexivity.
Defined.

(** A step up, a frame that spawns a car, a step left at the start row. *)
Lemma X20_in_bounds_through_session_witness :
  exists st' rs',
    CrossySession.play CrossyRoad.DEFAULT_SETTINGS Scenarios.field
      [CrossySession.Request 0 (- (1 # 1)); CrossySession.Frame 5000;
       CrossySession.Request (- (1 # 1)) 0]
      Scenarios.sceneStart [1 # 2; 1 # 2; 1 # 2; 1 # 2] = Some (st', rs') /\
    Spec.characterInBounds CrossyRoad.DEFAULT_SETTINGS
      (CrossyRoad.mkCanvas 800 600) st'.
Proof.
  destruct (CrossySession.play CrossyRoad.DEFAULT_SETTINGS Scenarios.field
      [CrossySession.Request 0 (- (1 # 1)); CrossySession.Frame 5000;
       CrossySession.Request (- (1 # 1)) 0]
      Scenarios.sceneStart [1 # 2; 1 # 2; 1 # 2; 1 # 2])
    as [[st' rs']|] eqn:E; [|vm_compute in E; discriminate E].
  exists st', rs'. split; [reflexivity|].
  apply (X20_in_bounds_through_session CrossyRoad.DEFAULT_SETTINGS
           Scenarios.field (CrossyRoad.mkCanvas 800 600) _ _ _ _ _
           eq_refl) in E; [exact E|].
  unfold Spec.characterInBounds, Spec.inBounds. simpl.
  split; [reflexivity|]. repeat split; lra.
Defined.

(** ** The lane-crossing game: laying out a level *)

Section Layout.

Import CrossyRoad.

Variable w : Q.
Hypothesis wide_enough : 40 <= w.

(** The obstacles of one lane. *)
Lemma laneObstacles_spec (y : Q) (n : nat) :
  forall (acc : list Obstacle) (rs : list Q) (result : list Obstacle)
         (rs' : list Q),
  CrossySession.validRolls rs ->
  laneObstacles w y n acc rs = Some (result, rs') ->
  CrossySession.validRolls rs' /\
  exists new,
    result = acc ++ new /\ length new = n /\
    Forall (fun o => obs_size o = 40 /\ 0 <= obs_x o /\ obs_x o + 40 <= w /\
                     obs_y o = y) new.
Proof.
  induction n as [|n IH]; intros acc rs result rs' Hrs; simpl.
  - intros [= <- <-]. split; [exact Hrs|]. exists [].
    rewrite app_nil_r. repeat split. constructor.
  - unfold Rand.bind, Rand.random.
    destruct rs as [|r rs1]; [discriminate|].
    destruct rs1 as [|r' rs2]; [discriminate|].
    apply Forall_cons_1 in Hrs as [[Hr0 Hr1] Hrs1].
    apply Forall_cons_1 in Hrs1 as [_ Hrs2].
    intros Hrun. apply IH in Hrun; [|exact Hrs2].
    destruct Hrun as (Hv & new & -> & Hlen & Hall).
    split; [exact Hv|]. eexists (_ :: new).
    rewrite <- app_assoc. split; [reflexivity|].
    split; [simpl; now rewrite Hlen|].
    constructor; [|exact Hall]. simpl.
    assert (H0 : 0 <= r * (w - 40)) by (apply Qmult_le_0_compat; lra).
    assert (H1 : r * (w - 40) <= 1 * (w - 40))
      by (apply Qmult_le_compat_r; lra).
    repeat split; lra.
Qed.

(** [2 + Math.floor (Math.random () * 2)] is 2 or 3. *)
Lemma two_or_three (r : Q) :
  0 <= r -> r < 1 ->
  (2 + Num.floor (r * 2) = 2 \/ 2 + Num.floor (r * 2) = 3)%Z.
Proof.
  intros H0 H1. unfold Num.floor.
  assert (Hlo : (0 <= Qfloor (r * 2))%Z).
  { replace 0%Z with (Qfloor 0) by reflexivity. apply Qfloor_resp_le. lra. }
  assert (Hhi : (Qfloor (r * 2) < 2)%Z).
  { rewrite Zlt_Qlt. pose proof (Qfloor_le (r * 2)).
    change (inject_Z 2) with 2. lra. }
  lia.
Qed.

(** The lanes from [lane] on, [todo] of them. *)
Lemma lanesFrom_spec (todo : nat) :
  forall (lane : Z) (acc : list Obstacle) (rs : list Q)
         (result : list Obstacle) (rs' : list Q),
  CrossySession.validRolls rs ->
  lanesFrom w lane todo acc rs = Some (result, rs') ->
  exists new,
    result = acc ++ new /\
    (2 * todo <= length new <= 3 * todo)%nat /\
    Forall (fun o => obs_size o = 40 /\ 0 <= obs_x o /\ obs_x o + 40 <= w /\
                     exists l, (lane <= l < lane + Z.of_nat todo)%Z /\
                               obs_y o = 50 + Num.ofZ l * 60) new.
Proof.
  induction todo as [|todo IH]; intros lane acc rs result rs' Hrs.
  - simpl. intros [= <- <-]. exists []. rewrite app_nil_r.
    split; [reflexivity|]. split; [simpl; lia | constructor].
  - cbn [lanesFrom]. unfold Rand.bind at 1. unfold Rand.random.
    destruct rs as [|r rs1]; [discriminate|].
    apply Forall_cons_1 in Hrs as [[Hr0 Hr1] Hrs1].
    unfold Rand.bind.
    destruct (laneObstacles w _ _ acc rs1) as [[acc' rs2]|] eqn:Hlane;
      [|discriminate].
    apply laneObstacles_spec in Hlane; [|exact Hrs1].
    destruct Hlane as (Hrs2 & here & -> & Hlen & Hhere).
    intros Hrun. apply IH in Hrun; [|exact Hrs2].
    destruct Hrun as (rest & -> & Hcount & Hrest).
    exists (here ++ rest). rewrite <- app_assoc. split; [reflexivity|].
    split.
    + rewrite length_app, Hlen.
      destruct (two_or_three r Hr0 Hr1) as [-> | ->]; simpl Z.to_nat; lia.
    + apply Forall_app. split.
      * eapply List.Forall_impl; [|exact Hhere].
        intros o (Hs & Hx0 & Hx1 & Hy). repeat split; try assumption.
        exists lane. split; [lia | exact Hy].
      * eapply List.Forall_impl; [|exact Hrest].
        intros o (Hs & Hx0 & Hx1 & l & Hl & Hy). repeat split; try assumption.
        exists l. split; [lia | exact Hy].
Qed.

(** Seven rolls a lane are enough for the layout to be produced. *)
Lemma laneObstacles_total (y : Q) (n : nat) :
  forall (acc : list Obstacle) (rs : list Q),
  (2 * n <= length rs)%nat ->
  exists result rs',
    laneObstacles w y n acc rs = Some (result, rs') /\
    (length rs = length rs' + 2 * n)%nat.
Proof.
  induction n as [|n IH]; intros acc rs Hlen; simpl.
  - exists acc, rs. split; [reflexivity | lia].
  - unfold Rand.bind, Rand.random.
    destruct rs as [|r [|r' rs2]]; simpl in Hlen; try lia.
    destruct (IH (acc ++ [mkObstacle (r * (w - 40)) y 40
                            (if r' <? 5 # 10 then rock else tree)]) rs2)
      as (result & rs' & Hrun & Hl); [lia|].
    exists result, rs'. split; [exact Hrun | simpl; lia].
Qed.

Lemma lanesFrom_total (todo : nat) :
  forall (lane : Z) (acc : list Obstacle) (rs : list Q),
  CrossySession.validRolls rs ->
  (7 * todo <= length rs)%nat ->
  exists result rs', lanesFrom w lane todo acc rs = Some (result, rs').
Proof.
  induction todo as [|todo IH]; intros lane acc rs Hrs Hlen.
  - exists acc, rs. reflexivity.
  - cbn [lanesFrom]. unfold Rand.bind at 1. unfold Rand.random.
    destruct rs as [|r rs1]; [cbn [length] in Hlen; lia|].
    apply Forall_cons_1 in Hrs as [[Hr0 Hr1] Hrs1].
    cbn [length] in Hlen. unfold Rand.bind.
    assert (Hn : (Z.to_nat (2 + Num.floor (r * 2)) <= 3)%nat)
      by (destruct (two_or_three r Hr0 Hr1) as [-> | ->]; simpl; lia).
    destruct (laneObstacles_total (50 + Num.ofZ lane * 60)
                (Z.to_nat (2 + Num.floor (r * 2))) acc rs1)
      as (acc' & rs2 & Hlane & Hl); [lia|].
    rewrite Hlane.
    apply IH.
    + apply laneObstacles_spec in Hlane; [tauto | exact Hrs1].
    + lia.
Qed.

End Layout.

(** X21: [generateObstacles] on a field at least 40 wide, with [n] lanes
    ([n = floor ((height - 100) / 60)]): given seven random numbers a lane
    it produces a layout, and every layout it produces has two or three
    obstacles per lane, each of side 40, on the top row [50 + lane * 60] of
    one of the [n] lanes and horizontally inside the field. *)
Theorem X21_obstacle_layout
  (w h : Q) (rs : list Q) :
  40 <= w ->
  CrossySession.validRolls rs ->
  let n := Num.floor ((h - 100) / 60) in
  ((7 * Z.to_nat n <= length rs)%nat ->
   exists obs rs', CrossyRoad.generateObstacles w h rs = Some (obs, rs')) /\
  (forall obs rs',
     CrossyRoad.generateObstacles w h rs = Some (obs, rs') ->
     (2 * Z.to_nat n <= length obs <= 3 * Z.to_nat n)%nat /\
     Forall (CrossySession.placed w n) obs).
Proof.
  intros Hw Hrs n. unfold CrossyRoad.generateObstacles. fold n. split.
  - intros Hlen. now apply lanesFrom_total.
  - intros obs rs' Hrun.
    apply (lanesFrom_spec w Hw) in Hrun; [|exact Hrs].
    destruct Hrun as (new & -> & Hcount & Hall).
    simpl. split; [exact Hcount|].
    eapply List.Forall_impl; [|exact Hall].
    intros o (Hs & Hx0 & Hx1 & l & Hl & Hy).
    unfold CrossySession.placed. repeat split; try assumption.
    exists l. split; [lia | exact Hy].
Qed.

(** The 800 by 600 field has eight lanes; with rolls of one half every
    lane gets three obstacles. *)
Lemma X21_obstacle_layout_witness :
  exists obs rs',
    CrossyRoad.generateObstacles 800 600 (repeat (1 # 2) 56)
      = Some (obs, rs') /\
    length obs = 24%nat /\
    Forall (CrossySession.placed 800 8) obs.
Proof.
  assert (Hv : CrossySession.validRolls (repeat (1 # 2) 56)).
  { apply List.Forall_forall. intros r Hr. apply repeat_spec in Hr.
    subst r. split; lra. }
  destruct (X21_obstacle_layout 800 600 (repeat (1 # 2) 56)) as [Htot Hlay];
    [lra | exact Hv |].
  destruct Htot as (obs & rs' & Hrun); [simpl; lia|].
  exists obs, rs'. split; [exact Hrun|].
  destruct (Hlay obs rs' Hrun) as [_ Hall].
  split; [|exact Hall].
  vm_compute in Hrun. injection Hrun as <- _. reflexivity.
Defined.



(** ** The lane-crossing game: cars *)

Section Cars.

Import CrossyRoad.

Variable cfg : Settings.
Variable env : Env.

Lemma update_offScreen (c : Car) :
  0 <= speed c -> isOffScreen env c = true -> isOffScreen env (update c) = true.
Proof.
  intros Hs. unfold isOffScreen, update. simpl.
  destruct (direction c >? 0) eqn:Ed.
  - unfold Num.gtb in *. rewrite !ltb_true_iff. intros Hoff.
    apply ltb_true_iff in Ed.
    assert (0 <= speed c * direction c) by (apply Qmult_le_0_compat; lra).
    lra.
  - unfold Num.gtb in Ed. rewrite !ltb_true_iff. intros Hoff.
    apply ltb_false_iff in Ed.
    assert (0 <= speed c * - direction c) by (apply Qmult_le_0_compat; lra).
    assert (speed c * - direction c == - (speed c * direction c)) by ring.
    lra.
Qed.

(** [Math.floor (Math.random () * n)] is one of [0 .. n - 1]. *)
Lemma floor_roll_range (r : Q) (nl : Z) :
  0 <= r -> r < 1 -> (0 < nl)%Z ->
  (0 <= Num.floor (r * Num.ofZ nl) < nl)%Z.
Proof.
  intros Hr0 Hr1 Hnl. unfold Num.floor, Num.ofZ.
  assert (HN : 0 < inject_Z nl).
  { change (inject_Z 0 < inject_Z nl). now rewrite <- Zlt_Qlt. }
  assert (H0 : 0 <= r * inject_Z nl) by (apply Qmult_le_0_compat; lra).
  assert (H1 : r * inject_Z nl < 1 * inject_Z nl)
    by (apply Qmult_lt_compat_r; lra).
  split.
  - replace 0%Z with (Qfloor 0) by reflexivity. now apply Qfloor_resp_le.
  - rewrite Zlt_Qlt. pose proof (Qfloor_le (r * inject_Z nl)). lra.
Qed.

(** The lane the rejection loop returns is one of the field's lanes. *)
Lemma pickLane_range (nl : Z) (used : gset Z) (rs rs' : list Q) (lane : Z) :
  CrossySession.validRolls rs -> (0 < nl)%Z ->
  pickLane nl used rs = Some (lane, rs') ->
  (0 <= lane < nl)%Z /\ CrossySession.validRolls rs'.
Proof.
  intros Hrs Hnl. induction rs as [|r rs1 IH]; [discriminate|].
  rewrite pickLane_cons.
  apply Forall_cons_1 in Hrs as [[Hr0 Hr1] Hrs1].
  destruct (decide (Num.floor (r * Num.ofZ nl) ∈ used)); [now apply IH|].
  intros [= <- <-]. split; [|exact Hrs1].
  now apply floor_roll_range.
Qed.

Lemma spawnLoop_fresh (lvl nl : Z) (n : nat) :
  forall (used : gset Z) (acc : list Car) (rs : list Q)
         (result : list Car) (rs' : list Q),
  CrossySession.validRolls rs -> (0 < nl)%Z ->
  Forall (CrossySession.freshCar cfg env nl) acc ->
  spawnLoop cfg env lvl nl n used acc rs = Some (result, rs') ->
  Forall (CrossySession.freshCar cfg env nl) result /\
  CrossySession.validRolls rs'.
Proof.
  induction n as [|n IH]; intros used acc rs result rs' Hrs Hnl Hacc Hrun.
  - injection Hrun as <- <-. split; assumption.
  - simpl in Hrun. unfold Rand.bind in Hrun.
    destruct (pickLane nl used rs) as [[lane rs1]|] eqn:Hlane; [|discriminate].
    apply pickLane_range in Hlane; [|assumption..].
    destruct Hlane as [Hrange Hrs1].
    unfold Rand.random in Hrun.
    destruct rs1 as [|r rs2]; [discriminate|].
    destruct rs2 as [|r' rs3]; [discriminate|].
    apply Forall_cons_1 in Hrs1 as [_ Hrs2].
    apply Forall_cons_1 in Hrs2 as [_ Hrs3].
    apply IH in Hrun; try assumption.
    apply Forall_app. split; [exact Hacc|].
    constructor; [|constructor].
    unfold CrossySession.freshCar, newCar. simpl.
    split; [|split; [apply min_le_r | split; [reflexivity|]]].
    + destruct (r <? 5 # 10); [left | right]; split; reflexivity.
    + exists lane. split; [exact Hrange | reflexivity].
Qed.

Lemma carsToSpawn_valid (chance : Q) (m : Z) (rs rs' : list Q) (n : Z) :
  CrossySession.validRolls rs ->
  carsToSpawn chance m rs = Some (n, rs') ->
  CrossySession.validRolls rs'.
Proof.
  intros Hrs. unfold carsToSpawn, Rand.bind, Rand.random, Rand.ret.
  destruct rs as [|r rs1]; [discriminate|].
  apply Forall_cons_1 in Hrs as [_ Hrs1].
  destruct (r <? chance).
  - destruct rs1 as [|r' rs2]; [discriminate|].
    apply Forall_cons_1 in Hrs1 as [_ Hrs2]. now intros [= _ <-].
  - now intros [= _ <-].
Qed.

(** A car fresh from the spawner has not left the field. *)
Lemma freshCar_onScreen (n : Z) (c : Car) :
  0 <= carSize cfg + innerWidth env ->
  CrossySession.freshCar cfg env n c -> isOffScreen env c = false.
Proof.
  intros Hsz ([[Hd Hx] | [Hd Hx]] & _ & Hw & _); unfold isOffScreen;
    rewrite Hd, Hx; simpl.
  - unfold Num.gtb. apply ltb_false_iff. lra.
  - rewrite Hw. apply ltb_false_iff. lra.
Qed.

Lemma spawnCar_fresh (cv : Canvas) (st st' : State) (rs rs' : list Q) :
  canvas env = Some cv ->
  CrossySession.validRolls rs -> (0 < numLanes cv)%Z ->
  spawnCar cfg env st rs = Some (st', rs') ->
  CrossySession.validRolls rs' /\
  exists new,
    cars st' = cars st ++ new /\
    Forall (CrossySession.freshCar cfg env (numLanes cv)) new.
Proof.
  intros Hcv Hrs Hnl Hrun. apply spawnCar_effect in Hrun.
  destruct Hrun as (_ & _ & _ & _ & _ & new & Hcars & Hcase).
  destruct Hcase as [(-> & -> & _) | (_ & _ & cv' & n & rs1 & Hcv' & Hn & Hloop)].
  - split; [exact Hrs|]. exists []. split; [exact Hcars | constructor].
  - rewrite Hcv in Hcv'. injection Hcv' as <-.
    apply carsToSpawn_valid in Hn; [|exact Hrs].
    apply spawnLoop_fresh in Hloop; [|assumption|assumption|constructor].
    destruct Hloop as [Hfresh Hrs']. split; [exact Hrs'|].
    exists new. split; assumption.
Qed.

End Cars.

Section CarsOnScreen.

Import CrossyRoad.

Variable cfg : Settings.

Lemma gameLoop_cars (env : Env) (cv : Canvas) (st st' : State)
  (rs rs' : list Q) :
  canvas env = Some cv ->
  CrossySession.validRolls rs -> (0 < numLanes cv)%Z ->
  0 <= carSize cfg + innerWidth env ->
  CrossySession.carsOnScreen env st ->
  gameLoop cfg env st rs = Some (st', rs') ->
  CrossySession.carsOnScreen env st' /\ CrossySession.validRolls rs'.
Proof.
  intros Hcv Hrs Hnl Hsz Hon. unfold gameLoop. rewrite Hcv.
  destruct (character st) as [ch|]; [|intros [= <- <-]; now split].
  destruct (gameOver st); [intros [= <- <-]; now split|].
  unfold Rand.bind.
  destruct (spawnCar cfg env _ rs) as [[st1 rs1]|] eqn:Hspawn; [|discriminate].
  apply (spawnCar_fresh cfg env cv) in Hspawn; try assumption.
  destruct Hspawn as (Hrs1 & new & Hcars & Hfresh). simpl in Hcars.
  destruct (checkCollisions ch _) as [hit ch'].
  intros [= <- <-]. split; [|exact Hrs1].
  unfold CrossySession.carsOnScreen. simpl. rewrite Hcars.
  apply Forall_app. split.
  - apply List.Forall_forall. intros c Hc. apply filter_In in Hc.
    destruct Hc as [_ Hc]. now apply negb_true_iff in Hc.
  - eapply List.Forall_impl; [|exact Hfresh].
    intros c Hc. eapply freshCar_onScreen; eassumption.
Qed.

End CarsOnScreen.

(** X23: a car that has left the field never comes back: with a
    non-negative speed, a car that is off screen is still off screen after
    any number of updates, so dropping it loses nothing. *)
Theorem X23_car_never_returns
  (env : CrossyRoad.Env) (c : CrossyRoad.Car) (n : nat) :
  0 <= CrossyRoad.speed c ->
  CrossyRoad.isOffScreen env c = true ->
  CrossyRoad.isOffScreen env (Nat.iter n CrossyRoad.update c) = true.
Proof.
  intros Hs Hoff. induction n as [|n IH]; [exact Hoff|].
  simpl. apply update_offScreen; [|exact IH].
  clear IH. induction n as [|n IHn]; [exact Hs | exact IHn].
Qed.

(** A left-moving car whose right end is at -0.5: ten updates later it
    is still off screen. *)
Lemma X23_car_never_returns_witness :
  CrossyRoad.isOffScreen Scenarios.field
    (Nat.iter 10 CrossyRoad.update
       {| CrossyRoad.car_x := - (405 # 10); CrossyRoad.car_y := 125;
          CrossyRoad.car_width := 40; CrossyRoad.car_height := 20;
          CrossyRoad.speed := 3; CrossyRoad.direction := - (1 # 1);
          CrossyRoad.car_color := "#ef4444" |}) = true.
Proof.
  apply X23_car_never_returns; [simpl; lra | reflexivity].
Defined.

(** X24: through any session of frames and move requests on a canvas with
    at least one lane, no car of the state is off screen: the cars a frame
    keeps have not left the field, and the cars it spawns stand at its
    edge. *)
Theorem X24_cars_stay_on_screen
  (cfg : CrossyRoad.Settings) (env : CrossyRoad.Env) (cv : CrossyRoad.Canvas)
  (events : list CrossySession.Event) (st st' : CrossyRoad.State)
  (rs rs' : list Q) :
  CrossyRoad.canvas env = Some cv ->
  (0 < CrossyRoad.numLanes cv)%Z ->
  0 <= CrossyRoad.carSize cfg + CrossyRoad.innerWidth env ->
  CrossySession.validRolls rs ->
  CrossySession.carsOnScreen env st ->
  CrossySession.play cfg env events st rs = Some (st', rs') ->
  CrossySession.carsOnScreen env st'.
Proof.
  intros Hcv Hnl Hsz. revert st rs.
  induction events as [|e events' IH]; intros st rs Hrs Hon; simpl.
  - intros [= <- <-]. exact Hon.
  - unfold Rand.bind.
    destruct (CrossySession.step cfg env e st rs) as [[st1 rs1]|] eqn:Hstep;
      [|discriminate].
    assert (H1 : CrossySession.carsOnScreen env st1 /\
                 CrossySession.validRolls rs1).
    { destruct e as [t | dx dy]; simpl in Hstep.
      - apply (gameLoop_cars cfg (CrossySession.at_time env t) cv) in Hstep;
          assumption.
      - injection Hstep as <- <-. split; [|exact Hrs].
        unfold CrossySession.carsOnScreen.
        destruct (moveCharacter_counters cfg env dx dy st)
          as (_ & _ & -> & _). exact Hon. }
    destruct H1 as [Hon1 Hrs1]. now apply IH.
Qed.

Lemma X24_cars_stay_on_screen_witness :
  exists st' rs',
    CrossySession.play CrossyRoad.DEFAULT_SETTINGS Scenarios.field
      [CrossySession.Frame 5000; CrossySession.Request 0 (- (1 # 1));
       CrossySession.Frame 5016]
      Scenarios.sceneStart [1 # 2; 1 # 2; 1 # 2; 1 # 2] = Some (st', rs') /\
    length (CrossyRoad.cars st') = 1%nat /\
    CrossySession.carsOnScreen Scenarios.field st'.
Proof.
  destruct (CrossySession.play CrossyRoad.DEFAULT_SETTINGS Scenarios.field
      [CrossySession.Frame 5000; CrossySession.Request 0 (- (1 # 1));
       CrossySession.Frame 5016]
      Scenarios.sceneStart [1 # 2; 1 # 2; 1 # 2; 1 # 2])
    as [[st' rs']|] eqn:E; [|vm_compute in E; discriminate E].
  exists st', rs'. split; [reflexivity|]. split.
  - vm_compute in E. injection E as <- _. reflexivity.
  - apply (X24_cars_stay_on_screen CrossyRoad.DEFAULT_SETTINGS
             Scenarios.field (CrossyRoad.mkCanvas 800 600) _ _ _ _ _
             eq_refl) in E; [exact E | reflexivity | simpl; lra | |].
    + repeat constructor; lra.
    + constructor.
Defined.

(** X25: every car [spawnCar] adds stands at the edge it drives away from
    (left of the field at [-carSize] when it drives right, at the window's
    right edge when it drives left), drives at most at [maxCarSpeed], is
    [carSize] wide and sits in one of the field's lanes. *)
Theorem X25_spawned_cars_are_well_formed
  (cfg : CrossyRoad.Settings) (env : CrossyRoad.Env) (cv : CrossyRoad.Canvas)
  (st st' : CrossyRoad.State) (rs rs' : list Q) :
  CrossyRoad.canvas env = Some cv ->
  (0 < CrossyRoad.numLanes cv)%Z ->
  CrossySession.validRolls rs ->
  CrossyRoad.spawnCar cfg env st rs = Some (st', rs') ->
  exists new,
    CrossyRoad.cars st' = CrossyRoad.cars st ++ new /\
    Forall (CrossySession.freshCar cfg env (CrossyRoad.numLanes cv)) new.
Proof.
  intros Hcv Hnl Hrs Hrun.
  now destruct (spawnCar_fresh cfg env cv st st' rs rs' Hcv Hrs Hnl Hrun).
Qed.

Lemma X25_spawned_cars_are_well_formed_witness :
  exists st' rs' new,
    CrossyRoad.spawnCar CrossyRoad.DEFAULT_SETTINGS Scenarios.field
      (Scenarios.sceneWith 385 560 [] 3)
      [1 # 100; 9 # 10; 1 # 2; 7 # 10; 1 # 2; 1 # 2; 1 # 4; 2 # 10; 1 # 2]
    = Some (st', rs') /\
    CrossyRoad.cars st' = new /\ length new = 2%nat /\
    Forall (CrossySession.freshCar CrossyRoad.DEFAULT_SETTINGS
              Scenarios.field 8) new.
Proof.
  destruct (CrossyRoad.spawnCar CrossyRoad.DEFAULT_SETTINGS Scenarios.field
      (Scenarios.sceneWith 385 560 [] 3)
      [1 # 100; 9 # 10; 1 # 2; 7 # 10; 1 # 2; 1 # 2; 1 # 4; 2 # 10; 1 # 2])
    as [[st' rs']|] eqn:E; [|vm_compute in E; discriminate E].
  assert (Hv : CrossySession.validRolls
    [1 # 100; 9 # 10; 1 # 2; 7 # 10; 1 # 2; 1 # 2; 1 # 4; 2 # 10; 1 # 2])
    by (repeat constructor; lra).
  destruct (X25_spawned_cars_are_well_formed CrossyRoad.DEFAULT_SETTINGS
              Scenarios.field (CrossyRoad.mkCanvas 800 600) _ _ _ _
              eq_refl eq_refl Hv E) as (new & Hcars & Hfresh).
  exists st', rs', new. split; [reflexivity|].
  split; [exact Hcars|]. split; [|exact Hfresh].
  vm_compute in E. injection E as <- _. simpl in Hcars.
  rewrite <- Hcars. reflexivity.
Defined.

(** ** The lane-crossing game: collisions *)

Section CarHits.

Import CrossyRoad.

Lemma offScreen_cannot_hit (env : Env) (cv : Canvas) (ch : Character)
  (c : Car) :
  width cv <= innerWidth env ->
  Spec.inBounds cv ch ->
  isOffScreen env c = true -> hitsCar ch c = false.
Proof.
  intros Hw (Hx0 & Hx1 & _ & _). unfold isOffScreen, hitsCar. simpl.
  destruct (direction c >? 0); intros Hoff.
  - unfold Num.gtb in *. apply ltb_true_iff in Hoff.
    assert (E : (car_x c <? char_x ch + char_size ch) = false)
      by (apply ltb_false_iff; lra).
    rewrite E. now rewrite andb_false_r.
  - apply ltb_true_iff in Hoff.
    assert (E : (char_x ch <? car_x c + car_width c) = false)
      by (apply ltb_false_iff; lra).
    rewrite E. now rewrite andb_false_r, !andb_false_l.
Qed.

Lemma dead_cannot_hit (ch : Character) (cs : list Car) :
  isAlive ch = false -> existsb (hitsCar ch) cs = false.
Proof.
  intros Hd. induction cs as [|c cs' IH]; [reflexivity|].
  simpl. rewrite IH. unfold hitsCar. now rewrite Hd.
Qed.

End CarHits.

(** X26: the collision check of a frame runs over all captured cars,
    also those the frame has just dropped; for a character inside a canvas
    no wider than the window this makes no difference: a car that is off
    screen cannot overlap the character, and the check gives the same
    answer on the cars that are kept. *)
Theorem X26_dropped_cars_cannot_hit
  (env : CrossyRoad.Env) (cv : CrossyRoad.Canvas) (ch : CrossyRoad.Character)
  (cs : list CrossyRoad.Car) :
  CrossyRoad.width cv <= CrossyRoad.innerWidth env ->
  Spec.inBounds cv ch ->
  fst (CrossyRoad.checkCollisions ch cs)
  = fst (CrossyRoad.checkCollisions ch
           (List.filter (fun c => negb (CrossyRoad.isOffScreen env c)) cs)).
Proof.
  intros Hw Hin. unfold CrossyRoad.checkCollisions.
  assert (E : existsb (CrossyRoad.hitsCar ch) cs
              = existsb (CrossyRoad.hitsCar ch)
                  (List.filter
                     (fun c => negb (CrossyRoad.isOffScreen env c)) cs)).
  { induction cs as [|c cs' IH]; [reflexivity|]. simpl.
    destruct (CrossyRoad.isOffScreen env c) eqn:Eoff; simpl.
    - rewrite (offScreen_cannot_hit env cv ch c Hw Hin Eoff). exact IH.
    - now rewrite IH. }
  rewrite <- E. destruct (existsb _ cs); reflexivity.
Qed.

(** A car beyond the right edge, at the character's height, does not
    count as a hit. *)
Lemma X26_dropped_cars_cannot_hit_witness :
  fst (CrossyRoad.checkCollisions
         (CrossyRoad.newCharacter 770 100 CrossyRoad.DEFAULT_SETTINGS)
         [ {| CrossyRoad.car_x := 801; CrossyRoad.car_y := 100;
              CrossyRoad.car_width := 40; CrossyRoad.car_height := 20;
              CrossyRoad.speed := 3; CrossyRoad.direction := 1;
              CrossyRoad.car_color := "#ef4444" |} ]) = false.
Proof.
  rewrite (X26_dropped_cars_cannot_hit Scenarios.field
             (CrossyRoad.mkCanvas 800 600)).
  - reflexivity.
  - simpl. lra.
  - unfold Spec.inBounds. simpl. repeat split; lra.
Defined.

(** X27: a collision is reported once.  When [checkCollisions] answers
    true it marks the character dead, and from then on it answers false for
    any cars; when it answers false it leaves the character as it is. *)
Theorem X27_collision_is_reported_once
  (ch : CrossyRoad.Character) (cs cs' : list CrossyRoad.Car) :
  (fst (CrossyRoad.checkCollisions ch cs) = true ->
   CrossyRoad.isAlive (snd (CrossyRoad.checkCollisions ch cs)) = false /\
   CrossyRoad.isAlive ch = true /\
   fst (CrossyRoad.checkCollisions
          (snd (CrossyRoad.checkCollisions ch cs)) cs') = false) /\
  (fst (CrossyRoad.checkCollisions ch cs) = false ->
   snd (CrossyRoad.checkCollisions ch cs) = ch).
Proof.
  unfold CrossyRoad.checkCollisions.
  destruct (existsb (CrossyRoad.hitsCar ch) cs) eqn:E; simpl.
  - split; [|discriminate]. intros _. split; [reflexivity|]. split.
    + destruct (CrossyRoad.isAlive ch) eqn:Ea; [reflexivity|].
      rewrite dead_cannot_hit in E; [discriminate | exact Ea].
    + rewrite dead_cannot_hit; reflexivity.
  - split; [discriminate | reflexivity].
Qed.

(** ** The lane-crossing game: the spawn cooldown *)

(** X28: [spawnCar] adds cars only when at least [spawnInterval] has
    passed since the last spawn; before that it changes nothing and draws no
    random number.  A call that ran records the clock reading, so with a
    positive interval a second call at the same clock reading does
    nothing. *)
Theorem X28_spawn_cooldown
  (cfg : CrossyRoad.Settings) (env : CrossyRoad.Env)
  (st st' : CrossyRoad.State) (rs rs' : list Q) :
  0 < CrossyRoad.spawnInterval cfg (CrossyRoad.level st) ->
  CrossyRoad.spawnCar cfg env st rs = Some (st', rs') ->
  (CrossyRoad.now env - CrossyRoad.lastSpawnTime st
     < CrossyRoad.spawnInterval cfg (CrossyRoad.level st) ->
   st' = st /\ rs' = rs) /\
  (CrossyRoad.cars st' <> CrossyRoad.cars st ->
   CrossyRoad.spawnInterval cfg (CrossyRoad.level st)
     <= CrossyRoad.now env - CrossyRoad.lastSpawnTime st) /\
  CrossyRoad.spawnCar cfg env st' rs' = Some (st', rs').
Proof.
  intros Hpos Hrun. split; [|split].
  - intros Hearly. revert Hrun. unfold CrossyRoad.spawnCar.
    destruct (CrossyRoad.canvas env); [|now intros [= <- <-]].
    apply ltb_true_iff in Hearly. rewrite Hearly. now intros [= <- <-].
  - intros Hnew. apply spawnCar_effect in Hrun.
    destruct Hrun as (_ & _ & _ & _ & _ & new & Hcars & Hcase).
    destruct Hcase as [(-> & _) | (Hcool & _)].
    + rewrite app_nil_r in Hcars. contradiction.
    + unfold CrossyRoad.cooldownElapsed in Hcool.
      apply negb_true_iff, ltb_false_iff in Hcool. exact Hcool.
  - pose proof Hrun as Heff. apply spawnCar_effect in Heff.
    destruct Heff as (_ & Hl & _ & _ & _ & new & Hcars & Hcase).
    destruct Hcase as [(-> & -> & Hlast & Hwhy) | (_ & Hlast & _)].
    + unfold CrossyRoad.spawnCar in *.
      destruct (CrossyRoad.canvas env); [|now injection Hrun as <-].
      destruct Hwhy as [Hwhy | Hwhy]; [discriminate|].
      unfold CrossyRoad.cooldownElapsed in Hwhy.
      apply negb_false_iff in Hwhy. rewrite Hwhy in Hrun.
      injection Hrun as <-. now rewrite Hwhy.
    + unfold CrossyRoad.spawnCar.
      destruct (CrossyRoad.canvas env); [|reflexivity].
      assert (E : (CrossyRoad.now env - CrossyRoad.lastSpawnTime st'
                   <? CrossyRoad.spawnInterval cfg (CrossyRoad.level st'))
                  = true).
      { apply ltb_true_iff. rewrite Hlast, Hl. lra. }
      now rewrite E.
Qed.

(** A call on a fresh game spawns one car; the same call again, at the
    same clock reading, spawns none. *)
Lemma X28_spawn_cooldown_witness :
  exists st' rs',
    CrossyRoad.spawnCar CrossyRoad.DEFAULT_SETTINGS Scenarios.field
      Scenarios.sceneStart [1 # 2; 1 # 2; 1 # 2; 1 # 2; 1 # 2]
    = Some (st', rs') /\
    length (CrossyRoad.cars st') = 1%nat /\
    CrossyRoad.spawnCar CrossyRoad.DEFAULT_SETTINGS Scenarios.field st' rs'
    = Some (st', rs').
Proof.
  destruct (CrossyRoad.spawnCar CrossyRoad.DEFAULT_SETTINGS Scenarios.field
      Scenarios.sceneStart [1 # 2; 1 # 2; 1 # 2; 1 # 2; 1 # 2])
    as [[st' rs']|] eqn:E; [|vm_compute in E; discriminate E].
  exists st', rs'. split; [reflexivity|].
  assert (Hpos : 0 < CrossyRoad.spawnInterval CrossyRoad.DEFAULT_SETTINGS
                       (CrossyRoad.level Scenarios.sceneStart))
    by reflexivity.
  destruct (X28_spawn_cooldown CrossyRoad.DEFAULT_SETTINGS Scenarios.field
              _ _ _ _ Hpos E) as (_ & _ & Hagain).
  split; [|exact Hagain].
  vm_compute in E. injection E as <- _. reflexivity.
Defined.
